(** * Stream normalisation, tool-call accumulation and the agent loop

    A shallow embedding of the streaming core of the repository:
    - the OpenAI adapter ([packages/ai-openai/src/openai-adapter.ts]),
    - the Gemini text adapter ([GeminiTextAdapter], with its
      [processStreamChunks] accumulator),
    - the tool-calling loop of the demo script ([demo]),
    - the SSE bridge ([packages/ai/src/stream-to-response.ts] and the PHP
      Slim servers).

    Async generators are modelled by the list of chunks they yield when
    drained, together with the exception (if any) that escapes them.  The
    clock ([Date.now]) and the id generator are oracles indexed by the number
    of calls made so far in the invocation. *)

From stdpp Require Import gmap strings list pretty.
From Stdlib Require Import ZArith Ascii.

#[local] Set Warnings "-register-all".
#[local] Arguments String.append !_ _ : simpl nomatch.

(** ** JavaScript values *)

(** [x || d] on [string | undefined]: the empty string is falsy. *)
Definition truthy_string (s : option string) : bool :=
  match s with
  | Some s => negb (String.eqb s "")
  | None => false
  end.

Definition string_or (s : option string) (d : string) : string :=
  match s with
  | Some s => if String.eqb s "" then d else s
  | None => d
  end.

(** [x || 0] and [x ?? 0] on [number | undefined] (integer token counts). *)
Definition number_or_0 (n : option Z) : Z := default 0%Z n.

(** A value thrown by a vendor SDK call. [thrown_is_Error] is
    [error instanceof Error]; an absent message is the empty string. *)
Record Thrown := {
  thrown_is_Error : bool;
  thrown_message : string;
  thrown_code : option string;
}.

(** What an async iterator does when drained: it hands out [events] and then
    either completes ([failure = None]) or throws. *)
Record VendorStream (E : Type) := {
  events : list E;
  failure : option Thrown;
}.
Arguments events {E} _.
Arguments failure {E} _.

(** What the consumer of an async generator observes: the chunks yielded,
    then normal completion or an exception thrown out of the generator. *)
Record Emitted (C : Type) := {
  emitted : list C;
  escaped : option Thrown;
}.
Arguments emitted {C} _.
Arguments escaped {C} _.
Arguments Build_Emitted {C} _ _.

(** Threading a state through a loop whose body yields chunks. *)
Fixpoint run_loop {S X C : Type} (body : S → X → S * list C)
    (s : S) (xs : list X) : S * list C :=
  match xs with
  | [] => (s, [])
  | x :: xs' =>
      let '(s1, out1) := body s x in
      let '(s2, out2) := run_loop body s1 xs' in
      (s2, out1 ++ out2)
  end.

(** ** Canonical stream chunks ([StreamChunk]) *)

Record Usage := {
  promptTokens : Z;
  completionTokens : Z;
  totalTokens : Z;
}.

(** [toolCall: { id, type: 'function', function: { name, arguments } }] *)
Record ToolCall := {
  tc_id : string;
  tc_name : string;
  tc_arguments : string;
}.

Inductive StreamChunk :=
  | ChunkContent (id model : string) (timestamp : Z) (delta content : string)
  | ChunkThinking (id model : string) (timestamp : Z) (content : string)
  | ChunkToolCall (id model : string) (timestamp : Z)
      (toolCall : ToolCall) (index : Z)
  | ChunkDone (id model : string) (timestamp : Z)
      (finishReason : string) (usage : option Usage)
  | ChunkError (id model : string) (timestamp : Z)
      (message : string) (code : option string).

Definition is_content (c : StreamChunk) : bool :=
  match c with ChunkContent _ _ _ _ _ => true | _ => false end.

Definition is_tool_call (c : StreamChunk) : bool :=
  match c with ChunkToolCall _ _ _ _ _ => true | _ => false end.

Definition is_done (c : StreamChunk) : bool :=
  match c with ChunkDone _ _ _ _ _ => true | _ => false end.

Definition is_error (c : StreamChunk) : bool :=
  match c with ChunkError _ _ _ _ _ => true | _ => false end.

(** A terminal event is a [done] or an [error] chunk. *)
Definition is_terminal (c : StreamChunk) : bool := is_done c || is_error c.

(** The [delta] and [content] fields of the content chunks, in order. *)
Definition delta_fields (out : list StreamChunk) : list string :=
  omap (λ c, match c with ChunkContent _ _ _ d _ => Some d | _ => None end) out.

Definition content_fields (out : list StreamChunk) : list string :=
  omap (λ c, match c with ChunkContent _ _ _ _ a => Some a | _ => None end) out.

(** The ids carried by the tool-call chunks, in order. *)
Definition tool_call_ids (out : list StreamChunk) : list string :=
  omap (λ c, match c with
             | ChunkToolCall _ _ _ tc _ => Some (tc_id tc)
             | _ => None
             end) out.

(** Concatenation of strings, and the running concatenations of a list of
    deltas starting from the text accumulated so far. *)
Fixpoint concat_strings (l : list string) : string :=
  match l with
  | [] => ""
  | d :: l' => d +:+ concat_strings l'
  end.

Fixpoint running_concat (acc : string) (deltas : list string) : list string :=
  match deltas with
  | [] => []
  | d :: ds => (acc +:+ d) :: running_concat (acc +:+ d) ds
  end.

(** The sequence is closed by exactly one terminal event: its last chunk is a
    [done] or an [error], and no chunk before it is. *)
Definition single_terminal_last (out : list StreamChunk) : bool :=
  match reverse out with
  | [] => false
  | t :: before => is_terminal t && forallb (λ c, negb (is_terminal c)) before
  end.

(** ** The OpenAI adapter *)

Module OpenAI.

Record FunctionDelta := {
  fn_name : option string;
  fn_arguments : option string;
}.

Record ToolCallDelta := {
  tcd_index : option Z;
  tcd_id : option string;
  tcd_function : option FunctionDelta;
}.

Record Delta := {
  delta_content : option string;
  delta_role : option string;
  delta_tool_calls : option (list ToolCallDelta);
}.

Record Choice := {
  choice_delta : option Delta;
  choice_finish_reason : option string;
}.

Record VendorUsage := {
  prompt_tokens : option Z;
  completion_tokens : option Z;
  total_tokens : option Z;
}.

(** One chunk of [client.chat.completions.create({stream: true})]. *)
Record VendorChunk := {
  chunk_id : string;
  chunk_model : string;
  chunk_choices : list Choice;
  chunk_usage : option VendorUsage;
}.

(** [chunk.choices[0]] and [chunk.choices[0]?.delta] *)
Definition choice0 (chunk : VendorChunk) : option Choice :=
  head (chunk_choices chunk).

Definition delta0 (chunk : VendorChunk) : option Delta :=
  choice0 chunk ≫= choice_delta.

(** [delta?.content] and [choice?.finish_reason] *)
Definition delta0_content (chunk : VendorChunk) : option string :=
  delta0 chunk ≫= delta_content.

Definition finish_reason0 (chunk : VendorChunk) : option string :=
  choice0 chunk ≫= choice_finish_reason.

(** *** [chatCompletionStream] *)

Record ChatCompletionChunk := {
  ccc_id : string;
  ccc_model : string;
  ccc_content : string;
  ccc_role : option string;
  ccc_finishReason : option string;
}.

(** The loop body: a chunk is yielded only under [if (delta?.content)]. *)
Definition completion_chunk (chunk : VendorChunk) : list ChatCompletionChunk :=
  match delta0 chunk with
  | Some delta =>
      if truthy_string (delta_content delta) then
        [ {| ccc_id := chunk_id chunk;
             ccc_model := chunk_model chunk;
             ccc_content := default "" (delta_content delta);
             ccc_role := delta_role delta;
             ccc_finishReason := finish_reason0 chunk |} ]
      else []
  | None => []
  end.

(** Neither the [await create(...)] nor the [for await] is guarded: a
    failure of either escapes to the caller. *)
Definition chatCompletionStream (opened : Thrown + VendorStream VendorChunk)
    : Emitted ChatCompletionChunk :=
  match opened with
  | inl e => Build_Emitted [] (Some e)
  | inr stream =>
      Build_Emitted (events stream ≫= completion_chunk) (failure stream)
  end.

(** *** [chatStream] *)

Section chatStream.
(** [Date_now k] is the value of the [k]-th call of [Date.now()] made by
    the invocation, [generateId k] that of the [k]-th [this.generateId()]. *)
Variable Date_now : nat → Z.
Variable generateId : nat → string.
(** [options.model] *)
Variable options_model : option string.

Record State := {
  accumulatedContent : string;
  clock_reads : nat;
}.

Definition content_part (timestamp : Z) (st : State) (chunk : VendorChunk)
    : State * list StreamChunk :=
  if truthy_string (delta0_content chunk) then
    let text := default "" (delta0_content chunk) in
    let acc := accumulatedContent st +:+ text in
    ({| accumulatedContent := acc; clock_reads := clock_reads st |},
     [ChunkContent (chunk_id chunk) (chunk_model chunk) timestamp text acc])
  else (st, []).

(** [toolCall.id || `call_${Date.now()}`]: the clock is read only when the
    fragment carries no id. *)
Definition tool_call_fragment (timestamp : Z) (chunk : VendorChunk)
    (st : State) (toolCall : ToolCallDelta) : State * list StreamChunk :=
  let '(st', id) :=
    if truthy_string (tcd_id toolCall) then (st, default "" (tcd_id toolCall))
    else
      ({| accumulatedContent := accumulatedContent st;
          clock_reads := S (clock_reads st) |},
       "call_" +:+ pretty (Date_now (clock_reads st))) in
  (st',
   [ChunkToolCall (chunk_id chunk) (chunk_model chunk) timestamp
      {| tc_id := id;
         tc_name := string_or (tcd_function toolCall ≫= fn_name) "";
         tc_arguments := string_or (tcd_function toolCall ≫= fn_arguments) "" |}
      (number_or_0 (tcd_index toolCall))]).

Definition tool_calls_part (timestamp : Z) (st : State) (chunk : VendorChunk)
    : State * list StreamChunk :=
  match delta0 chunk ≫= delta_tool_calls with
  | Some tool_calls => run_loop (tool_call_fragment timestamp chunk) st tool_calls
  | None => (st, [])
  end.

Definition usage_of (u : option VendorUsage) : option Usage :=
  (λ u, {| promptTokens := number_or_0 (prompt_tokens u);
           completionTokens := number_or_0 (completion_tokens u);
           totalTokens := number_or_0 (total_tokens u) |}) <$> u.

Definition completion_part (timestamp : Z) (chunk : VendorChunk)
    : list StreamChunk :=
  if truthy_string (finish_reason0 chunk) then
    [ChunkDone (chunk_id chunk) (chunk_model chunk) timestamp
       (default "" (finish_reason0 chunk)) (usage_of (chunk_usage chunk))]
  else [].

(** The body of [for await (const chunk of stream)]. *)
Definition process_chunk (timestamp : Z) (st : State) (chunk : VendorChunk)
    : State * list StreamChunk :=
  let '(st1, out1) := content_part timestamp st chunk in
  let '(st2, out2) := tool_calls_part timestamp st1 chunk in
  (st2, out1 ++ out2 ++ completion_part timestamp chunk).

(** The [catch] clause around the loop. *)
Definition error_chunk (timestamp : Z) (error : Thrown) : StreamChunk :=
  ChunkError (generateId 0) (string_or options_model "gpt-3.5-turbo") timestamp
    (string_or (Some (thrown_message error)) "Unknown error occurred")
    (thrown_code error).

(** [chatStream]: the stream is opened by [await create(requestParams)]
    before the [try]; [timestamp] is the first clock reading; only the
    iteration is inside [try]/[catch]. *)
Definition chatStream (opened : Thrown + VendorStream VendorChunk)
    : Emitted StreamChunk :=
  match opened with
  | inl e => Build_Emitted [] (Some e)
  | inr stream =>
      let timestamp := Date_now 0 in
      let st0 := {| accumulatedContent := ""; clock_reads := 1 |} in
      let '(_, out) := run_loop (process_chunk timestamp) st0 (events stream) in
      match failure stream with
      | None => Build_Emitted out None
      | Some e => Build_Emitted (out ++ [error_chunk timestamp e]) None
      end
  end.
End chatStream.

End OpenAI.

(** ** JSON values and JavaScript objects *)

(** The values [JSON.parse] returns.  The adapters never inspect numbers, so
    integers stand for them.  An object is the list of its own properties in
    property-enumeration order. *)
Inductive json :=
  | JNull
  | JBool (b : bool)
  | JNum (n : Z)
  | JStr (s : string)
  | JArr (items : list json)
  | JObj (props : list (string * json)).

(** Truthiness, as tested by [||]. *)
Definition js_truthy (v : json) : bool :=
  match v with
  | JNull => false
  | JBool b => b
  | JNum n => negb (n =? 0)%Z
  | JStr s => negb (String.eqb s "")
  | JArr _ | JObj _ => true
  end.

(** [o[k]] on the own properties of an object. *)
Fixpoint js_get (k : string) (o : list (string * json)) : option json :=
  match o with
  | [] => None
  | (k', v) :: o' => if String.eqb k' k then Some v else js_get k o'
  end.

Definition has_key (k : string) (o : list (string * json)) : bool :=
  bool_decide (is_Some (js_get k o)).

(** The value of a string of decimal digits, [None] if another character
    occurs. *)
Definition digit_value (c : ascii) : option N :=
  let n := N_of_ascii c in
  if bool_decide (48 ≤ n ∧ n ≤ 57)%N then Some (n - 48)%N else None.

Fixpoint digits_value (acc : N) (s : string) : option N :=
  match s with
  | EmptyString => Some acc
  | String c s' =>
      match digit_value c with
      | Some d => digits_value (10 * acc + d)%N s'
      | None => None
      end
  end.

(** A property key is an array index when it is the canonical decimal form of
    an integer below [2^32 - 1]; such keys are enumerated first, in ascending
    order, before the other keys in insertion order. *)
Definition array_index (k : string) : option N :=
  match k with
  | EmptyString => None
  | _ =>
      match digits_value 0 k with
      | Some n =>
          if String.eqb (pretty n) k && (n <? 4294967295)%N then Some n else None
      | None => None
      end
  end.

Fixpoint insert_index (n : N) (k : string) (v : json)
    (o : list (string * json)) : list (string * json) :=
  match o with
  | [] => [(k, v)]
  | (k', v') :: o' =>
      match array_index k' with
      | Some n' =>
          if (n' <? n)%N then (k', v') :: insert_index n k v o'
          else (k, v) :: o
      | None => (k, v) :: o
      end
  end.

Definition replace_value (k : string) (v : json)
    (o : list (string * json)) : list (string * json) :=
  (λ kv, if String.eqb kv.1 k then (kv.1, v) else kv) <$> o.

(** [CreateDataProperty(o, k, v)]: an existing key keeps its place and takes
    the new value; a new key is added in enumeration order. *)
Definition js_set (k : string) (v : json)
    (o : list (string * json)) : list (string * json) :=
  if has_key k o then replace_value k v o
  else
    match array_index k with
    | Some n => insert_index n k v o
    | None => o ++ [(k, v)]
    end.

(** The own enumerable properties a spread copies: those of an object, the
    elements of an array, the characters of a string, none of a primitive. *)
Definition own_props (v : json) : list (string * json) :=
  match v with
  | JObj props => props
  | JArr items => imap (λ i x, (pretty i, x)) items
  | JStr s => imap (λ i c, (pretty i, JStr (String c ""))) (String.list_ascii_of_string s)
  | JNull | JBool _ | JNum _ => []
  end.

Definition copy_props (target : list (string * json)) (source : json)
    : list (string * json) :=
  foldl (λ o kv, js_set kv.1 kv.2 o) target (own_props source).

(** [{ ...a, ...b }] *)
Definition js_spread (a b : json) : json :=
  JObj (copy_props (copy_props [] a) b).

(** ** The Gemini text adapter *)

Module Gemini.

(** [FinishReason] of the vendor SDK. *)
Inductive FinishReason :=
  | FINISH_REASON_UNSPECIFIED | STOP | MAX_TOKENS | SAFETY | RECITATION
  | LANGUAGE | OTHER | BLOCKLIST | PROHIBITED_CONTENT | SPII
  | MALFORMED_FUNCTION_CALL | IMAGE_SAFETY | UNEXPECTED_TOOL_CALL.

#[global] Instance FinishReason_eq_dec : EqDecision FinishReason.
Proof. solve_decision. Defined.

Record FunctionCall := {
  fc_id : option string;
  fc_name : option string;
  fc_args : option json;
}.

Record Part := {
  part_text : option string;
  part_thought : option bool;
  part_functionCall : option FunctionCall;
}.

Record Content := {
  content_parts : option (list Part);
}.

Record Candidate := {
  cand_content : option Content;
  cand_finishReason : option FinishReason;
}.

Record UsageMetadata := {
  promptTokenCount : option Z;
  candidatesTokenCount : option Z;
  totalTokenCount : option Z;
}.

Record GenerateContentResponse := {
  candidates : option (list Candidate);
  data : option string;
  usageMetadata : option UsageMetadata;
}.

(** [chunk.candidates?.[0]], [...?.content?.parts], [...?.finishReason] *)
Definition candidate0 (chunk : GenerateContentResponse) : option Candidate :=
  candidates chunk ≫= head.

Definition parts0 (chunk : GenerateContentResponse) : option (list Part) :=
  (candidate0 chunk ≫= cand_content) ≫= content_parts.

Definition finishReason0 (chunk : GenerateContentResponse)
    : option FinishReason :=
  candidate0 chunk ≫= cand_finishReason.

(** The entries of [toolCallMap]. *)
Record ToolCallData := {
  name : string;
  args : string;
  index : nat;
}.

Record State := {
  accumulatedContent : string;
  toolCallMap : gmap string ToolCallData;
  nextToolIndex : nat;
  clock_reads : nat;
  ids_made : nat;
}.

Definition set_accumulatedContent (s : string) (st : State) : State :=
  {| accumulatedContent := s; toolCallMap := toolCallMap st;
     nextToolIndex := nextToolIndex st; clock_reads := clock_reads st;
     ids_made := ids_made st |}.

Definition set_toolCallMap (m : gmap string ToolCallData) (st : State) : State :=
  {| accumulatedContent := accumulatedContent st; toolCallMap := m;
     nextToolIndex := nextToolIndex st; clock_reads := clock_reads st;
     ids_made := ids_made st |}.

Definition set_nextToolIndex (n : nat) (st : State) : State :=
  {| accumulatedContent := accumulatedContent st; toolCallMap := toolCallMap st;
     nextToolIndex := n; clock_reads := clock_reads st;
     ids_made := ids_made st |}.

Definition tick_clock (st : State) : State :=
  {| accumulatedContent := accumulatedContent st; toolCallMap := toolCallMap st;
     nextToolIndex := nextToolIndex st; clock_reads := S (clock_reads st);
     ids_made := ids_made st |}.

Definition tick_ids (st : State) : State :=
  {| accumulatedContent := accumulatedContent st; toolCallMap := toolCallMap st;
     nextToolIndex := nextToolIndex st; clock_reads := clock_reads st;
     ids_made := S (ids_made st) |}.

(** [`${x}`] on [string | undefined] *)
Definition template_string (s : option string) : string :=
  default "undefined" s.

(** [`${functionCall.name}_${Date.now()}_${nextToolIndex}`] *)
Definition synthesized_key (fc_name : option string) (now : Z) (counter : nat)
    : string :=
  template_string fc_name +:+ "_" +:+ pretty now +:+ "_" +:+ pretty counter.

Section adapter.
(** [Date_now k] is the value of the [k]-th call of [Date.now()] made by
    the invocation, [generateId k] that of the [k]-th [generateId(name)]. *)
Variable Date_now : nat → Z.
Variable generateId : nat → string.
(** [JSON.parse] ([None] when it throws) and [JSON.stringify]. *)
Variable JSON_parse : string → option json.
Variable JSON_stringify : json → string.

(** [functionCall.id || `${name}_${Date.now()}_${nextToolIndex}`]: the
    clock is read only when the fragment carries no id. *)
Definition tool_call_id (st : State) (functionCall : FunctionCall)
    : State * string :=
  if truthy_string (fc_id functionCall) then
    (st, default "" (fc_id functionCall))
  else
    (tick_clock st,
     synthesized_key (fc_name functionCall) (Date_now (clock_reads st))
       (nextToolIndex st)).

(** [functionCall.args || {}] *)
Definition function_args (functionCall : FunctionCall) : json :=
  match fc_args functionCall with
  | Some v => if js_truthy v then v else JObj []
  | None => JObj []
  end.

(** [typeof functionArgs === 'string' ? functionArgs
     : JSON.stringify(functionArgs)] *)
Definition args_text (functionArgs : json) : string :=
  match functionArgs with
  | JStr s => s
  | v => JSON_stringify v
  end.

(** The [try] block of the merge; [None] when one of the two
    [JSON.parse] calls throws. *)
Definition merge_args (existing : string) (functionArgs : json)
    : option string :=
  existingArgs ← JSON_parse existing;
  newArgs ← match functionArgs with
            | JStr s => JSON_parse s
            | v => Some v
            end;
  Some (JSON_stringify (js_spread existingArgs newArgs)).

(** The update of an existing record: [try { merge } catch { replace }]. *)
Definition merged (toolCallData : ToolCallData) (functionArgs : json)
    : ToolCallData :=
  {| name := name toolCallData;
     args := default (args_text functionArgs)
               (merge_args (args toolCallData) functionArgs);
     index := index toolCallData |}.

Definition tool_call_chunk (model : string) (timestamp : Z) (st : State)
    (toolCallId fname fargs : string) (idx : Z) : State * list StreamChunk :=
  (tick_ids st,
   [ChunkToolCall (generateId (ids_made st)) model timestamp
      {| tc_id := toolCallId; tc_name := fname; tc_arguments := fargs |} idx]).

(** [if (functionCall) { ... }] inside the loop over the parts. *)
Definition function_call_part (model : string) (timestamp : Z) (st : State)
    (functionCall : FunctionCall) : State * list StreamChunk :=
  let '(st1, toolCallId) := tool_call_id st functionCall in
  let functionArgs := function_args functionCall in
  let '(st2, toolCallData) :=
    match toolCallMap st1 !! toolCallId with
    | None =>
        let d := {| name := string_or (fc_name functionCall) "";
                    args := args_text functionArgs;
                    index := nextToolIndex st1 |} in
        (set_toolCallMap (<[toolCallId := d]> (toolCallMap st1))
           (set_nextToolIndex (S (nextToolIndex st1)) st1), d)
    | Some existing =>
        let d := merged existing functionArgs in
        (set_toolCallMap (<[toolCallId := d]> (toolCallMap st1)) st1, d)
    end in
  tool_call_chunk model timestamp st2 toolCallId
    (name toolCallData) (args toolCallData) (Z.of_nat (index toolCallData)).

(** [if (part.text) { ... }] *)
Definition text_part (model : string) (timestamp : Z) (st : State)
    (part : Part) : State * list StreamChunk :=
  if truthy_string (part_text part) then
    let text := default "" (part_text part) in
    if default false (part_thought part) then
      (tick_ids st,
       [ChunkThinking (generateId (ids_made st)) model timestamp text])
    else
      let acc := accumulatedContent st +:+ text in
      (tick_ids (set_accumulatedContent acc st),
       [ChunkContent (generateId (ids_made st)) model timestamp text acc])
  else (st, []).

(** The body of [for (const part of parts)]. *)
Definition process_part (model : string) (timestamp : Z) (st : State)
    (part : Part) : State * list StreamChunk :=
  let '(st1, out1) := text_part model timestamp st part in
  let '(st2, out2) :=
    match part_functionCall part with
    | Some functionCall => function_call_part model timestamp st1 functionCall
    | None => (st1, [])
    end in
  (st2, out1 ++ out2).

(** [else if (chunk.data) { ... }] *)
Definition data_part (model : string) (timestamp : Z) (st : State)
    (chunk : GenerateContentResponse) : State * list StreamChunk :=
  if truthy_string (data chunk) then
    let text := default "" (data chunk) in
    let acc := accumulatedContent st +:+ text in
    (tick_ids (set_accumulatedContent acc st),
     [ChunkContent (generateId (ids_made st)) model timestamp text acc])
  else (st, []).

(** The loop body under [finishReason === UNEXPECTED_TOOL_CALL]: the record
    is (re)written with a fresh index. *)
Definition unexpected_tool_call_part (model : string) (timestamp : Z)
    (st : State) (part : Part) : State * list StreamChunk :=
  match part_functionCall part with
  | Some functionCall =>
      let '(st1, toolCallId) := tool_call_id st functionCall in
      let functionArgs := function_args functionCall in
      let d := {| name := string_or (fc_name functionCall) "";
                  args := args_text functionArgs;
                  index := nextToolIndex st1 |} in
      let st2 := set_toolCallMap (<[toolCallId := d]> (toolCallMap st1))
                   (set_nextToolIndex (S (nextToolIndex st1)) st1) in
      tool_call_chunk model timestamp st2 toolCallId
        (string_or (fc_name functionCall) "") (args_text functionArgs)
        (Z.of_nat (nextToolIndex st2) - 1)
  | None => (st, [])
  end.

Definition max_tokens_message : string :=
  "The response was cut off because the maximum token limit was reached.".

Definition usage_of (u : option UsageMetadata) : option Usage :=
  (λ u, {| promptTokens := number_or_0 (promptTokenCount u);
           completionTokens := number_or_0 (candidatesTokenCount u);
           totalTokens := number_or_0 (totalTokenCount u) |}) <$> u.

(** [toolCallMap.size > 0 ? 'tool_calls' : 'stop'] *)
Definition done_reason (st : State) : string :=
  if bool_decide (0 < size (toolCallMap st)) then "tool_calls" else "stop".

(** [if (chunk.candidates?.[0]?.finishReason) { ... }] *)
Definition finish_part (model : string) (timestamp : Z) (st : State)
    (chunk : GenerateContentResponse) : State * list StreamChunk :=
  match finishReason0 chunk with
  | Some finishReason =>
      let '(st1, out1) :=
        if decide (finishReason = UNEXPECTED_TOOL_CALL) then
          match parts0 chunk with
          | Some parts =>
              run_loop (unexpected_tool_call_part model timestamp) st parts
          | None => (st, [])
          end
        else (st, []) in
      let '(st2, out2) :=
        if decide (finishReason = MAX_TOKENS) then
          (tick_ids st1,
           [ChunkError (generateId (ids_made st1)) model timestamp
              max_tokens_message None])
        else (st1, []) in
      (tick_ids st2,
       out1 ++ out2 ++
       [ChunkDone (generateId (ids_made st2)) model timestamp
          (done_reason st2) (usage_of (usageMetadata chunk))])
  | None => (st, [])
  end.

(** The body of [for await (const chunk of result)]. *)
Definition process_chunk (model : string) (timestamp : Z) (st : State)
    (chunk : GenerateContentResponse) : State * list StreamChunk :=
  let '(st1, out1) :=
    match parts0 chunk with
    | Some parts => run_loop (process_part model timestamp) st parts
    | None => data_part model timestamp st chunk
    end in
  let '(st2, out2) := finish_part model timestamp st1 chunk in
  (st2, out1 ++ out2).

Definition initial_state : State :=
  {| accumulatedContent := ""; toolCallMap := ∅; nextToolIndex := 0;
     clock_reads := 1; ids_made := 0 |}.

(** [processStreamChunks]: [timestamp] is the first clock reading; a
    failure of the iteration is not caught here.  The final state is
    returned for the oracle counters. *)
Definition processStreamChunks (result : VendorStream GenerateContentResponse)
    (model : string) : State * Emitted StreamChunk :=
  let timestamp := Date_now 0 in
  let '(st, out) := run_loop (process_chunk model timestamp) initial_state
                      (events result) in
  (st, Build_Emitted out (failure result)).

Definition unknown_error_message : string :=
  "An unknown error occurred during the chat stream.".

(** The [catch] clause of [chatStream]. *)
Definition error_chunk (model : string) (reads ids : nat) (error : Thrown)
    : StreamChunk :=
  ChunkError (generateId ids) model (Date_now reads)
    (if thrown_is_Error error then thrown_message error
     else unknown_error_message)
    None.

(** [chatStream]: both the opening of the vendor stream and its
    processing are inside [try]/[catch].  The mapping of the request
    ([mapCommonOptionsToGemini]) precedes the [try] and is not modelled. *)
Definition chatStream (options_model : string)
    (opened : Thrown + VendorStream GenerateContentResponse)
    : Emitted StreamChunk :=
  match opened with
  | inl error => Build_Emitted [error_chunk options_model 0 0 error] None
  | inr result =>
      let '(st, em) := processStreamChunks result options_model in
      match escaped em with
      | None => em
      | Some error =>
          Build_Emitted
            (emitted em ++
             [error_chunk options_model (clock_reads st) (ids_made st) error])
            None
      end
  end.
End adapter.

End Gemini.

(** ** The response bridge *)

Definition newline : string := String (ascii_of_nat 10) "".

Module Bridge.

(** The sentinel record ["data: [DONE]\n\n"]. *)
Definition done_record : string := "data: [DONE]" +:+ newline +:+ newline.

(** [JSON.stringify] of a plain object is its serialised members between
    braces. *)
Definition JSON_stringify_object (members : string) : string :=
  "{" +:+ members +:+ "}".

Section toReadableStream.
(** The serialised members of a chunk, and of the object
    [{ type: "error", error: { message, code } }]. *)
Variable chunk_members : StreamChunk → string.
Variable error_members : string → option string → string.

(** [`data: ${JSON.stringify(chunk)}\n\n`] *)
Definition chunk_record (chunk : StreamChunk) : string :=
  "data: " +:+ JSON_stringify_object (chunk_members chunk)
    +:+ newline +:+ newline.

Definition error_record (error : Thrown) : string :=
  "data: " +:+
  JSON_stringify_object
    (error_members
       (string_or (Some (thrown_message error)) "Unknown error occurred")
       (thrown_code error))
    +:+ newline +:+ newline.

(** The records enqueued before the controller is closed.  The completion
    marker is sent after the loop, inside the [try]; the [catch] clause
    sends the error record and closes. *)
Definition toReadableStream (stream : VendorStream StreamChunk)
    : list string :=
  match failure stream with
  | None => (chunk_record <$> events stream) ++ [done_record]
  | Some error => (chunk_record <$> events stream) ++ [error_record error]
  end.
End toReadableStream.

(** *** The PHP Slim servers ([POST /chat]) *)

Section php.
(** The vendor events, the chunk arrays and the state of
    [StreamChunkConverter]. *)
Variables Event Chunk Converter : Type.
Variable convertEvent : Converter → Event → Converter * list Chunk.
Variable convertError : Converter → Thrown → Chunk.
(** [json_encode] of a chunk array, without the braces. *)
Variable chunk_members : Chunk → string.

(** Modelled from the spec: [SSEFormatter::formatChunk] and
    [SSEFormatter::formatDone] are not among the sources; the records are
    ["data: <json-encoded chunk>\n\n"] and the sentinel
    ["data: [DONE]\n\n"]. *)
Definition formatChunk (chunk : Chunk) : string :=
  "data: " +:+ JSON_stringify_object (chunk_members chunk)
    +:+ newline +:+ newline.

Definition formatDone : string := done_record.

(** What the handler echoes: [createStreamed] and the [foreach] are inside
    the inner [try]; its [catch] echoes the converted error and exits. *)
Definition chat_handler (converter : Converter)
    (opened : Thrown + VendorStream Event) : list string :=
  match opened with
  | inl error => [formatChunk (convertError converter error)]
  | inr stream =>
      let '(converter', chunks) :=
        run_loop convertEvent converter (events stream) in
      match failure stream with
      | None => (formatChunk <$> chunks) ++ [formatDone]
      | Some error =>
          (formatChunk <$> chunks) ++
          [formatChunk (convertError converter' error)]
      end
  end.
End php.

End Bridge.

(** ** The tool-calling loop of the demo *)

Module Demo.

Inductive Message :=
  | UserMessage (content : string)
  | AssistantMessage (content : option string) (toolCalls : list ToolCall)
  | ToolMessage (content : string) (toolCallId : string) (name : string).

(** The entries [{ id, name, args }] of [toolCallsMap]. *)
Record Call := {
  call_id : string;
  call_name : string;
  call_args : string;
}.

(** A [Map] keyed by chunk index; [forEach] visits the entries in insertion
    order, so the map is the list of its entries in that order. *)
Fixpoint map_get (index : Z) (m : list (Z * Call)) : option Call :=
  match m with
  | [] => None
  | (i, call) :: m' => if (i =? index)%Z then Some call else map_get index m'
  end.

Fixpoint map_set (index : Z) (call : Call) (m : list (Z * Call))
    : list (Z * Call) :=
  match m with
  | [] => [(index, call)]
  | (i, c) :: m' =>
      if (i =? index)%Z then (i, call) :: m'
      else (i, c) :: map_set index call m'
  end.

(** The variables declared at the top of one iteration. *)
Record Round := {
  toolCalls : list ToolCall;
  toolCallsMap : list (Z * Call);
  content : string;
}.

Definition new_round : Round :=
  {| toolCalls := []; toolCallsMap := []; content := "" |}.

(** The body of [for await (const chunk of ai.streamChat(...))]. *)
Definition on_chunk (r : Round) (chunk : StreamChunk) : Round :=
  match chunk with
  | ChunkContent _ _ _ _ accumulated =>
      {| toolCalls := toolCalls r; toolCallsMap := toolCallsMap r;
         content := accumulated |}
  | ChunkToolCall _ _ _ toolCall index =>
      let existing :=
        default {| call_id := tc_id toolCall; call_name := ""; call_args := "" |}
          (map_get index (toolCallsMap r)) in
      let updated :=
        {| call_id := call_id existing;
           call_name := string_or (Some (tc_name toolCall)) (call_name existing);
           call_args := call_args existing +:+ tc_arguments toolCall |} in
      {| toolCalls := toolCalls r;
         toolCallsMap := map_set index updated (toolCallsMap r);
         content := content r |}
  | ChunkDone _ _ _ finishReason _ =>
      if String.eqb finishReason "tool_calls" then
        {| toolCalls :=
             toolCalls r ++
             ((λ entry, {| tc_id := call_id entry.2;
                           tc_name := call_name entry.2;
                           tc_arguments := call_args entry.2 |})
                <$> toolCallsMap r);
           toolCallsMap := toolCallsMap r;
           content := content r |}
      else r
  | ChunkThinking _ _ _ _ | ChunkError _ _ _ _ _ => r
  end.

Inductive Outcome :=
  | Complete  (** the [while] loop was left normally *)
  | Caught.   (** the [catch] clause of [demo] was reached *)

Record Result := {
  outcome : Outcome;
  messages : list Message;
  iteration : nat;
}.

(** The number of tool-execution rounds begun: each one first pushes the
    assistant message carrying the tool calls. *)
Definition is_assistant (m : Message) : bool :=
  match m with AssistantMessage _ _ => true | _ => false end.

Definition tool_rounds (msgs : list Message) : nat :=
  length (List.filter is_assistant msgs).

Section demo.
(** [ai.streamChat({ model, messages, tools, toolChoice })] *)
Variable streamChat : list Message → Emitted StreamChunk.
(** [JSON.parse] ([None] when it throws). *)
Variable JSON_parse : string → option json.
(** [calculate], applied to the [expression] property ([None] for
    [undefined]); it catches its own failures. *)
Variable calculate : option json → string.

(** [JSON.parse(call.function.arguments).expression]; reading a property
    of [null] throws. *)
Definition expression_of (arguments : string) : option (option json) :=
  v ← JSON_parse arguments;
  match v with
  | JNull => None
  | JObj props => Some (js_get "expression" props)
  | JBool _ | JNum _ | JStr _ | JArr _ => Some None
  end.

(** [for (const call of toolCalls) { ... }]; [false] when a call throws,
    with the messages pushed until then. *)
Fixpoint execute_tools (msgs : list Message) (calls : list ToolCall)
    : list Message * bool :=
  match calls with
  | [] => (msgs, true)
  | call :: calls' =>
      match expression_of (tc_arguments call) with
      | Some expression =>
          execute_tools
            (msgs ++ [ToolMessage (calculate expression) (tc_id call)
                        (tc_name call)])
            calls'
      | None => (msgs, false)
      end
  end.

Definition stream_round (msgs : list Message) : Round :=
  foldl on_chunk new_round (emitted (streamChat msgs)).

(** [while (iteration < maxIterations) { iteration++; ... }], by recursion
    on [maxIterations - iteration]. *)
Fixpoint while_loop (remaining : nat) (iteration : nat)
    (msgs : list Message) : Result :=
  match remaining with
  | 0 => {| outcome := Complete; messages := msgs; iteration := iteration |}
  | S remaining' =>
      let iteration := S iteration in
      let r := stream_round msgs in
      match escaped (streamChat msgs) with
      | Some _ =>
          {| outcome := Caught; messages := msgs; iteration := iteration |}
      | None =>
          match toolCalls r with
          | [] =>
              {| outcome := Complete; messages := msgs;
                 iteration := iteration |}
          | _ :: _ =>
              let assistant :=
                AssistantMessage
                  (if String.eqb (content r) "" then None
                   else Some (content r))
                  (toolCalls r) in
              match execute_tools (msgs ++ [assistant]) (toolCalls r) with
              | (msgs', true) => while_loop remaining' iteration msgs'
              | (msgs', false) =>
                  {| outcome := Caught; messages := msgs';
                     iteration := iteration |}
              end
          end
      end
  end.

Definition initial_messages : list Message :=
  [UserMessage "What is 847 multiplied by 392?"].

(** The loop for a given bound, and [demo] with its [maxIterations = 2]. *)
Definition tool_loop (maxIterations : nat) : Result :=
  while_loop (maxIterations - 0) 0 initial_messages.

Definition demo : Result := tool_loop 2.
End demo.

End Demo.

(** ** The other methods of the Gemini text adapter *)

Module GeminiText.

(** [extractTextFromResponse]: the texts of the parts of the first
    candidate, thoughts included. *)
Definition extractTextFromResponse
    (response : Gemini.GenerateContentResponse) : string :=
  match Gemini.parts0 response with
  | Some parts =>
      foldl (λ textContent part,
               if truthy_string (Gemini.part_text part)
               then textContent +:+ default "" (Gemini.part_text part)
               else textContent)
        "" parts
  | None => ""
  end.

(** [ContentPart].  [UnknownPart] stands for a value whose [type] is outside
    the declared union, which the [default] branch of the conversion
    rejects. *)
Inductive MediaKind := image | audio | video | document.

Inductive SourceType := source_data | source_url.

Inductive ContentPart :=
  | TextPart (content : string)
  | MediaPart (kind : MediaKind) (source_type : SourceType)
      (source_value : string) (metadata_mimeType : option string)
  | UnknownPart (type : string).

(** [ModelMessage] *)
Inductive Role := system | user | assistant | tool.

#[global] Instance Role_eq_dec : EqDecision Role.
Proof. solve_decision. Defined.

Inductive MessageContent :=
  | ContentNull
  | ContentText (text : string)
  | ContentParts (parts : list ContentPart).

Record ModelMessage := {
  msg_role : Role;
  msg_content : MessageContent;
  msg_toolCalls : option (list ToolCall);
  msg_toolCallId : option string;
}.

(** The vendor's [Part]s that the request carries. *)
Inductive RequestPart :=
  | PText (text : string)
  | PInlineData (data mimeType : string)
  | PFileData (fileUri mimeType : string)
  | PFunctionCall (name : string) (args : json)
  | PFunctionResponse (name : string) (content : MessageContent).

Inductive RequestRole := role_user | role_model.

Record RequestContent := {
  rc_role : RequestRole;
  rc_parts : list RequestPart;
}.

Definition getDefaultFileType (kind : MediaKind) : string :=
  match kind with
  | image => "image/jpeg"
  | audio => "audio/mp3"
  | video => "video/mp4"
  | document => "application/pdf"
  end.

Definition unsupported_part (type : string) : Thrown :=
  {| thrown_is_Error := true;
     thrown_message := "Unsupported content part type: " +:+ type;
     thrown_code := None |}.

(** [convertContentPartToGemini] *)
Definition convertContentPartToGemini (part : ContentPart)
    : Thrown + RequestPart :=
  match part with
  | TextPart content => inr (PText content)
  | MediaPart kind source_type value mimeType =>
      let mime := default (getDefaultFileType kind) mimeType in
      match source_type with
      | source_data => inr (PInlineData value mime)
      | source_url => inr (PFileData value mime)
      end
  | UnknownPart type => inl (unsupported_part type)
  end.

(** A loop whose body may throw: the first failure ends it. *)
Fixpoint map_throwing {A B : Type} (f : A → Thrown + B) (l : list A)
    : Thrown + list B :=
  match l with
  | [] => inr []
  | x :: l' =>
      match f x with
      | inl error => inl error
      | inr y =>
          match map_throwing f l' with
          | inl error => inl error
          | inr ys => inr (y :: ys)
          end
      end
  end.

(** [msg.content || ''] *)
Definition content_or_empty (content : MessageContent) : MessageContent :=
  match content with
  | ContentNull => ContentText ""
  | ContentText text => ContentText text
  | ContentParts parts => ContentParts parts
  end.

Section requests.
Variable JSON_parse : string → option json.

(** The arguments of a tool call of an assistant message: parsed, [{}] when
    the text is empty, and the text itself when it does not parse. *)
Definition parsed_args (arguments : string) : json :=
  if String.eqb arguments "" then JObj []
  else default (JStr arguments) (JSON_parse arguments).

Definition content_request_parts (content : MessageContent)
    : Thrown + list RequestPart :=
  match content with
  | ContentParts parts => map_throwing convertContentPartToGemini parts
  | ContentText text => inr (if String.eqb text "" then [] else [PText text])
  | ContentNull => inr []
  end.

Definition tool_call_request_parts (msg : ModelMessage) : list RequestPart :=
  match msg_role msg, msg_toolCalls msg with
  | assistant, Some toolCalls =>
      (λ toolCall, PFunctionCall (tc_name toolCall)
                     (parsed_args (tc_arguments toolCall))) <$> toolCalls
  | _, _ => []
  end.

Definition tool_response_request_parts (msg : ModelMessage)
    : list RequestPart :=
  match msg_role msg with
  | tool =>
      if truthy_string (msg_toolCallId msg) then
        [PFunctionResponse (default "" (msg_toolCallId msg))
           (content_or_empty (msg_content msg))]
      else []
  | _ => []
  end.

(** The callback of [messages.map] in [formatMessages]. *)
Definition format_message (msg : ModelMessage) : Thrown + RequestContent :=
  match content_request_parts (msg_content msg) with
  | inl error => inl error
  | inr content_parts =>
      let parts :=
        content_parts ++ tool_call_request_parts msg
        ++ tool_response_request_parts msg in
      inr {| rc_role := match msg_role msg with
                        | assistant => role_model
                        | _ => role_user
                        end;
             rc_parts := match parts with
                         | [] => [PText ""]
                         | _ :: _ => parts
                         end |}
  end.

Definition formatMessages (messages : list ModelMessage)
    : Thrown + list RequestContent :=
  map_throwing format_message messages.

(** The error thrown by the inner [catch] of [structuredOutput]:
    [rawText.slice(0, 200)], followed by an ellipsis when text was cut. *)
Definition parse_failure_message (rawText : string) : string :=
  "Failed to parse structured output as JSON. Content: "
  +:+ String.substring 0 200 rawText
  +:+ (if 200 <? String.length rawText then "..." else "").

Definition unknown_structured_message : string :=
  "An unknown error occurred during structured output generation.".

(** The outer [catch]: whatever was thrown is thrown again as a new
    [Error] carrying its message. *)
Definition rethrown (error : Thrown) : Thrown :=
  {| thrown_is_Error := true;
     thrown_message := if thrown_is_Error error then thrown_message error
                       else unknown_structured_message;
     thrown_code := None |}.

Record StructuredOutputResult := {
  so_data : json;
  so_rawText : string;
}.

(** [structuredOutput], from the outcome of [generateContent] on.  The
    mapping of the request precedes the [try]. *)
Definition structuredOutput (generated : Thrown + Gemini.GenerateContentResponse)
    : Thrown + StructuredOutputResult :=
  match generated with
  | inl error => inl (rethrown error)
  | inr result =>
      let rawText := extractTextFromResponse result in
      match JSON_parse rawText with
      | Some parsed => inr {| so_data := parsed; so_rawText := rawText |}
      | None =>
          inl (rethrown {| thrown_is_Error := true;
                           thrown_message := parse_failure_message rawText;
                           thrown_code := None |})
      end
  end.
End requests.

End GeminiText.

(** ** The other methods of the OpenAI adapter *)

Module OpenAIText.

Inductive Role := system | user | assistant | tool.

#[global] Instance Role_eq_dec : EqDecision Role.
Proof. solve_decision. Defined.

(** A message of [options.messages]. *)
Record ChatMessage := {
  msg_role : Role;
  msg_content : option string;
  msg_name : option string;
  msg_toolCalls : option (list ToolCall);
  msg_toolCallId : option string;
}.

(** The three shapes of message sent to the vendor. *)
Inductive VendorMessage :=
  | VendorTool (content : string) (tool_call_id : string)
  | VendorAssistant (content : option string) (tool_calls : list ToolCall)
  | VendorPlain (role : Role) (content : string) (name : option string).

(** The callback of [options.messages.map], the same in [chatCompletion],
    [chatCompletionStream] and [chatStream]. *)
Definition format_message (msg : ChatMessage) : VendorMessage :=
  if bool_decide (msg_role msg = tool) && truthy_string (msg_toolCallId msg)
  then VendorTool (string_or (msg_content msg) "")
         (default "" (msg_toolCallId msg))
  else
    match msg_role msg, msg_toolCalls msg with
    | assistant, Some toolCalls => VendorAssistant (msg_content msg) toolCalls
    | _, _ =>
        VendorPlain (msg_role msg) (string_or (msg_content msg) "")
          (msg_name msg)
    end.

Definition vendor_role (m : VendorMessage) : Role :=
  match m with
  | VendorTool _ _ => tool
  | VendorAssistant _ _ => assistant
  | VendorPlain role _ _ => role
  end.

Definition vendor_tool_call_id (m : VendorMessage) : option string :=
  match m with
  | VendorTool _ id => Some id
  | _ => None
  end.

(** One chunk of [completions.create({stream: true})]. *)
Record CompletionChunk := {
  completion_texts : list (option string);
}.

(** [chunk.choices[0]?.text] *)
Definition text0 (chunk : CompletionChunk) : option string :=
  mjoin (head (completion_texts chunk)).

(** [generateTextStream]: the texts that are not empty, unguarded. *)
Definition generateTextStream (opened : Thrown + VendorStream CompletionChunk)
    : Emitted string :=
  match opened with
  | inl error => Build_Emitted [] (Some error)
  | inr stream =>
      Build_Emitted
        (omap (λ chunk, if truthy_string (text0 chunk) then text0 chunk
                        else None) (events stream))
        (failure stream)
  end.

End OpenAIText.

(** ** The PHP servers: [maskApiKey] *)

Module PhpServer.

(** [str_repeat('*', n)] *)
Fixpoint stars (n : nat) : string :=
  match n with
  | 0 => ""
  | S n' => String "*" (stars n')
  end.

(** [maskApiKey]: [substr($key, 0, 7) . '...' . substr($key, -4)], or only
    stars for a key of at most 11 bytes. *)
Definition maskApiKey (key : string) : string :=
  if String.length key <=? 11 then stars (String.length key)
  else String.substring 0 7 key +:+ "..."
       +:+ String.substring (String.length key - 4) 4 key.

End PhpServer.

(** ** The group chat server: message queues *)

Module GroupChat.

(** A notification; [timestamp] and [id] are filled in when it is queued. *)
Record Notification := {
  n_type : string;
  n_message : option string;
  n_username : option string;
  n_timestamp : option string;
  n_id : option string;
}.

(** The module-level registries: the keys of [clients] in insertion order,
    and [userMessageQueues]; with the numbers of random ids and of dates
    drawn so far. *)
Record Globals := {
  clients : list string;
  userMessageQueues : gmap string (list Notification);
  randoms_drawn : nat;
  dates_read : nat;
}.

Section server.
(** [Math.random().toString(36).substr(2, 9)] and
    [new Date().toISOString()], by number of calls made so far. *)
Variable random_id : nat → string.
Variable date_iso : nat → string.

(** The body of the loop over [clients.keys()] for a user that is not
    excluded: push, then keep the last 50. *)
Definition enqueue (notification : Notification) (g : Globals)
    (username : string) : Globals :=
  let queue := default [] (userMessageQueues g !! username) in
  let '(messageId, randoms) :=
    if truthy_string (n_id notification)
    then (default "" (n_id notification), randoms_drawn g)
    else (random_id (randoms_drawn g), S (randoms_drawn g)) in
  let '(timestamp, dates) :=
    if truthy_string (n_timestamp notification)
    then (default "" (n_timestamp notification), dates_read g)
    else (date_iso (dates_read g), S (dates_read g)) in
  let pushed :=
    queue ++ [ {| n_type := n_type notification;
                  n_message := n_message notification;
                  n_username := n_username notification;
                  n_timestamp := Some timestamp;
                  n_id := Some messageId |} ] in
  let kept :=
    if 50 <? length pushed then drop (length pushed - 50) pushed
    else pushed in
  {| clients := clients g;
     userMessageQueues := <[username := kept]> (userMessageQueues g);
     randoms_drawn := randoms;
     dates_read := dates |}.

(** [excludeUser && username === excludeUser] *)
Definition excluded (excludeUser : option string) (username : string) : bool :=
  truthy_string excludeUser && String.eqb username (default "" excludeUser).

(** [broadcastToAll]: the new registries and the list [successful]. *)
Definition broadcastToAll (notification : Notification)
    (excludeUser : option string) (g : Globals) : Globals * list string :=
  foldl (λ acc username,
           if excluded excludeUser username then acc
           else (enqueue notification acc.1 username, acc.2 ++ [username]))
    (g, []) (clients g).

(** [pollMessages] for a server whose [currentUsername] is given. *)
Definition pollMessages (currentUsername : option string) (g : Globals)
    : Globals * list Notification :=
  if truthy_string currentUsername then
    let username := default "" currentUsername in
    ({| clients := clients g;
        userMessageQueues := <[username := []]> (userMessageQueues g);
        randoms_drawn := randoms_drawn g;
        dates_read := dates_read g |},
     default [] (userMessageQueues g !! username))
  else (g, []).

(** The registries after [dispose]. *)
Definition dispose (currentUsername : option string) (g : Globals) : Globals :=
  if truthy_string currentUsername then
    let username := default "" currentUsername in
    {| clients := List.filter (λ u, negb (String.eqb u username)) (clients g);
       userMessageQueues := delete username (userMessageQueues g);
       randoms_drawn := randoms_drawn g;
       dates_read := dates_read g |}
  else g.

(** The loop of [processClaudeQueue] over the streamed chunks. *)
Definition accumulate_response (chunks : list StreamChunk) : string :=
  foldl (λ accumulatedResponse chunk,
           match chunk with
           | ChunkContent _ _ _ delta _ =>
               if String.eqb delta "" then accumulatedResponse
               else accumulatedResponse +:+ delta
           | _ => accumulatedResponse
           end) "" chunks.
End server.

End GroupChat.

(** ** The Gemini adapter from the request on *)

Module GeminiRequest.

Section chatStream.
Variable Date_now : nat → Z.
Variable generateId : nat → string.
Variable JSON_parse : string → option json.
Variable JSON_stringify : json → string.
(** [convertToolsToProviderFormat] is imported from a module that is not
    among the sources; what it does on [options.tools] is given: [Some error]
    when it throws. *)
Variable tools_failure : option Thrown.
(** [this.client.models.generateContentStream(mappedOptions)], by the
    contents of the request. *)
Variable generateContentStream :
  list GeminiText.RequestContent →
  Thrown + VendorStream Gemini.GenerateContentResponse.

(** [mapCommonOptionsToGemini], as far as it can throw: the object literal
    evaluates [contents], by [formatMessages], before [config], whose last
    property is [tools]. *)
Definition mapCommonOptionsToGemini (messages : list GeminiText.ModelMessage)
    : Thrown + list GeminiText.RequestContent :=
  match GeminiText.formatMessages JSON_parse messages with
  | inl error => inl error
  | inr contents =>
      match tools_failure with
      | Some error => inl error
      | None => inr contents
      end
  end.

(** [chatStream], from [options] on: the request is mapped before the
    [try], so a failure of the mapping is thrown by the generator. *)
Definition chatStream (model : string)
    (messages : list GeminiText.ModelMessage) : Emitted StreamChunk :=
  match mapCommonOptionsToGemini messages with
  | inl error => Build_Emitted [] (Some error)
  | inr contents =>
      Gemini.chatStream Date_now generateId JSON_parse JSON_stringify model
        (generateContentStream contents)
  end.
End chatStream.

End GeminiRequest.

(** ** A reference JSON codec

    The adapters and the demo are parametric in [JSON.parse] and
    [JSON.stringify].  This codec covers the JSON texts used in the examples
    below: literals, integers, strings in which only the double quote and
    the backslash are escaped, arrays and objects. *)

Module SampleJSON.

Definition dquote : ascii := ascii_of_nat 34.
Definition backslash : ascii := ascii_of_nat 92.

(** A string literal's text between double quotes. *)
Definition quoted (s : string) : string :=
  String dquote (s +:+ String dquote "").

Fixpoint escape (s : string) : string :=
  match s with
  | EmptyString => EmptyString
  | String c s' =>
      if Ascii.eqb c dquote || Ascii.eqb c backslash
      then String backslash (String c (escape s'))
      else String c (escape s')
  end.

Fixpoint join (sep : string) (l : list string) : string :=
  match l with
  | [] => ""
  | [x] => x
  | x :: l' => x +:+ sep +:+ join sep l'
  end.

Fixpoint stringify (v : json) : string :=
  match v with
  | JNull => "null"
  | JBool b => if b then "true" else "false"
  | JNum n => pretty n
  | JStr s => quoted (escape s)
  | JArr items => "[" +:+ join "," (List.map stringify items) +:+ "]"
  | JObj props =>
      "{" +:+
      join "," (List.map (λ kv, quoted (escape (fst kv)) +:+ ":" +:+
                                stringify (snd kv)) props)
      +:+ "}"
  end.

(** The serialised members of an object, without the braces. *)
Definition members (props : list (string * json)) : string :=
  join "," (List.map (λ kv, quoted (escape (fst kv)) +:+ ":" +:+
                            stringify (snd kv)) props).

Definition is_space (c : ascii) : bool :=
  Ascii.eqb c " " || Ascii.eqb c (ascii_of_nat 10)
  || Ascii.eqb c (ascii_of_nat 13) || Ascii.eqb c (ascii_of_nat 9).

Fixpoint skip_space (s : list ascii) : list ascii :=
  match s with
  | c :: s' => if is_space c then skip_space s' else s
  | [] => []
  end.

Fixpoint strip_prefix (p s : list ascii) : option (list ascii) :=
  match p, s with
  | [], _ => Some s
  | a :: p', b :: s' => if Ascii.eqb a b then strip_prefix p' s' else None
  | _ :: _, [] => None
  end.

(** The characters of a string literal after its opening quote. *)
Fixpoint parse_string_body (acc : list ascii) (s : list ascii)
    : option (string * list ascii) :=
  match s with
  | [] => None
  | c :: s' =>
      if Ascii.eqb c dquote then Some (String.string_of_list_ascii (reverse acc), s')
      else if Ascii.eqb c backslash then
        match s' with
        | e :: s'' =>
            if Ascii.eqb e dquote || Ascii.eqb e backslash
            then parse_string_body (e :: acc) s'' else None
        | [] => None
        end
      else parse_string_body (c :: acc) s'
  end.

Fixpoint parse_digits (acc : N) (s : list ascii) : N * list ascii :=
  match s with
  | c :: s' =>
      match digit_value c with
      | Some d => parse_digits (10 * acc + d)%N s'
      | None => (acc, s)
      end
  | [] => (acc, [])
  end.

Definition starts_with_digit (s : list ascii) : bool :=
  match s with
  | c :: _ => bool_decide (is_Some (digit_value c))
  | [] => false
  end.

Definition keyword (text : string) (v : json) (s : list ascii)
    : option (json * list ascii) :=
  (λ rest, (v, rest)) <$> strip_prefix (String.list_ascii_of_string text) s.

Fixpoint parse_value (fuel : nat) (s : list ascii)
    : option (json * list ascii) :=
  match fuel with
  | 0 => None
  | S fuel' =>
      match skip_space s with
      | [] => None
      | c :: rest =>
          if Ascii.eqb c "n" then keyword "null" JNull (c :: rest)
          else if Ascii.eqb c "t" then keyword "true" (JBool true) (c :: rest)
          else if Ascii.eqb c "f" then keyword "false" (JBool false) (c :: rest)
          else if Ascii.eqb c dquote then
            (λ r, (JStr r.1, r.2)) <$> parse_string_body [] rest
          else if Ascii.eqb c "[" then
            match skip_space rest with
            | d :: rest' =>
                if Ascii.eqb d "]" then Some (JArr [], rest')
                else parse_elements fuel' [] rest
            | [] => None
            end
          else if Ascii.eqb c "{" then
            match skip_space rest with
            | d :: rest' =>
                if Ascii.eqb d "}" then Some (JObj [], rest')
                else parse_members fuel' [] rest
            | [] => None
            end
          else if Ascii.eqb c "-" then
            if starts_with_digit rest then
              let '(n, rest') := parse_digits 0 rest in
              Some (JNum (- Z.of_N n), rest')
            else None
          else if starts_with_digit (c :: rest) then
            let '(n, rest') := parse_digits 0 (c :: rest) in
            Some (JNum (Z.of_N n), rest')
          else None
      end
  end
with parse_elements (fuel : nat) (acc : list json) (s : list ascii)
    : option (json * list ascii) :=
  match fuel with
  | 0 => None
  | S fuel' =>
      match parse_value fuel' s with
      | Some (v, rest) =>
          match skip_space rest with
          | d :: rest' =>
              if Ascii.eqb d "," then parse_elements fuel' (acc ++ [v]) rest'
              else if Ascii.eqb d "]" then Some (JArr (acc ++ [v]), rest')
              else None
          | [] => None
          end
      | None => None
      end
  end
with parse_members (fuel : nat) (acc : list (string * json)) (s : list ascii)
    : option (json * list ascii) :=
  match fuel with
  | 0 => None
  | S fuel' =>
      match skip_space s with
      | q :: after_quote =>
          if Ascii.eqb q dquote then
            match parse_string_body [] after_quote with
            | Some (k, rest) =>
                match skip_space rest with
                | colon :: rest1 =>
                    if Ascii.eqb colon ":" then
                      match parse_value fuel' rest1 with
                      | Some (v, rest2) =>
                          match skip_space rest2 with
                          | d :: rest3 =>
                              if Ascii.eqb d ","
                              then parse_members fuel' (js_set k v acc) rest3
                              else if Ascii.eqb d "}"
                              then Some (JObj (js_set k v acc), rest3)
                              else None
                          | [] => None
                          end
                      | None => None
                      end
                    else None
                | [] => None
                end
            | None => None
            end
          else None
      | [] => None
      end
  end.

(** [JSON.parse]: one value, surrounded by white space only. *)
Definition parse (text : string) : option json :=
  match parse_value (2 * String.length text + 2)
          (String.list_ascii_of_string text) with
  | Some (v, rest) =>
      match skip_space rest with
      | [] => Some v
      | _ :: _ => None
      end
  | None => None
  end.

End SampleJSON.

(** ** Sample streams *)

Module Samples.

Definition clock (k : nat) : Z := 1700000000000 + Z.of_nat k.

(** A clock that does not advance between two readings. *)
Definition frozen_clock (k : nat) : Z := 1700000000000.

Definition ids (k : nat) : string := "id-" +:+ pretty k.

Definition oa_chunk (content : option string) (tool_calls : option (list OpenAI.ToolCallDelta))
    (finish_reason : option string) : OpenAI.VendorChunk :=
  {| OpenAI.chunk_id := "chatcmpl-1";
     OpenAI.chunk_model := "gpt-3.5-turbo";
     OpenAI.chunk_choices :=
       [ {| OpenAI.choice_delta :=
              Some {| OpenAI.delta_content := content;
                      OpenAI.delta_role := Some "assistant";
                      OpenAI.delta_tool_calls := tool_calls |};
            OpenAI.choice_finish_reason := finish_reason |} ];
     OpenAI.chunk_usage := None |}.

(** Two text deltas, then the usual terminal chunk: a finish reason and no
    content. *)
Definition oa_hello : VendorStream OpenAI.VendorChunk :=
  {| events := [oa_chunk (Some "Hel") None None;
                oa_chunk (Some "lo") None None;
                oa_chunk None None (Some "stop")];
     failure := None |}.


Definition text_part (text : string) : Gemini.Part :=
  {| Gemini.part_text := Some text;
     Gemini.part_thought := None;
     Gemini.part_functionCall := None |}.

Definition call_part (id name : option string) (args : option json)
    : Gemini.Part :=
  {| Gemini.part_text := None;
     Gemini.part_thought := None;
     Gemini.part_functionCall :=
       Some {| Gemini.fc_id := id; Gemini.fc_name := name;
               Gemini.fc_args := args |} |}.

Definition gemini_chunk (parts : list Gemini.Part)
    (finishReason : option Gemini.FinishReason)
    : Gemini.GenerateContentResponse :=
  {| Gemini.candidates :=
       Some [ {| Gemini.cand_content :=
                   Some {| Gemini.content_parts := Some parts |};
                 Gemini.cand_finishReason := finishReason |} ];
     Gemini.data := None;
     Gemini.usageMetadata := None |}.

Definition completes {E : Type} (evs : list E) : VendorStream E :=
  {| events := evs; failure := None |}.

(** A response cut off by the token limit. *)
Definition gemini_cut_off : VendorStream Gemini.GenerateContentResponse :=
  completes [gemini_chunk [text_part "Once upon"] None;
             gemini_chunk [text_part " a time"] (Some Gemini.MAX_TOKENS)].

(** A response that ends normally. *)
Definition gemini_hello : VendorStream Gemini.GenerateContentResponse :=
  completes [gemini_chunk [text_part "Hel"] None;
             gemini_chunk [text_part "lo"] (Some Gemini.STOP)].

Definition network_error : Thrown :=
  {| thrown_is_Error := true;
     thrown_message := "Connection error.";
     thrown_code := None |}.

Definition gemini_run := Gemini.chatStream clock ids SampleJSON.parse SampleJSON.stringify "gemini-2.5-flash".
Definition openai_run := OpenAI.chatStream clock ids (Some "gpt-4o").

(** A complete function call delivered in one part. *)
Definition gemini_weather : VendorStream Gemini.GenerateContentResponse :=
  completes
    [gemini_chunk
       [call_part (Some "call-1") (Some "getWeather")
          (Some (JObj [("city", JStr "Paris")]))]
       (Some Gemini.STOP)].

(** Two fragments of one call, told apart by the vendor's call id. *)
Definition fragment (args : json) : Gemini.FunctionCall :=
  {| Gemini.fc_id := Some "call-1";
     Gemini.fc_name := Some "getWeather";
     Gemini.fc_args := Some args |}.

Definition gemini_step (st : Gemini.State) (fc : Gemini.FunctionCall)
    : Gemini.State * list StreamChunk :=
  Gemini.function_call_part clock ids SampleJSON.parse SampleJSON.stringify
    "gemini-2.5-flash" (clock 0) st fc.

(** The state once the fragment [{a: 1}] has been seen. *)
Definition after_a1 : Gemini.State :=
  (gemini_step Gemini.initial_state (fragment (JObj [("a", JNum 1)]))).1.

(** The arguments held for ["call-1"] after the fragment [{a: 1}] and then
    a fragment with the arguments [later]. *)
Definition merged_args (later : json) : option string :=
  Gemini.args <$>
    Gemini.toolCallMap (gemini_step after_a1 (fragment later)).1 !! "call-1".

Definition gemini_state (stream : VendorStream Gemini.GenerateContentResponse)
    : Gemini.State :=
  (Gemini.processStreamChunks clock ids SampleJSON.parse SampleJSON.stringify
     stream "gemini-2.5-flash").1.

(** A call whose first fragment carries no name; the second one does. *)
Definition gemini_late_name : VendorStream Gemini.GenerateContentResponse :=
  completes
    [gemini_chunk
       [call_part (Some "call-1") None (Some (JObj [("a", JNum 1)]))] None;
     gemini_chunk
       [call_part (Some "call-1") (Some "getWeather")
          (Some (JObj [("b", JNum 2)]))]
       (Some Gemini.STOP)].

(** The names carried by the tool-call chunks. *)
Definition tool_call_names (out : list StreamChunk) : list string :=
  omap (λ c, match c with
             | ChunkToolCall _ _ _ tc _ => Some (tc_name tc)
             | _ => None
             end) out.

(** Two calls of the same function, neither with a vendor id. *)
Definition gemini_two_calls : VendorStream Gemini.GenerateContentResponse :=
  completes
    [gemini_chunk
       [call_part None (Some "getWeather") (Some (JObj [("city", JStr "Paris")]));
        call_part None (Some "getWeather") (Some (JObj [("city", JStr "Rome")]))]
       (Some Gemini.STOP)].

Definition oa_tool_call (index : Z) (name : string) : OpenAI.ToolCallDelta :=
  {| OpenAI.tcd_index := Some index;
     OpenAI.tcd_id := None;
     OpenAI.tcd_function :=
       Some {| OpenAI.fn_name := Some name; OpenAI.fn_arguments := Some "{}" |} |}.

(** Two tool calls in one vendor chunk, neither with a vendor id. *)
Definition oa_two_calls : VendorStream OpenAI.VendorChunk :=
  completes
    [oa_chunk None (Some [oa_tool_call 0 "getWeather"; oa_tool_call 1 "getTime"])
       None;
     oa_chunk None None (Some "tool_calls")].

Definition oa_state : OpenAI.State :=
  {| OpenAI.accumulatedContent := ""; OpenAI.clock_reads := 1 |}.

(** The [timestamp] fields of the tool-call chunks. *)
Definition tool_call_timestamps (out : list StreamChunk) : list Z :=
  omap (λ c, match c with
             | ChunkToolCall _ _ ts _ _ => Some ts
             | _ => None
             end) out.

(** The properties of the object a chunk is, in the order of the object
    literals of the adapters; absent properties are left out. *)
Definition usage_props (usage : option Usage) : list (string * json) :=
  match usage with
  | Some u =>
      [("usage", JObj [("promptTokens", JNum (promptTokens u));
                       ("completionTokens", JNum (completionTokens u));
                       ("totalTokens", JNum (totalTokens u))])]
  | None => []
  end.

Definition error_props (message : string) (code : option string)
    : list (string * json) :=
  [("error", JObj (("message", JStr message)
                   :: match code with
                      | Some c => [("code", JStr c)]
                      | None => []
                      end))].

Definition chunk_props (chunk : StreamChunk) : list (string * json) :=
  match chunk with
  | ChunkContent id model ts delta content =>
      [("type", JStr "content"); ("id", JStr id); ("model", JStr model);
       ("timestamp", JNum ts); ("delta", JStr delta);
       ("content", JStr content); ("role", JStr "assistant")]
  | ChunkThinking id model ts content =>
      [("type", JStr "thinking"); ("content", JStr content); ("id", JStr id);
       ("model", JStr model); ("timestamp", JNum ts)]
  | ChunkToolCall id model ts tc index =>
      [("type", JStr "tool_call"); ("id", JStr id); ("model", JStr model);
       ("timestamp", JNum ts);
       ("toolCall",
        JObj [("id", JStr (tc_id tc)); ("type", JStr "function");
              ("function", JObj [("name", JStr (tc_name tc));
                                 ("arguments", JStr (tc_arguments tc))])]);
       ("index", JNum index)]
  | ChunkDone id model ts finishReason usage =>
      [("type", JStr "done"); ("id", JStr id); ("model", JStr model);
       ("timestamp", JNum ts); ("finishReason", JStr finishReason)]
      ++ usage_props usage
  | ChunkError id model ts message code =>
      [("type", JStr "error"); ("id", JStr id); ("model", JStr model);
       ("timestamp", JNum ts)] ++ error_props message code
  end.

Definition chunk_members (chunk : StreamChunk) : string :=
  SampleJSON.members (chunk_props chunk).

Definition error_members (message : string) (code : option string) : string :=
  SampleJSON.members (("type", JStr "error") :: error_props message code).

Definition bridge : VendorStream StreamChunk → list string :=
  Bridge.toReadableStream chunk_members error_members.

(** A source that yields one content chunk and then throws. *)
Definition severed : VendorStream StreamChunk :=
  {| events := [ChunkContent "id-0" "gpt-4o" (clock 0) "Hel" "Hel"];
     failure := Some network_error |}.

(** A model that answers every request with a call of [calculate]. *)
Definition calculate_round (arguments : string) : Emitted StreamChunk :=
  {| emitted :=
       [ChunkToolCall "chatcmpl-1" "gpt-3.5-turbo" (clock 0)
          {| tc_id := "call_1"; tc_name := "calculate";
             tc_arguments := arguments |} 0;
        ChunkDone "chatcmpl-1" "gpt-3.5-turbo" (clock 0) "tool_calls" None];
     escaped := None |}.

Definition always_calculates (msgs : list Demo.Message) : Emitted StreamChunk :=
  calculate_round
    (SampleJSON.stringify (JObj [("expression", JStr "847 * 392")])).

(** The same model, with arguments cut short. *)
Definition always_truncated (msgs : list Demo.Message) : Emitted StreamChunk :=
  calculate_round "{".

Definition calculate (expression : option json) : string :=
  SampleJSON.stringify
    (JObj [("result", JNum 332024); ("expression", default JNull expression)]).

(** A vendor stream that ends without ever reporting a finish reason. *)
Definition oa_unfinished : VendorStream OpenAI.VendorChunk :=
  completes [oa_chunk (Some "Hel") None None].

(** A response whose first part is a thought. *)
Definition gemini_thoughtful : Gemini.GenerateContentResponse :=
  gemini_chunk
    [ {| Gemini.part_text := Some "Let me think. ";
         Gemini.part_thought := Some true;
         Gemini.part_functionCall := None |};
      text_part "42" ]
    (Some Gemini.STOP).

Definition user_says (text : string) : GeminiText.ModelMessage :=
  {| GeminiText.msg_role := GeminiText.user;
     GeminiText.msg_content := GeminiText.ContentText text;
     GeminiText.msg_toolCalls := None;
     GeminiText.msg_toolCallId := None |}.

Definition assistant_calls (calls : list ToolCall) : GeminiText.ModelMessage :=
  {| GeminiText.msg_role := GeminiText.assistant;
     GeminiText.msg_content := GeminiText.ContentNull;
     GeminiText.msg_toolCalls := Some calls;
     GeminiText.msg_toolCallId := None |}.

Definition user_shows (parts : list GeminiText.ContentPart)
    : GeminiText.ModelMessage :=
  {| GeminiText.msg_role := GeminiText.user;
     GeminiText.msg_content := GeminiText.ContentParts parts;
     GeminiText.msg_toolCalls := None;
     GeminiText.msg_toolCallId := None |}.

Definition weather_call : ToolCall :=
  {| tc_id := "call-1"; tc_name := "getWeather";
     tc_arguments := SampleJSON.stringify (JObj [("city", JStr "Paris")]) |}.

Definition conversation : list GeminiText.ModelMessage :=
  [user_says "Weather in Paris?"; assistant_calls [weather_call];
   user_shows [GeminiText.TextPart "And this picture?";
               GeminiText.MediaPart GeminiText.image GeminiText.source_url
                 "https://example.org/sky.png" None]].

Definition hologram_conversation : list GeminiText.ModelMessage :=
  [user_says "Hello";
   user_shows [GeminiText.TextPart "Look"; GeminiText.UnknownPart "hologram"]].

(** A response that is not JSON. *)
Definition gemini_prose : Gemini.GenerateContentResponse :=
  gemini_chunk [text_part "Sorry, I cannot answer in JSON."] (Some Gemini.STOP).

(** A model that answers in prose and asks for no tool. *)
Definition plain_answer (msgs : list Demo.Message) : Emitted StreamChunk :=
  {| emitted :=
       [ChunkContent "chatcmpl-2" "gpt-3.5-turbo" (clock 0) "332" "332";
        ChunkContent "chatcmpl-2" "gpt-3.5-turbo" (clock 0) "024" "332024";
        ChunkDone "chatcmpl-2" "gpt-3.5-turbo" (clock 0) "stop" None];
     escaped := None |}.

(** The group chat: three connected users, one of them with a message
    waiting. *)
Definition random_ids (k : nat) : string := "r" +:+ pretty k.
Definition dates (k : nat) : string := "2025-01-01T00:00:0" +:+ pretty k +:+ "Z".

Definition welcome : GroupChat.Notification :=
  {| GroupChat.n_type := "welcome";
     GroupChat.n_message := Some "Welcome to the chat, bob!";
     GroupChat.n_username := None;
     GroupChat.n_timestamp := Some "2024-12-31T23:59:59Z";
     GroupChat.n_id := Some "w1" |}.

Definition claude_responding : GroupChat.Notification :=
  {| GroupChat.n_type := "claude_responding";
     GroupChat.n_message := Some "Claude is responding to ada...";
     GroupChat.n_username := Some "System";
     GroupChat.n_timestamp := None;
     GroupChat.n_id := None |}.

Definition lobby : GroupChat.Globals :=
  {| GroupChat.clients := ["ada"; "bob"; "cy"];
     GroupChat.userMessageQueues := {[ "bob" := [welcome] ]};
     GroupChat.randoms_drawn := 0;
     GroupChat.dates_read := 0 |}.

(** A chunk that ends the response with an unexpected tool call. *)
Definition gemini_unexpected : Gemini.GenerateContentResponse :=
  gemini_chunk
    [text_part "Calling. ";
     call_part (Some "call-7") (Some "getWeather")
       (Some (JObj [("city", JStr "Paris")]))]
    (Some Gemini.UNEXPECTED_TOOL_CALL).
End Samples.

(** ** Specification predicates *)

(** The concatenations of the first [k + 1] deltas, for each position [k]. *)
Definition prefix_concats (deltas : list string) : list string :=
  (λ k, concat_strings (take (S k) deltas)) <$> seq 0 (length deltas).

(** Every content chunk carries the concatenation of its own delta and all
    earlier ones; in particular the last one carries all of them. *)
Definition accumulates (out : list StreamChunk) : Prop :=
  content_fields out = prefix_concats (delta_fields out)
  ∧ default "" (last (content_fields out)) = concat_strings (delta_fields out).

(** A step from state [s] keeps the accumulated text in step with the content
    chunks it yields. *)
Definition tracks {S : Type} (acc : S → string) (s : S)
    (res : S * list StreamChunk) : Prop :=
  content_fields res.2 = running_concat (acc s) (delta_fields res.2)
  ∧ acc res.1 = acc s +:+ concat_strings (delta_fields res.2).

(** No chunk of the sequence is a terminal event. *)
Definition quiet (out : list StreamChunk) : Prop :=
  Forall (λ c, is_terminal c = false) out.

(** A vendor chunk that carries a finish reason. *)
Definition openai_finishes (chunk : OpenAI.VendorChunk) : bool :=
  truthy_string (OpenAI.finish_reason0 chunk).

Definition gemini_finishes (chunk : Gemini.GenerateContentResponse) : bool :=
  bool_decide (is_Some (Gemini.finishReason0 chunk)).

Definition gemini_max_tokens (chunk : Gemini.GenerateContentResponse) : bool :=
  bool_decide (Gemini.finishReason0 chunk = Some Gemini.MAX_TOKENS).

(** The vendor stream signals its end once: either it completes and its last
    event, and no other, carries a finish reason, or it fails and no event
    carried one. *)
Definition finishes_once {E : Type} (finishes : E → bool)
    (stream : VendorStream E) : bool :=
  match failure stream with
  | None =>
      match reverse (events stream) with
      | final :: body =>
          finishes final && forallb (λ e, negb (finishes e)) body
      | [] => false
      end
  | Some _ => forallb (λ e, negb (finishes e)) (events stream)
  end.

(** Every [done] chunk of the sequence reports ["tool_calls"] when a
    tool-call chunk precedes it (or [seen] holds at the start), and ["stop"]
    otherwise. *)
Fixpoint done_reasons_follow (seen : bool) (out : list StreamChunk) : bool :=
  match out with
  | [] => true
  | ChunkDone _ _ _ finishReason _ :: out' =>
      String.eqb finishReason (if seen then "tool_calls" else "stop")
      && done_reasons_follow seen out'
  | c :: out' => done_reasons_follow (seen || is_tool_call c) out'
  end.

(** [toolCallMap.size > 0] *)
Definition accumulated_tool_calls (st : Gemini.State) : bool :=
  bool_decide (0 < size (Gemini.toolCallMap st)).

(** A step from [st] reports finish reasons according to the tool calls
    accumulated, and accumulates one exactly when it yields a tool-call
    chunk. *)
Definition follows (st : Gemini.State)
    (res : Gemini.State * list StreamChunk) : Prop :=
  done_reasons_follow (accumulated_tool_calls st) res.2 = true
  ∧ accumulated_tool_calls res.1
    = accumulated_tool_calls st || existsb is_tool_call res.2.

(** The arguments of a fragment are the object with properties [o]: given as
    an object, or as a string that parses to it. *)
Definition fragment_object (JSON_parse : string → option json)
    (functionCall : Gemini.FunctionCall) (o : list (string * json)) : Prop :=
  Gemini.function_args functionCall = JObj o
  ∨ ∃ s, Gemini.function_args functionCall = JStr s
         ∧ JSON_parse s = Some (JObj o).

(** Key-wise merge of two objects in which the later one wins. *)
Definition last_write_wins (earlier later merged : list (string * json))
    : Prop :=
  ∀ k, js_get k merged
       = match js_get k later with
         | Some v => Some v
         | None => js_get k earlier
         end.

(** Every record of [st] is still there in [st'], under the same key and
    with the same name and index. *)
Definition keeps_records (st st' : Gemini.State) : Prop :=
  ∀ k d, Gemini.toolCallMap st !! k = Some d →
    ∃ d', Gemini.toolCallMap st' !! k = Some d'
          ∧ Gemini.name d' = Gemini.name d
          ∧ Gemini.index d' = Gemini.index d.

(** A chunk whose finish reason is not [UNEXPECTED_TOOL_CALL]. *)
Definition streaming_chunk (chunk : Gemini.GenerateContentResponse) : Prop :=
  Gemini.finishReason0 chunk ≠ Some Gemini.UNEXPECTED_TOOL_CALL.

(** The character [x] occurs in [s]. *)
Fixpoint occurs (x : ascii) (s : string) : Prop :=
  match s with
  | EmptyString => False
  | String c s' => c = x ∨ occurs x s'
  end.

(** No function call of the chunk carries a vendor id. *)
Definition lacks_vendor_id (part : Gemini.Part) : bool :=
  match Gemini.part_functionCall part with
  | Some fc => negb (truthy_string (Gemini.fc_id fc))
  | None => true
  end.

Definition no_vendor_ids (chunk : Gemini.GenerateContentResponse) : bool :=
  forallb lacks_vendor_id (default [] (Gemini.parts0 chunk)).

(** The keys are synthesized ones, built from some function name, some
    reading of the clock, and the counters [lo], [lo + 1], ... in order. *)
Definition synthesized_run (Date_now : nat → Z) (lo : nat)
    (keys : list string) : Prop :=
  Forall2 (λ key counter,
             ∃ name reading,
               key = Gemini.synthesized_key name (Date_now reading) counter)
    keys (seq lo (length keys)).

(** Every key of [toolCallMap] is a synthesized one whose counter is below
    [nextToolIndex]. *)
Definition synthesized_below (st : Gemini.State) : Prop :=
  ∀ k, is_Some (Gemini.toolCallMap st !! k) →
    ∃ name now counter,
      k = Gemini.synthesized_key name now counter
      ∧ counter < Gemini.nextToolIndex st.

(** A step from [st] numbers the tool-call chunks it yields with the
    counters from [nextToolIndex] on. *)
Definition numbers (Date_now : nat → Z) (st : Gemini.State)
    (res : Gemini.State * list StreamChunk) : Prop :=
  synthesized_below st →
  synthesized_run Date_now (Gemini.nextToolIndex st) (tool_call_ids res.2)
  ∧ Gemini.nextToolIndex res.1
    = Gemini.nextToolIndex st + length (tool_call_ids res.2)
  ∧ synthesized_below res.1.

(** The round streamed for [msgs] completes and asks for a tool call. *)
Definition requests_tool_call (streamChat : list Demo.Message → Emitted StreamChunk)
    (msgs : list Demo.Message) : Prop :=
  escaped (streamChat msgs) = None
  ∧ Demo.toolCalls (Demo.stream_round streamChat msgs) ≠ [].

(** The arguments of the call parse, and not to [null]. *)
Definition executable (JSON_parse : string → option json) (call : ToolCall)
    : Prop :=
  is_Some (Demo.expression_of JSON_parse (tc_arguments call)).

(** The texts a stream carries: the deltas of its content chunks and the
    contents of its thinking chunks, in order. *)
Definition text_fields (out : list StreamChunk) : list string :=
  omap (λ c, match c with
             | ChunkContent _ _ _ delta _ => Some delta
             | ChunkThinking _ _ _ content => Some content
             | _ => None
             end) out.

Definition chunk_id (c : StreamChunk) : string :=
  match c with
  | ChunkContent id _ _ _ _ | ChunkThinking id _ _ _
  | ChunkToolCall id _ _ _ _ | ChunkDone id _ _ _ _
  | ChunkError id _ _ _ _ => id
  end.

Definition chunk_timestamp (c : StreamChunk) : Z :=
  match c with
  | ChunkContent _ _ ts _ _ | ChunkThinking _ _ ts _
  | ChunkToolCall _ _ ts _ _ | ChunkDone _ _ ts _ _
  | ChunkError _ _ ts _ _ => ts
  end.

(** The indices of the records of [toolCallMap]. *)
Definition record_indices (st : Gemini.State) : list nat :=
  (λ entry, Gemini.index entry.2) <$> map_to_list (Gemini.toolCallMap st).

(** A step from [st] draws one id per chunk it yields, in order. *)
Definition draws_ids (generateId : nat → string) (st : Gemini.State)
    (res : Gemini.State * list StreamChunk) : Prop :=
  chunk_id <$> res.2 = generateId <$> seq (Gemini.ids_made st) (length res.2)
  ∧ Gemini.ids_made res.1 = Gemini.ids_made st + length res.2.

(** The records carry the indices 0, 1, ..., [nextToolIndex - 1], each
    once. *)
Definition dense_indices (st : Gemini.State) : Prop :=
  record_indices st ≡ₚ seq 0 (Gemini.nextToolIndex st).

(** The text of a part, if it has any. *)
Definition part_texts (part : Gemini.Part) : list string :=
  if truthy_string (Gemini.part_text part)
  then [default "" (Gemini.part_text part)] else [].

(** The names of the function calls among the parts of a request. *)
Definition function_call_names (parts : list GeminiText.RequestPart)
    : list string :=
  omap (λ p, match p with
             | GeminiText.PFunctionCall name _ => Some name
             | _ => None
             end) parts.

(** The part is of a type the conversion knows. *)
Definition supported_part (part : GeminiText.ContentPart) : bool :=
  match part with
  | GeminiText.UnknownPart _ => false
  | _ => true
  end.

Definition supported_message (msg : GeminiText.ModelMessage) : bool :=
  match GeminiText.msg_content msg with
  | GeminiText.ContentParts parts => forallb supported_part parts
  | _ => true
  end.

(** The fragments that the tool-call chunks of a stream carry for an index,
    in order. *)
Definition fragments_at (index : Z) (out : list StreamChunk) : list ToolCall :=
  omap (λ c, match c with
             | ChunkToolCall _ _ _ toolCall i =>
                 if (i =? index)%Z then Some toolCall else None
             | _ => None
             end) out.

(** The last name among the fragments that is not empty, the empty string
    when there is none. *)
Definition last_name (fragments : list ToolCall) : string :=
  default ""
    (last (List.filter (λ name, negb (String.eqb name ""))
             (tc_name <$> fragments))).

(** The call that a run of fragments stands for: the id of the first, the
    last name given, the arguments joined. *)
Definition assembled (fragments : list ToolCall) : option Demo.Call :=
  match fragments with
  | [] => None
  | first :: _ =>
      Some {| Demo.call_id := tc_id first;
              Demo.call_name := last_name fragments;
              Demo.call_args := concat_strings (tc_arguments <$> fragments) |}
  end.

(** A [done] chunk whose finish reason is [tool_calls]. *)
Definition asks_for_tools (c : StreamChunk) : bool :=
  match c with
  | ChunkDone _ _ _ finishReason _ => String.eqb finishReason "tool_calls"
  | _ => false
  end.

(** The message is the result of the call. *)
Definition answers (call : ToolCall) (m : Demo.Message) : Prop :=
  match m with
  | Demo.ToolMessage _ toolCallId name =>
      toolCallId = tc_id call ∧ name = tc_name call
  | _ => False
  end.

(** A run of tool-execution rounds: an assistant message that carries at
    least one tool call, followed by one result per call, in order. *)
Inductive answered_rounds : list Demo.Message → Prop :=
  | answered_none : answered_rounds []
  | answered_round content calls results rest :
      calls ≠ [] →
      Forall2 answers calls results →
      answered_rounds rest →
      answered_rounds
        (Demo.AssistantMessage content calls :: results ++ rest).

(** A generator consumed as the source of the bridge. *)
Definition as_source (generator : Emitted StreamChunk)
    : VendorStream StreamChunk :=
  {| events := emitted generator; failure := escaped generator |}.

(** The users a broadcast reaches, in the order of [clients]. *)
Definition recipients (excludeUser : option string) (g : GroupChat.Globals)
    : list string :=
  List.filter (λ u, negb (GroupChat.excluded excludeUser u))
    (GroupChat.clients g).

(** The notification as it is queued when [randoms] ids and [dates] dates
    have been drawn before: its own timestamp and id when it has them, a
    fresh one otherwise. *)
Definition delivered (random_id date_iso : nat → string)
    (notification : GroupChat.Notification) (randoms dates : nat)
    : GroupChat.Notification :=
  {| GroupChat.n_type := GroupChat.n_type notification;
     GroupChat.n_message := GroupChat.n_message notification;
     GroupChat.n_username := GroupChat.n_username notification;
     GroupChat.n_timestamp :=
       Some (if truthy_string (GroupChat.n_timestamp notification)
             then default "" (GroupChat.n_timestamp notification)
             else date_iso dates);
     GroupChat.n_id :=
       Some (if truthy_string (GroupChat.n_id notification)
             then default "" (GroupChat.n_id notification)
             else random_id randoms) |}.

(** The last fifty entries of a queue. *)
Definition last_50 (queue : list GroupChat.Notification)
    : list GroupChat.Notification :=
  drop (length queue - 50) queue.

(** Every function call among the parts carries an id of the vendor. *)
Definition carries_vendor_id (part : Gemini.Part) : bool :=
  match Gemini.part_functionCall part with
  | Some functionCall => truthy_string (Gemini.fc_id functionCall)
  | None => true
  end.

(** The ids of the function calls among the parts, in order. *)
Definition vendor_call_ids (parts : list Gemini.Part) : list string :=
  parts ≫= λ part,
    match Gemini.part_functionCall part with
    | Some functionCall => [default "" (Gemini.fc_id functionCall)]
    | None => []
    end.

(** The indices carried by the tool-call chunks, in order. *)
Definition tool_call_indices (out : list StreamChunk) : list Z :=
  omap (λ c, match c with
             | ChunkToolCall _ _ _ _ index => Some index
             | _ => None
             end) out.

(** The function calls of a chunk, in the order in which the adapter comes
    to them: those of its parts, and the same ones once more when the chunk
    ends with [UNEXPECTED_TOOL_CALL]. *)
Definition processed_calls (chunk : Gemini.GenerateContentResponse)
    : list Gemini.FunctionCall :=
  let calls :=
    omap Gemini.part_functionCall (default [] (Gemini.parts0 chunk)) in
  calls ++
  (if bool_decide (Gemini.finishReason0 chunk
                   = Some Gemini.UNEXPECTED_TOOL_CALL)
   then calls else []).

(** The keys of a run of calls without vendor ids, when the clock has been
    read [reads] times and [counter] records have been created: the name of
    the call, the next reading of the clock and the next counter, each
    call taking one reading and one counter. *)
Fixpoint synthesized_keys (Date_now : nat → Z) (reads counter : nat)
    (calls : list Gemini.FunctionCall) : list string :=
  match calls with
  | [] => []
  | functionCall :: calls' =>
      Gemini.synthesized_key (Gemini.fc_name functionCall) (Date_now reads)
        counter
      :: synthesized_keys Date_now (S reads) (S counter) calls'
  end.

(** A step from [st] that comes to the calls [calls] keys and numbers the
    tool-call chunks it yields after them. *)
Definition keyed (Date_now : nat → Z) (calls : list Gemini.FunctionCall)
    (st : Gemini.State) (res : Gemini.State * list StreamChunk) : Prop :=
  synthesized_below st →
  tool_call_ids res.2
  = synthesized_keys Date_now (Gemini.clock_reads st)
      (Gemini.nextToolIndex st) calls
  ∧ tool_call_indices res.2
    = Z.of_nat <$> seq (Gemini.nextToolIndex st) (length calls)
  ∧ Gemini.clock_reads res.1 = Gemini.clock_reads st + length calls
  ∧ Gemini.nextToolIndex res.1 = Gemini.nextToolIndex st + length calls
  ∧ synthesized_below res.1.

(** The wire format in the words of the specification: a record is the
    text [data: ], a payload and two line feeds; the sentinel is the record
    whose payload is [[DONE]]; the payload of an event is a JSON object. *)
Definition line_feed : string := String "010"%char EmptyString.

Definition wire_record (payload : string) : string :=
  "data: " +:+ payload +:+ line_feed +:+ line_feed.

Definition wire_sentinel : string := wire_record "[DONE]".

Definition json_object (members : string) : string :=
  "{" +:+ members +:+ "}".

(** * Properties *)

(** ** Accumulated text *)

Lemma append_empty_r (s : string) : s +:+ "" = s.
Proof. induction s as [|c s IH]; simpl; [done | by rewrite IH]. Qed.

Lemma append_assoc (a b c : string) : (a +:+ b) +:+ c = a +:+ (b +:+ c).
Proof. induction a as [|x a IH]; simpl; [done | by rewrite IH]. Qed.

Lemma concat_strings_app (l1 l2 : list string) :
  concat_strings (l1 ++ l2) = concat_strings l1 +:+ concat_strings l2.
Proof.
  induction l1 as [|d l1 IH]; simpl; [done|].
  by rewrite IH, append_assoc.
Qed.

Lemma running_concat_app (acc : string) (l1 l2 : list string) :
  running_concat acc (l1 ++ l2)
  = running_concat acc l1 ++ running_concat (acc +:+ concat_strings l1) l2.
Proof.
  revert acc. induction l1 as [|d l1 IH]; intros acc; simpl.
  - by rewrite append_empty_r.
  - by rewrite IH, append_assoc.
Qed.

Lemma running_concat_last (acc : string) (l : list string) :
  default acc (last (running_concat acc l)) = acc +:+ concat_strings l.
Proof.
  revert acc. induction l as [|d l IH]; intros acc; cbn.
  - by rewrite append_empty_r.
  - rewrite <- append_assoc, <- IH.
    destruct l as [|d' l]; [done|]. cbn [running_concat].
    rewrite last_cons_cons.
    match goal with
    | |- default _ (last ?l) = _ => by destruct (last_is_Some l) as [_ [y ->]]
    end.
Qed.

Lemma delta_fields_app (o1 o2 : list StreamChunk) :
  delta_fields (o1 ++ o2) = delta_fields o1 ++ delta_fields o2.
Proof. apply omap_app. Qed.

Lemma content_fields_app (o1 o2 : list StreamChunk) :
  content_fields (o1 ++ o2) = content_fields o1 ++ content_fields o2.
Proof. apply omap_app. Qed.

Lemma tracks_silent {S : Type} (acc : S → string) (s s' : S)
    (out : list StreamChunk) :
  acc s' = acc s → content_fields out = [] → delta_fields out = [] →
  tracks acc s (s', out).
Proof.
  intros Hacc Hc Hd. unfold tracks; simpl.
  rewrite Hc, Hd, Hacc. simpl. by rewrite append_empty_r.
Qed.

Lemma tracks_app {S : Type} (acc : S → string) (s s1 s2 : S)
    (o1 o2 : list StreamChunk) :
  tracks acc s (s1, o1) → tracks acc s1 (s2, o2) →
  tracks acc s (s2, o1 ++ o2).
Proof.
  unfold tracks; simpl. intros [Hc1 Ha1] [Hc2 Ha2].
  rewrite content_fields_app, delta_fields_app, running_concat_app.
  rewrite concat_strings_app, Hc1, Hc2, Ha2, Ha1.
  by rewrite append_assoc.
Qed.

Lemma tracks_run_loop {S X : Type} (acc : S → string)
    (body : S → X → S * list StreamChunk) :
  (∀ s x, tracks acc s (body s x)) →
  ∀ xs s, tracks acc s (run_loop body s xs).
Proof.
  intros Hbody xs. induction xs as [|x xs IH]; intros s; simpl.
  - by apply tracks_silent.
  - specialize (Hbody s x). destruct (body s x) as [s1 o1].
    specialize (IH s1). destruct (run_loop body s1 xs) as [s2 o2].
    by eapply tracks_app.
Qed.

Lemma running_concat_prefixes (acc : string) (l : list string) :
  running_concat acc l
  = (λ k, acc +:+ concat_strings (take (S k) l)) <$> seq 0 (length l).
Proof.
  revert acc. induction l as [|d l IH]; intros acc; [done|].
  cbn [running_concat length seq fmap list_fmap take concat_strings].
  rewrite append_empty_r. f_equal.
  rewrite IH, <- fmap_S_seq, <- list_fmap_compose.
  apply list_fmap_ext. intros _ k _. simpl. by rewrite append_assoc.
Qed.

Lemma tracks_accumulates {S : Type} (acc : S → string) (s s' : S)
    (out : list StreamChunk) :
  acc s = "" → tracks acc s (s', out) → accumulates out.
Proof.
  intros Hacc [Hc _]. simpl in Hc. rewrite Hacc in Hc. split.
  - by rewrite Hc, running_concat_prefixes.
  - rewrite Hc. apply (running_concat_last "").
Qed.

Lemma accumulates_snoc_error (out : list StreamChunk) (e : StreamChunk) :
  is_content e = false → accumulates out → accumulates (out ++ [e]).
Proof.
  intros He [H1 H2]. unfold accumulates.
  rewrite content_fields_app, delta_fields_app.
  assert (content_fields [e] = []) as -> by (by destruct e).
  assert (delta_fields [e] = []) as -> by (by destruct e).
  by rewrite !app_nil_r.
Qed.

(** *** OpenAI *)

Lemma openai_content_part_tracks (ts : Z) (st : OpenAI.State)
    (chunk : OpenAI.VendorChunk) :
  tracks OpenAI.accumulatedContent st (OpenAI.content_part ts st chunk).
Proof.
  unfold OpenAI.content_part. case_match.
  - split; simpl; [done | by rewrite append_empty_r].
  - by apply tracks_silent.
Qed.

Lemma openai_tool_call_fragment_tracks (Date_now : nat → Z) (ts : Z)
    (chunk : OpenAI.VendorChunk) (st : OpenAI.State)
    (toolCall : OpenAI.ToolCallDelta) :
  tracks OpenAI.accumulatedContent st
    (OpenAI.tool_call_fragment Date_now ts chunk st toolCall).
Proof.
  unfold OpenAI.tool_call_fragment.
  destruct (truthy_string _); by apply tracks_silent.
Qed.

Lemma openai_process_chunk_tracks (Date_now : nat → Z) (ts : Z)
    (st : OpenAI.State) (chunk : OpenAI.VendorChunk) :
  tracks OpenAI.accumulatedContent st (OpenAI.process_chunk Date_now ts st chunk).
Proof.
  unfold OpenAI.process_chunk.
  pose proof (openai_content_part_tracks ts st chunk) as H1.
  destruct (OpenAI.content_part ts st chunk) as [st1 out1].
  assert (tracks OpenAI.accumulatedContent st1
            (OpenAI.tool_calls_part Date_now ts st1 chunk)) as H2.
  { unfold OpenAI.tool_calls_part. case_match.
    - apply tracks_run_loop. intros. apply openai_tool_call_fragment_tracks.
    - by apply tracks_silent. }
  destruct (OpenAI.tool_calls_part Date_now ts st1 chunk) as [st2 out2].
  eapply tracks_app; [done|]. eapply tracks_app; [done|].
  apply tracks_silent; [done|..];
    unfold OpenAI.completion_part; by case_match.
Qed.

Lemma openai_chatStream_accumulates (Date_now : nat → Z)
    (generateId : nat → string) (options_model : option string)
    (opened : Thrown + VendorStream OpenAI.VendorChunk) :
  accumulates
    (emitted (OpenAI.chatStream Date_now generateId options_model opened)).
Proof.
  unfold OpenAI.chatStream. destruct opened as [e|stream]; [done|].
  set (st0 := OpenAI.Build_State _ _).
  pose proof (tracks_run_loop OpenAI.accumulatedContent _
    (openai_process_chunk_tracks Date_now (Date_now 0)) (events stream) st0)
    as Htr.
  destruct (run_loop _ st0 (events stream)) as [st out].
  apply tracks_accumulates in Htr; [|done].
  destruct (failure stream); simpl; [|done].
  by apply accumulates_snoc_error.
Qed.

(** *** Gemini *)

Section gemini_accumulation.
Variable Date_now : nat → Z.
Variable generateId : nat → string.
Variable JSON_parse : string → option json.
Variable JSON_stringify : json → string.

Lemma gemini_tool_call_id_content (st : Gemini.State)
    (fc : Gemini.FunctionCall) :
  Gemini.accumulatedContent (Gemini.tool_call_id Date_now st fc).1
  = Gemini.accumulatedContent st.
Proof. unfold Gemini.tool_call_id. by destruct (truthy_string _). Qed.

Lemma gemini_function_call_part_tracks (model : string) (ts : Z)
    (st : Gemini.State) (fc : Gemini.FunctionCall) :
  tracks Gemini.accumulatedContent st
    (Gemini.function_call_part Date_now generateId JSON_parse JSON_stringify
       model ts st fc).
Proof.
  unfold Gemini.function_call_part.
  pose proof (gemini_tool_call_id_content st fc) as Hid.
  destruct (Gemini.tool_call_id Date_now st fc) as [st1 key].
  destruct (Gemini.toolCallMap st1 !! key); by apply tracks_silent.
Qed.

Lemma gemini_text_part_tracks (model : string) (ts : Z)
    (st : Gemini.State) (part : Gemini.Part) :
  tracks Gemini.accumulatedContent st
    (Gemini.text_part generateId model ts st part).
Proof.
  unfold Gemini.text_part.
  destruct (truthy_string _); [|by apply tracks_silent].
  destruct (default false _); [by apply tracks_silent|].
  split; simpl; [done | by rewrite append_empty_r].
Qed.

Lemma gemini_process_part_tracks (model : string) (ts : Z)
    (st : Gemini.State) (part : Gemini.Part) :
  tracks Gemini.accumulatedContent st
    (Gemini.process_part Date_now generateId JSON_parse JSON_stringify
       model ts st part).
Proof.
  unfold Gemini.process_part.
  pose proof (gemini_text_part_tracks model ts st part) as H1.
  destruct (Gemini.text_part generateId model ts st part) as [st1 out1].
  destruct (Gemini.part_functionCall part) as [fc|].
  - pose proof (gemini_function_call_part_tracks model ts st1 fc) as H2.
    destruct (Gemini.function_call_part _ _ _ _ _ _ st1 fc) as [st2 out2].
    by eapply tracks_app.
  - eapply tracks_app; [done | by apply tracks_silent].
Qed.

Lemma gemini_data_part_tracks (model : string) (ts : Z)
    (st : Gemini.State) (chunk : Gemini.GenerateContentResponse) :
  tracks Gemini.accumulatedContent st
    (Gemini.data_part generateId model ts st chunk).
Proof.
  unfold Gemini.data_part.
  destruct (truthy_string _); [|by apply tracks_silent].
  split; simpl; [done | by rewrite append_empty_r].
Qed.

Lemma gemini_unexpected_tool_call_part_tracks (model : string) (ts : Z)
    (st : Gemini.State) (part : Gemini.Part) :
  tracks Gemini.accumulatedContent st
    (Gemini.unexpected_tool_call_part Date_now generateId JSON_stringify
       model ts st part).
Proof.
  unfold Gemini.unexpected_tool_call_part.
  destruct (Gemini.part_functionCall part) as [fc|];
    [|by apply tracks_silent].
  pose proof (gemini_tool_call_id_content st fc) as Hid.
  destruct (Gemini.tool_call_id Date_now st fc) as [st1 key].
  by apply tracks_silent.
Qed.

Lemma gemini_finish_part_tracks (model : string) (ts : Z)
    (st : Gemini.State) (chunk : Gemini.GenerateContentResponse) :
  tracks Gemini.accumulatedContent st
    (Gemini.finish_part Date_now generateId JSON_stringify model ts st chunk).
Proof.
  unfold Gemini.finish_part.
  destruct (Gemini.finishReason0 chunk) as [reason|];
    [|by apply tracks_silent].
  set (r1 := if decide (reason = Gemini.UNEXPECTED_TOOL_CALL) then _ else _).
  assert (tracks Gemini.accumulatedContent st r1) as H1.
  { subst r1. case_decide; [|by apply tracks_silent].
    destruct (Gemini.parts0 chunk); [|by apply tracks_silent].
    apply tracks_run_loop. intros.
    apply gemini_unexpected_tool_call_part_tracks. }
  destruct r1 as [st1 out1].
  set (r2 := if decide (reason = Gemini.MAX_TOKENS) then _ else _).
  assert (tracks Gemini.accumulatedContent st1 r2) as H2.
  { subst r2. case_decide; by apply tracks_silent. }
  destruct r2 as [st2 out2].
  eapply tracks_app; [done|]. eapply tracks_app; [done|].
  by apply tracks_silent.
Qed.

Lemma gemini_process_chunk_tracks (model : string) (ts : Z)
    (st : Gemini.State) (chunk : Gemini.GenerateContentResponse) :
  tracks Gemini.accumulatedContent st
    (Gemini.process_chunk Date_now generateId JSON_parse JSON_stringify
       model ts st chunk).
Proof.
  unfold Gemini.process_chunk.
  set (r1 := match Gemini.parts0 chunk with Some _ => _ | None => _ end).
  assert (tracks Gemini.accumulatedContent st r1) as H1.
  { subst r1. destruct (Gemini.parts0 chunk).
    - apply tracks_run_loop. intros. apply gemini_process_part_tracks.
    - apply gemini_data_part_tracks. }
  destruct r1 as [st1 out1].
  pose proof (gemini_finish_part_tracks model ts st1 chunk) as H2.
  destruct (Gemini.finish_part _ _ _ _ _ st1 chunk) as [st2 out2].
  by eapply tracks_app.
Qed.

Lemma gemini_chatStream_accumulates (options_model : string)
    (opened : Thrown + VendorStream Gemini.GenerateContentResponse) :
  accumulates
    (emitted (Gemini.chatStream Date_now generateId JSON_parse JSON_stringify
                options_model opened)).
Proof.
  unfold Gemini.chatStream, Gemini.processStreamChunks.
  destruct opened as [e|result]; [done|].
  pose proof (tracks_run_loop Gemini.accumulatedContent _
    (gemini_process_chunk_tracks options_model (Date_now 0))
    (events result) Gemini.initial_state) as Htr.
  destruct (run_loop _ Gemini.initial_state (events result)) as [st out].
  apply tracks_accumulates in Htr; [|done].
  simpl. destruct (failure result); simpl; [|done].
  by apply accumulates_snoc_error.
Qed.
End gemini_accumulation.

(** C1. In every stream produced by [chatStream], of the OpenAI adapter and
    of the Gemini adapter, the [content] field of each content chunk is the
    concatenation, in emission order, of the [delta] fields of that chunk and
    of all earlier content chunks; the last content chunk carries the
    concatenation of all deltas. *)
Theorem chatStream_content_is_concatenation_of_deltas
    (Date_now : nat → Z) (generateId : nat → string)
    (JSON_parse : string → option json) (JSON_stringify : json → string)
    (openai_model : option string) (gemini_model : string)
    (openai_opened : Thrown + VendorStream OpenAI.VendorChunk)
    (gemini_opened : Thrown + VendorStream Gemini.GenerateContentResponse) :
  accumulates
    (emitted (OpenAI.chatStream Date_now generateId openai_model openai_opened))
  ∧ accumulates
      (emitted (Gemini.chatStream Date_now generateId JSON_parse JSON_stringify
                  gemini_model gemini_opened)).
Proof.
  split.
  - apply openai_chatStream_accumulates.
  - apply gemini_chatStream_accumulates.
Qed.

(** ** [chatCompletionStream] *)

Lemma completion_chunk_spec (chunk : OpenAI.VendorChunk) :
  OpenAI.completion_chunk chunk
  = if truthy_string (OpenAI.delta0_content chunk) then
      [ {| OpenAI.ccc_id := OpenAI.chunk_id chunk;
           OpenAI.ccc_model := OpenAI.chunk_model chunk;
           OpenAI.ccc_content := default "" (OpenAI.delta0_content chunk);
           OpenAI.ccc_role := OpenAI.delta0 chunk ≫= OpenAI.delta_role;
           OpenAI.ccc_finishReason := OpenAI.finish_reason0 chunk |} ]
    else [].
Proof.
  unfold OpenAI.completion_chunk, OpenAI.delta0_content.
  by destruct (OpenAI.delta0 chunk) as [delta|].
Qed.

(** C10. [chatCompletionStream] yields exactly one chunk for each vendor
    chunk whose delta carries non-empty content, and nothing for the others;
    when every finish reason arrives on a chunk without content, no yielded
    chunk carries a finish reason. *)
Theorem chatCompletionStream_drops_contentless_finish
    (stream : VendorStream OpenAI.VendorChunk) :
  Forall (λ chunk, is_Some (OpenAI.finish_reason0 chunk) →
                   truthy_string (OpenAI.delta0_content chunk) = false)
    (events stream) →
  let out := emitted (OpenAI.chatCompletionStream (inr stream)) in
  OpenAI.ccc_content <$> out
  = omap (λ chunk, if truthy_string (OpenAI.delta0_content chunk)
                   then OpenAI.delta0_content chunk else None)
      (events stream)
  ∧ Forall (λ c, OpenAI.ccc_content c ≠ ""
                 ∧ OpenAI.ccc_finishReason c = None) out.
Proof.
  simpl. induction 1 as [|chunk chunks Hfinish _ [IH1 IH2]]; [done|].
  cbn [mbind list_bind omap list_omap]. rewrite fmap_app, Forall_app.
  rewrite completion_chunk_spec.
  destruct (truthy_string (OpenAI.delta0_content chunk)) eqn:Hc.
  - destruct (OpenAI.delta0_content chunk) as [text|] eqn:Htext; [|done].
    split; [simpl; by f_equal|]. split; [|done].
    constructor; [|done]. simpl. split.
    + intros ->. by vm_compute in Hc.
    + destruct (OpenAI.finish_reason0 chunk) eqn:Hf; [|done].
      exfalso. assert (true = false) as [=]. apply Hfinish. by eexists.
  - by destruct (OpenAI.delta0_content chunk).
Qed.

Lemma chatCompletionStream_drops_contentless_finish_witness :
  let out := emitted (OpenAI.chatCompletionStream (inr Samples.oa_hello)) in
  OpenAI.ccc_content <$> out = ["Hel"; "lo"]
  ∧ Forall (λ c, OpenAI.ccc_content c ≠ ""
                 ∧ OpenAI.ccc_finishReason c = None) out.
Proof.
  apply (chatCompletionStream_drops_contentless_finish Samples.oa_hello).
  repeat (constructor; [by (vm_compute; first [reflexivity | intros [? [=]]])|]).
  constructor.
Defined.

(** ** Terminal events *)

Lemma run_loop_app {S X C : Type} (body : S → X → S * list C)
    (s : S) (xs ys : list X) :
  run_loop body s (xs ++ ys)
  = let '(s1, o1) := run_loop body s xs in
    let '(s2, o2) := run_loop body s1 ys in
    (s2, o1 ++ o2).
Proof.
  revert s. induction xs as [|x xs IH]; intros s; simpl.
  - by destruct (run_loop body s ys).
  - destruct (body s x) as [s1 o1]. rewrite IH.
    destruct (run_loop body s1 xs) as [s2 o2].
    destruct (run_loop body s2 ys) as [s3 o3].
    by rewrite app_assoc.
Qed.

Lemma run_loop_quiet {S X : Type} (body : S → X → S * list StreamChunk)
    (P : X → Prop) :
  (∀ s x, P x → quiet (body s x).2) →
  ∀ xs s, Forall P xs → quiet (run_loop body s xs).2.
Proof.
  intros Hbody xs. induction xs as [|x xs IH]; intros s Hxs; simpl.
  - constructor.
  - apply Forall_cons in Hxs as [Hx Hxs].
    specialize (Hbody s x Hx). destruct (body s x) as [s1 o1].
    specialize (IH s1 Hxs). destruct (run_loop body s1 xs) as [s2 o2].
    by apply Forall_app.
Qed.

Lemma single_terminal_last_snoc (pre : list StreamChunk) (t : StreamChunk) :
  quiet pre → is_terminal t = true → single_terminal_last (pre ++ [t]) = true.
Proof.
  intros Hpre Ht. unfold single_terminal_last.
  rewrite reverse_snoc, Ht. simpl.
  apply forallb_forall. intros c Hc.
  apply list_elem_of_In in Hc. rewrite elem_of_reverse in Hc.
  unfold quiet in Hpre. rewrite Forall_forall in Hpre.
  by rewrite (Hpre c Hc).
Qed.

Lemma forallb_negb_Forall {E : Type} (f : E → bool) (l : list E) :
  forallb (λ e, negb (f e)) l = true → Forall (λ e, f e = false) l.
Proof.
  rewrite forallb_forall, Forall_forall. intros H e He.
  apply negb_true_iff, H. by apply list_elem_of_In.
Qed.

(** A loop whose body stays quiet on events without a finish reason and
    closes its output with one terminal chunk on the others. *)
Lemma run_loop_single_terminal {S X : Type}
    (body : S → X → S * list StreamChunk) (finishes : X → bool)
    (stream : VendorStream X) (s : S) :
  (∀ s x, finishes x = false → quiet (body s x).2) →
  (∀ s x, x ∈ events stream → finishes x = true →
     ∃ pre t, (body s x).2 = pre ++ [t] ∧ quiet pre ∧ is_terminal t = true) →
  finishes_once finishes stream = true →
  match failure stream with
  | None => single_terminal_last (run_loop body s (events stream)).2 = true
  | Some _ => quiet (run_loop body s (events stream)).2
  end.
Proof.
  intros Hquiet Hfinal. unfold finishes_once.
  destruct (failure stream).
  - intros Hall. by apply (run_loop_quiet body _ Hquiet), forallb_negb_Forall.
  - destruct (reverse (events stream)) as [|final rbody] eqn:Hrev; [done|].
    intros [Hfin Hbody]%andb_true_iff.
    assert (events stream = reverse rbody ++ [final]) as Hev.
    { by rewrite <- (reverse_involutive (events stream)), Hrev, reverse_cons. }
    rewrite Hev, run_loop_app.
    assert (quiet (run_loop body s (reverse rbody)).2) as Hq.
    { apply (run_loop_quiet body _ Hquiet), forallb_negb_Forall.
      apply forallb_forall. intros e He.
      rewrite forallb_forall in Hbody. apply Hbody.
      apply list_elem_of_In in He. rewrite elem_of_reverse in He.
      by apply list_elem_of_In. }
    destruct (run_loop body s (reverse rbody)) as [s1 o1]. simpl.
    destruct (Hfinal s1 final) as (pre & t & Hout & Hpre & Ht); [|done|].
    { rewrite Hev. set_solver. }
    destruct (body s1 final) as [s2 o2]. simpl in *. subst o2.
    rewrite app_nil_r, app_assoc.
    apply single_terminal_last_snoc; [by apply Forall_app | done].
Qed.

Lemma quiet_tool_call_chunks {S X : Type}
    (body : S → X → S * list StreamChunk) :
  (∀ s x, Forall (λ c, is_tool_call c = true) (body s x).2) →
  ∀ xs s, quiet (run_loop body s xs).2.
Proof.
  intros Hbody xs s.
  apply (run_loop_quiet body (λ _, True)); [|by apply Forall_true].
  intros s' x _. eapply Forall_impl; [apply Hbody|].
  by intros [] ?.
Qed.

(** *** OpenAI *)

Section openai_terminal.
Variable Date_now : nat → Z.

Lemma openai_before_completion_quiet (ts : Z) (st : OpenAI.State)
    (chunk : OpenAI.VendorChunk) :
  ∃ st' pre,
    OpenAI.process_chunk Date_now ts st chunk
    = (st', pre ++ OpenAI.completion_part ts chunk) ∧ quiet pre.
Proof.
  unfold OpenAI.process_chunk.
  assert (quiet (OpenAI.content_part ts st chunk).2) as H1.
  { unfold OpenAI.content_part. case_match; repeat constructor. }
  destruct (OpenAI.content_part ts st chunk) as [st1 out1].
  assert (quiet (OpenAI.tool_calls_part Date_now ts st1 chunk).2) as H2.
  { unfold OpenAI.tool_calls_part. case_match; [|constructor].
    apply quiet_tool_call_chunks. intros s x.
    unfold OpenAI.tool_call_fragment.
    destruct (truthy_string _); by repeat constructor. }
  destruct (OpenAI.tool_calls_part Date_now ts st1 chunk) as [st2 out2].
  exists st2, (out1 ++ out2). rewrite app_assoc.
  split; [done | by apply Forall_app].
Qed.

Lemma openai_process_chunk_quiet (ts : Z) (st : OpenAI.State)
    (chunk : OpenAI.VendorChunk) :
  openai_finishes chunk = false →
  quiet (OpenAI.process_chunk Date_now ts st chunk).2.
Proof.
  intros Hf.
  destruct (openai_before_completion_quiet ts st chunk)
    as (st' & pre & -> & Hpre).
  unfold OpenAI.completion_part. unfold openai_finishes in Hf.
  rewrite Hf. simpl. by rewrite app_nil_r.
Qed.

Lemma openai_process_chunk_final (ts : Z) (st : OpenAI.State)
    (chunk : OpenAI.VendorChunk) :
  openai_finishes chunk = true →
  ∃ pre t, (OpenAI.process_chunk Date_now ts st chunk).2 = pre ++ [t]
           ∧ quiet pre ∧ is_terminal t = true.
Proof.
  intros Hf.
  destruct (openai_before_completion_quiet ts st chunk)
    as (st' & pre & -> & Hpre).
  unfold OpenAI.completion_part. unfold openai_finishes in Hf.
  rewrite Hf. simpl. by eexists _, _.
Qed.

Lemma openai_chatStream_single_terminal (generateId : nat → string)
    (options_model : option string)
    (stream : VendorStream OpenAI.VendorChunk) :
  finishes_once openai_finishes stream = true →
  single_terminal_last
    (emitted (OpenAI.chatStream Date_now generateId options_model
                (inr stream))) = true.
Proof.
  intros Honce. unfold OpenAI.chatStream.
  set (st0 := OpenAI.Build_State _ _).
  pose proof (run_loop_single_terminal
    (OpenAI.process_chunk Date_now (Date_now 0)) openai_finishes stream st0
    (λ s x, openai_process_chunk_quiet (Date_now 0) s x)
    (λ s x _, openai_process_chunk_final (Date_now 0) s x) Honce) as H.
  destruct (run_loop _ st0 (events stream)) as [st out].
  destruct (failure stream); simpl in *; [|done].
  by apply single_terminal_last_snoc.
Qed.
End openai_terminal.

(** *** Gemini *)

Section gemini_terminal.
Variable Date_now : nat → Z.
Variable generateId : nat → string.
Variable JSON_parse : string → option json.
Variable JSON_stringify : json → string.

Lemma gemini_process_part_quiet (model : string) (ts : Z)
    (st : Gemini.State) (part : Gemini.Part) :
  quiet (Gemini.process_part Date_now generateId JSON_parse JSON_stringify
           model ts st part).2.
Proof.
  unfold Gemini.process_part.
  assert (quiet (Gemini.text_part generateId model ts st part).2) as H1.
  { unfold Gemini.text_part. repeat case_match; repeat constructor. }
  destruct (Gemini.text_part generateId model ts st part) as [st1 out1].
  destruct (Gemini.part_functionCall part) as [fc|]; simpl.
  - unfold Gemini.function_call_part.
    destruct (Gemini.tool_call_id Date_now st1 fc) as [st2 key].
    destruct (Gemini.toolCallMap st2 !! key); simpl;
      apply Forall_app; split; by repeat constructor.
  - by rewrite app_nil_r.
Qed.

Lemma gemini_before_finish_quiet (model : string) (ts : Z)
    (st : Gemini.State) (chunk : Gemini.GenerateContentResponse) :
  quiet (match Gemini.parts0 chunk with
         | Some parts =>
             run_loop (Gemini.process_part Date_now generateId JSON_parse
                         JSON_stringify model ts) st parts
         | None => Gemini.data_part generateId model ts st chunk
         end).2.
Proof.
  destruct (Gemini.parts0 chunk) as [parts|].
  - apply (run_loop_quiet _ (λ _, True)); [|by apply Forall_true].
    intros. apply gemini_process_part_quiet.
  - unfold Gemini.data_part. case_match; repeat constructor.
Qed.

Lemma gemini_process_chunk_quiet (model : string) (ts : Z)
    (st : Gemini.State) (chunk : Gemini.GenerateContentResponse) :
  gemini_finishes chunk = false →
  quiet (Gemini.process_chunk Date_now generateId JSON_parse JSON_stringify
           model ts st chunk).2.
Proof.
  intros Hf. unfold Gemini.process_chunk.
  pose proof (gemini_before_finish_quiet model ts st chunk) as H1.
  destruct (match Gemini.parts0 chunk with Some _ => _ | None => _ end)
    as [st1 out1].
  unfold Gemini.finish_part. unfold gemini_finishes in Hf.
  destruct (Gemini.finishReason0 chunk).
  - apply bool_decide_eq_false in Hf. by destruct Hf.
  - simpl. by rewrite app_nil_r.
Qed.

Lemma gemini_process_chunk_final (model : string) (ts : Z)
    (st : Gemini.State) (chunk : Gemini.GenerateContentResponse) :
  gemini_max_tokens chunk = false →
  gemini_finishes chunk = true →
  ∃ pre t,
    (Gemini.process_chunk Date_now generateId JSON_parse JSON_stringify
       model ts st chunk).2 = pre ++ [t]
    ∧ quiet pre ∧ is_terminal t = true.
Proof.
  intros Hmax Hf. unfold Gemini.process_chunk.
  pose proof (gemini_before_finish_quiet model ts st chunk) as H1.
  destruct (match Gemini.parts0 chunk with Some _ => _ | None => _ end)
    as [st1 out1].
  unfold Gemini.finish_part.
  unfold gemini_finishes in Hf. unfold gemini_max_tokens in Hmax.
  apply bool_decide_eq_true in Hf as [reason Hreason].
  apply bool_decide_eq_false in Hmax.
  rewrite Hreason in Hmax |- *.
  set (r1 := if decide (reason = Gemini.UNEXPECTED_TOOL_CALL) then _ else _).
  assert (quiet r1.2) as H2.
  { subst r1. case_decide; [|constructor].
    destruct (Gemini.parts0 chunk); [|constructor].
    apply quiet_tool_call_chunks. intros s part.
    unfold Gemini.unexpected_tool_call_part.
    destruct (Gemini.part_functionCall part) as [fc|]; [|constructor].
    destruct (Gemini.tool_call_id Date_now s fc). by repeat constructor. }
  destruct r1 as [st2 out2].
  destruct (decide (reason = Gemini.MAX_TOKENS)) as [->|_]; [done|].
  simpl. eexists (out1 ++ out2), _. rewrite app_assoc.
  split; [done|]. split; [by apply Forall_app | done].
Qed.

Lemma gemini_chatStream_single_terminal (options_model : string)
    (stream : VendorStream Gemini.GenerateContentResponse) :
  finishes_once gemini_finishes stream = true →
  forallb (λ chunk, negb (gemini_max_tokens chunk)) (events stream) = true →
  single_terminal_last
    (emitted (Gemini.chatStream Date_now generateId JSON_parse JSON_stringify
                options_model (inr stream))) = true.
Proof.
  intros Honce Hmax. apply forallb_negb_Forall in Hmax.
  rewrite Forall_forall in Hmax.
  unfold Gemini.chatStream, Gemini.processStreamChunks.
  pose proof (run_loop_single_terminal
    (Gemini.process_chunk Date_now generateId JSON_parse JSON_stringify
       options_model (Date_now 0))
    gemini_finishes stream Gemini.initial_state
    (λ s x, gemini_process_chunk_quiet options_model (Date_now 0) s x)
    (λ s x Hx, gemini_process_chunk_final options_model (Date_now 0) s x
                 (Hmax x Hx)) Honce) as H.
  destruct (run_loop _ Gemini.initial_state (events stream)) as [st out].
  simpl. destruct (failure stream); simpl in *; [|done].
  by apply single_terminal_last_snoc.
Qed.

Lemma gemini_chatStream_never_throws (options_model : string)
    (opened : Thrown + VendorStream Gemini.GenerateContentResponse) :
  escaped (Gemini.chatStream Date_now generateId JSON_parse JSON_stringify
             options_model opened) = None.
Proof.
  unfold Gemini.chatStream, Gemini.processStreamChunks.
  destruct opened as [error|stream]; [done|].
  destruct (run_loop _ Gemini.initial_state (events stream)) as [st out].
  simpl. by destruct (failure stream) eqn:Hfail.
Qed.
End gemini_terminal.

(** C2 (as amended). When the vendor stream signals its end once -- it
    completes and its last chunk, and no other, carries a finish reason (for
    Gemini, not the token-limit one), or it fails before any chunk carried a
    finish reason -- the sequence emitted by [chatStream] is closed by exactly
    one terminal event, which is its last chunk; so is the sequence the
    Gemini adapter emits when the stream cannot be opened. *)
Theorem chatStream_single_terminal_when_finished_once
    (Date_now : nat → Z) (generateId : nat → string)
    (JSON_parse : string → option json) (JSON_stringify : json → string)
    (openai_model : option string) (gemini_model : string)
    (openai_stream : VendorStream OpenAI.VendorChunk)
    (gemini_stream : VendorStream Gemini.GenerateContentResponse)
    (error : Thrown) :
  finishes_once openai_finishes openai_stream = true →
  finishes_once gemini_finishes gemini_stream = true →
  forallb (λ chunk, negb (gemini_max_tokens chunk)) (events gemini_stream)
    = true →
  single_terminal_last
    (emitted (OpenAI.chatStream Date_now generateId openai_model
                (inr openai_stream))) = true
  ∧ single_terminal_last
      (emitted (Gemini.chatStream Date_now generateId JSON_parse JSON_stringify
                  gemini_model (inr gemini_stream))) = true
  ∧ single_terminal_last
      (emitted (Gemini.chatStream Date_now generateId JSON_parse JSON_stringify
                  gemini_model (inl error))) = true.
Proof.
  intros Ho Hg Hmax. split; [|split].
  - by apply openai_chatStream_single_terminal.
  - by apply gemini_chatStream_single_terminal.
  - done.
Qed.

Lemma chatStream_single_terminal_when_finished_once_witness :
  single_terminal_last (emitted (Samples.openai_run (inr Samples.oa_hello)))
    = true
  ∧ single_terminal_last (emitted (Samples.gemini_run (inr Samples.gemini_hello)))
      = true
  ∧ single_terminal_last
      (emitted (Samples.gemini_run (inl Samples.network_error))) = true.
Proof.
  apply (chatStream_single_terminal_when_finished_once
           Samples.clock Samples.ids SampleJSON.parse SampleJSON.stringify
           (Some "gpt-4o") "gemini-2.5-flash"
           Samples.oa_hello Samples.gemini_hello Samples.network_error);
    reflexivity.
Defined.

(** C2 (as stated) fails: on a response cut off by the token limit the
    Gemini adapter emits an [error] chunk and then a [done] chunk; and when
    the vendor stream ends without a finish reason the OpenAI adapter emits
    no terminal event at all. *)
Lemma chatStream_two_terminals_on_max_tokens :
  is_terminal <$> emitted (Samples.gemini_run (inr Samples.gemini_cut_off))
    = [false; false; true; true]
  ∧ single_terminal_last
      (emitted (Samples.gemini_run (inr Samples.gemini_cut_off))) = false
  ∧ is_terminal <$> emitted (Samples.openai_run (inr Samples.oa_unfinished))
    = [false]
  ∧ single_terminal_last
      (emitted (Samples.openai_run (inr Samples.oa_unfinished))) = false.
Proof. repeat split; reflexivity. Qed.

(** ** Failures of the vendor call *)

(** A failure while iterating is caught by both adapters, and the Gemini
    adapter also catches a failure of the opening call. *)
Lemma openai_chatStream_iteration_failure_caught
    (Date_now : nat → Z) (generateId : nat → string)
    (options_model : option string)
    (stream : VendorStream OpenAI.VendorChunk) (error : Thrown) :
  failure stream = Some error →
  let out := OpenAI.chatStream Date_now generateId options_model (inr stream) in
  escaped out = None
  ∧ last (emitted out)
    = Some (OpenAI.error_chunk generateId options_model (Date_now 0) error).
Proof.
  intros Hfail. unfold OpenAI.chatStream.
  destruct (run_loop _ _ (events stream)) as [st out].
  rewrite Hfail. simpl. by rewrite last_snoc.
Qed.

Lemma openai_chatStream_opened_never_throws
    (Date_now : nat → Z) (generateId : nat → string)
    (options_model : option string)
    (stream : VendorStream OpenAI.VendorChunk) :
  escaped (OpenAI.chatStream Date_now generateId options_model (inr stream))
  = None.
Proof.
  unfold OpenAI.chatStream.
  destruct (run_loop _ _ (events stream)) as [st out].
  by destruct (failure stream).
Qed.

Lemma gemini_chatStream_open_failure_caught
    (Date_now : nat → Z) (generateId : nat → string)
    (JSON_parse : string → option json) (JSON_stringify : json → string)
    (options_model : string) (error : Thrown) :
  Gemini.chatStream Date_now generateId JSON_parse JSON_stringify
    options_model (inl error)
  = {| emitted := [Gemini.error_chunk Date_now generateId options_model 0 0 error];
       escaped := None |}.
Proof. reflexivity. Qed.

(** C3 fails on the OpenAI adapter at a failure of the opening call: the
    exception escapes [chatStream] and no chunk is emitted.  It is the only
    failure of the vendor call that escapes: once the stream is opened the
    OpenAI adapter throws nothing, and the Gemini adapter never does. *)
Theorem openai_chatStream_open_failure_escapes
    (Date_now : nat → Z) (generateId : nat → string)
    (JSON_parse : string → option json) (JSON_stringify : json → string)
    (openai_model : option string) (gemini_model : string) (error : Thrown) :
  OpenAI.chatStream Date_now generateId openai_model (inl error)
  = {| emitted := []; escaped := Some error |}
  ∧ (∀ stream,
       escaped (OpenAI.chatStream Date_now generateId openai_model (inr stream))
       = None)
  ∧ (∀ opened,
       escaped (Gemini.chatStream Date_now generateId JSON_parse JSON_stringify
                  gemini_model opened) = None).
Proof.
  split; [reflexivity|]. split.
  - intros stream. apply openai_chatStream_opened_never_throws.
  - intros opened. apply gemini_chatStream_never_throws.
Qed.

(** ** Finish reasons of the Gemini adapter *)

Lemma done_reasons_follow_app (seen : bool) (o1 o2 : list StreamChunk) :
  done_reasons_follow seen (o1 ++ o2)
  = done_reasons_follow seen o1
    && done_reasons_follow (seen || existsb is_tool_call o1) o2.
Proof.
  revert seen. induction o1 as [|c o1 IH]; intros seen; simpl.
  - by rewrite orb_false_r.
  - destruct c; simpl; rewrite IH, ?orb_false_r, ?orb_true_r, ?andb_assoc;
      done.
Qed.

Lemma done_reasons_follow_done (seen : bool) (pre post : list StreamChunk)
    (id model : string) (ts : Z) (finishReason : string)
    (usage : option Usage) :
  done_reasons_follow seen
    (pre ++ ChunkDone id model ts finishReason usage :: post) = true →
  finishReason
  = if seen || existsb is_tool_call pre then "tool_calls" else "stop".
Proof.
  rewrite done_reasons_follow_app. simpl.
  intros [_ [Heq _]%andb_true_iff]%andb_true_iff.
  by apply String.eqb_eq in Heq.
Qed.

Lemma follows_silent (st st' : Gemini.State) (out : list StreamChunk) :
  Gemini.toolCallMap st' = Gemini.toolCallMap st →
  Forall (λ c, is_done c = false ∧ is_tool_call c = false) out →
  follows st (st', out).
Proof.
  intros Hmap Hout. unfold follows, accumulated_tool_calls. simpl.
  rewrite Hmap. generalize (bool_decide (0 < size (Gemini.toolCallMap st))).
  induction Hout as [|c out [Hd Ht] _ IH]; intros seen; simpl.
  - by rewrite orb_false_r.
  - destruct (IH seen) as [IH1 IH2]. rewrite Ht. simpl.
    destruct c; simpl in *; try done; by rewrite orb_false_r.
Qed.

Lemma follows_app (st st1 st2 : Gemini.State) (o1 o2 : list StreamChunk) :
  follows st (st1, o1) → follows st1 (st2, o2) → follows st (st2, o1 ++ o2).
Proof.
  unfold follows; simpl. intros [Hd1 Ha1] [Hd2 Ha2].
  rewrite done_reasons_follow_app, existsb_app, Hd1, <- Ha1, Hd2, Ha2, Ha1.
  by rewrite orb_assoc.
Qed.

Lemma follows_run_loop {X : Type}
    (body : Gemini.State → X → Gemini.State * list StreamChunk) :
  (∀ st x, follows st (body st x)) →
  ∀ xs st, follows st (run_loop body st xs).
Proof.
  intros Hbody xs. induction xs as [|x xs IH]; intros st; simpl.
  - by apply follows_silent.
  - specialize (Hbody st x). destruct (body st x) as [st1 o1].
    specialize (IH st1). destruct (run_loop body st1 xs) as [st2 o2].
    by eapply follows_app.
Qed.

(** A step that stores a record and yields one tool-call chunk. *)
Lemma follows_tool_call (st st' : Gemini.State) (key : string)
    (d : Gemini.ToolCallData) (m : gmap string Gemini.ToolCallData)
    (c : StreamChunk) :
  Gemini.toolCallMap st' = <[key := d]> m → is_tool_call c = true →
  follows st (st', [c]).
Proof.
  intros Hmap Hc. unfold follows, accumulated_tool_calls. simpl.
  rewrite Hc, Hmap, orb_true_r. split; [by destruct c|].
  apply bool_decide_eq_true.
  assert (size (<[key := d]> m) ≠ 0); [|lia].
  rewrite map_size_empty_iff. apply insert_non_empty.
Qed.

Section gemini_finish_reason.
Variable Date_now : nat → Z.
Variable generateId : nat → string.
Variable JSON_parse : string → option json.
Variable JSON_stringify : json → string.

Lemma gemini_tool_call_id_map (st : Gemini.State) (fc : Gemini.FunctionCall) :
  Gemini.toolCallMap (Gemini.tool_call_id Date_now st fc).1
  = Gemini.toolCallMap st.
Proof. unfold Gemini.tool_call_id. by destruct (truthy_string _). Qed.

Lemma gemini_function_call_part_follows (model : string) (ts : Z)
    (st : Gemini.State) (fc : Gemini.FunctionCall) :
  follows st
    (Gemini.function_call_part Date_now generateId JSON_parse JSON_stringify
       model ts st fc).
Proof.
  unfold Gemini.function_call_part.
  destruct (Gemini.tool_call_id Date_now st fc) as [st1 key].
  destruct (Gemini.toolCallMap st1 !! key);
    by eapply follows_tool_call.
Qed.

Lemma gemini_process_part_follows (model : string) (ts : Z)
    (st : Gemini.State) (part : Gemini.Part) :
  follows st
    (Gemini.process_part Date_now generateId JSON_parse JSON_stringify
       model ts st part).
Proof.
  unfold Gemini.process_part.
  assert (follows st (Gemini.text_part generateId model ts st part)) as H1.
  { unfold Gemini.text_part.
    repeat case_match; apply follows_silent; by repeat constructor. }
  destruct (Gemini.text_part generateId model ts st part) as [st1 out1].
  destruct (Gemini.part_functionCall part) as [fc|].
  - pose proof (gemini_function_call_part_follows model ts st1 fc) as H2.
    destruct (Gemini.function_call_part _ _ _ _ _ _ st1 fc) as [st2 out2].
    by eapply follows_app.
  - eapply follows_app; [done | by apply follows_silent].
Qed.

Lemma gemini_finish_part_follows (model : string) (ts : Z)
    (st : Gemini.State) (chunk : Gemini.GenerateContentResponse) :
  follows st
    (Gemini.finish_part Date_now generateId JSON_stringify model ts st chunk).
Proof.
  unfold Gemini.finish_part.
  destruct (Gemini.finishReason0 chunk) as [reason|];
    [|by apply follows_silent].
  set (r1 := if decide (reason = Gemini.UNEXPECTED_TOOL_CALL) then _ else _).
  assert (follows st r1) as H1.
  { subst r1. case_decide; [|by apply follows_silent].
    destruct (Gemini.parts0 chunk); [|by apply follows_silent].
    apply follows_run_loop. intros s part.
    unfold Gemini.unexpected_tool_call_part.
    destruct (Gemini.part_functionCall part) as [fc|];
      [|by apply follows_silent].
    destruct (Gemini.tool_call_id Date_now s fc) as [s1 key].
    by eapply follows_tool_call. }
  destruct r1 as [st1 out1].
  set (r2 := if decide (reason = Gemini.MAX_TOKENS) then _ else _).
  assert (follows st1 r2) as H2.
  { subst r2. case_decide; apply follows_silent; by repeat constructor. }
  destruct r2 as [st2 out2].
  eapply follows_app; [done|]. eapply follows_app; [done|].
  unfold follows, Gemini.done_reason, accumulated_tool_calls. simpl.
  rewrite String.eqb_refl. by rewrite orb_false_r.
Qed.

Lemma gemini_process_chunk_follows (model : string) (ts : Z)
    (st : Gemini.State) (chunk : Gemini.GenerateContentResponse) :
  follows st
    (Gemini.process_chunk Date_now generateId JSON_parse JSON_stringify
       model ts st chunk).
Proof.
  unfold Gemini.process_chunk.
  set (r1 := match Gemini.parts0 chunk with Some _ => _ | None => _ end).
  assert (follows st r1) as H1.
  { subst r1. destruct (Gemini.parts0 chunk).
    - apply follows_run_loop. intros. apply gemini_process_part_follows.
    - unfold Gemini.data_part.
      case_match; apply follows_silent; by repeat constructor. }
  destruct r1 as [st1 out1].
  pose proof (gemini_finish_part_follows model ts st1 chunk) as H2.
  destruct (Gemini.finish_part _ _ _ _ _ st1 chunk) as [st2 out2].
  by eapply follows_app.
Qed.

Lemma gemini_chatStream_done_reasons (options_model : string)
    (opened : Thrown + VendorStream Gemini.GenerateContentResponse) :
  done_reasons_follow false
    (emitted (Gemini.chatStream Date_now generateId JSON_parse JSON_stringify
                options_model opened)) = true.
Proof.
  unfold Gemini.chatStream, Gemini.processStreamChunks.
  destruct opened as [e|result]; [done|].
  pose proof (follows_run_loop _
    (gemini_process_chunk_follows options_model (Date_now 0))
    (events result) Gemini.initial_state) as [Hd _].
  destruct (run_loop _ Gemini.initial_state (events result)) as [st out].
  change (done_reasons_follow false out = true) in Hd.
  simpl. destruct (failure result); simpl; [|done].
  rewrite done_reasons_follow_app. rewrite Hd. simpl.
  by destruct (existsb is_tool_call out).
Qed.

(** The token limit is reported by an [error] chunk, followed by the
    [done] chunk. *)
Lemma gemini_max_tokens_error_then_done (model : string) (ts : Z)
    (st : Gemini.State) (chunk : Gemini.GenerateContentResponse) :
  Gemini.finishReason0 chunk = Some Gemini.MAX_TOKENS →
  (Gemini.finish_part Date_now generateId JSON_stringify model ts st chunk).2
  = [ChunkError (generateId (Gemini.ids_made st)) model ts
       Gemini.max_tokens_message None;
     ChunkDone (generateId (S (Gemini.ids_made st))) model ts
       (Gemini.done_reason st) (Gemini.usage_of (Gemini.usageMetadata chunk))].
Proof. intros Hr. unfold Gemini.finish_part. by rewrite Hr. Qed.
End gemini_finish_reason.

(** C9. The [finishReason] of every [done] chunk emitted by the Gemini
    adapter is ["stop"] or ["tool_calls"]; it is ["tool_calls"] exactly when
    a tool call was accumulated -- a tool-call chunk was emitted -- earlier
    in the stream; it is never ["length"] or ["content_filter"]. *)
Theorem gemini_done_reason_is_stop_or_tool_calls
    (Date_now : nat → Z) (generateId : nat → string)
    (JSON_parse : string → option json) (JSON_stringify : json → string)
    (options_model : string)
    (opened : Thrown + VendorStream Gemini.GenerateContentResponse)
    (pre post : list StreamChunk) (id model : string) (ts : Z)
    (finishReason : string) (usage : option Usage) :
  emitted (Gemini.chatStream Date_now generateId JSON_parse JSON_stringify
             options_model opened)
  = pre ++ ChunkDone id model ts finishReason usage :: post →
  (finishReason = "stop" ∨ finishReason = "tool_calls")
  ∧ (finishReason = "tool_calls" ↔ existsb is_tool_call pre = true)
  ∧ finishReason ≠ "length" ∧ finishReason ≠ "content_filter".
Proof.
  intros Hout.
  pose proof (gemini_chatStream_done_reasons Date_now generateId JSON_parse
                JSON_stringify options_model opened) as H.
  rewrite Hout in H. apply done_reasons_follow_done in H. simpl in H.
  destruct (existsb is_tool_call pre); subst finishReason; naive_solver.
Qed.

Lemma gemini_done_reason_is_stop_or_tool_calls_witness :
  ("tool_calls" = "stop" ∨ "tool_calls" = "tool_calls")
  ∧ ("tool_calls" = "tool_calls"
     ↔ existsb is_tool_call
         (take 1 (emitted (Samples.gemini_run (inr Samples.gemini_weather))))
       = true)
  ∧ "tool_calls" ≠ "length" ∧ "tool_calls" ≠ "content_filter".
Proof.
  apply (gemini_done_reason_is_stop_or_tool_calls
           Samples.clock Samples.ids SampleJSON.parse SampleJSON.stringify
           "gemini-2.5-flash" (inr Samples.gemini_weather)
           _ [] "id-1" "gemini-2.5-flash" 1700000000000 "tool_calls" None).
  reflexivity.
Defined.

(** ** JavaScript objects *)

Lemma js_get_replace_value (k k' : string) (v : json)
    (o : list (string * json)) :
  js_get k' (replace_value k v o)
  = if decide (k = k') then (λ _, v) <$> js_get k' o else js_get k' o.
Proof.
  induction o as [|[k0 v0] o IH]; simpl.
  - by case_decide.
  - destruct (String.eqb_spec k0 k) as [->|Hk0]; simpl.
    + destruct (String.eqb_spec k k') as [->|Hk].
      * by rewrite decide_True.
      * rewrite IH. by rewrite decide_False.
    + destruct (String.eqb_spec k0 k') as [->|Hk'].
      * by rewrite decide_False.
      * by rewrite IH.
Qed.

Lemma js_get_app (k : string) (o1 o2 : list (string * json)) :
  js_get k (o1 ++ o2)
  = match js_get k o1 with Some v => Some v | None => js_get k o2 end.
Proof.
  induction o1 as [|[k0 v0] o1 IH]; simpl; [done|].
  by destruct (String.eqb k0 k).
Qed.

Lemma js_get_insert_index (n : N) (k k' : string) (v : json)
    (o : list (string * json)) :
  js_get k o = None →
  js_get k' (insert_index n k v o)
  = if decide (k = k') then Some v else js_get k' o.
Proof.
  induction o as [|[k0 v0] o IH]; simpl; intros Hk.
  - destruct (String.eqb_spec k k'); by case_decide.
  - destruct (String.eqb_spec k0 k) as [->|Hk0]; [done|].
    assert (js_get k' ((k, v) :: (k0, v0) :: o)
            = if decide (k = k') then Some v else js_get k' ((k0, v0) :: o))
      as Hhead.
    { simpl. destruct (String.eqb_spec k k'); by case_decide. }
    destruct (array_index k0) as [n0|]; [|done].
    destruct (n0 <? n)%N; [|done].
    simpl. rewrite (IH Hk).
    destruct (String.eqb_spec k0 k') as [->|_]; [|done].
    by rewrite decide_False.
Qed.

Lemma js_get_js_set (k k' : string) (v : json) (o : list (string * json)) :
  js_get k' (js_set k v o) = if decide (k = k') then Some v else js_get k' o.
Proof.
  unfold js_set, has_key. case_bool_decide as Hhas.
  - rewrite js_get_replace_value. case_decide as Hk; [|done].
    subst k'. by destruct Hhas as [v0 ->].
  - assert (js_get k o = None) as Hnone.
    { destruct (js_get k o) eqn:E; [|done]. destruct Hhas. by eexists. }
    destruct (array_index k) as [n|].
    + by apply js_get_insert_index.
    + rewrite js_get_app. simpl.
      destruct (String.eqb_spec k k') as [->|Hk].
      * by rewrite Hnone, decide_True.
      * rewrite decide_False by done. by destruct (js_get k' o).
Qed.

Lemma js_get_None_not_key (k : string) (o : list (string * json)) :
  k ∉ o.*1 → js_get k o = None.
Proof.
  induction o as [|[k0 v0] o IH]; simpl; [done|].
  intros Hk. apply not_elem_of_cons in Hk as [Hne Hk].
  destruct (String.eqb_spec k0 k); [done | by apply IH].
Qed.

(** Copying the properties of [source] onto [target]: the keys of [source]
    win, the others keep their value. *)
Lemma js_get_copy (k : string) (props target : list (string * json)) :
  NoDup props.*1 →
  js_get k (foldl (λ o kv, js_set kv.1 kv.2 o) target props)
  = match js_get k props with
    | Some v => Some v
    | None => js_get k target
    end.
Proof.
  revert target. induction props as [|[k0 v0] props IH]; intros target Hnd;
    simpl; [done|].
  apply NoDup_cons in Hnd as [Hk0 Hnd]. simpl in Hk0.
  rewrite (IH _ Hnd), js_get_js_set. simpl.
  destruct (String.eqb_spec k0 k) as [->|Hne].
  - by rewrite (js_get_None_not_key _ _ Hk0), decide_True.
  - by rewrite decide_False.
Qed.

(** The properties of [{ ...a, ...b }]. *)
Lemma js_get_spread (k : string) (a b : list (string * json)) :
  NoDup a.*1 → NoDup b.*1 →
  js_get k (own_props (js_spread (JObj a) (JObj b)))
  = match js_get k b with
    | Some v => Some v
    | None => js_get k a
    end.
Proof.
  intros Ha Hb. unfold js_spread, copy_props. simpl.
  rewrite (js_get_copy _ _ _ Hb), (js_get_copy _ _ _ Ha). simpl.
  by destruct (js_get k b), (js_get k a).
Qed.

(** ** Merging the arguments of a tool call *)

Lemma gemini_tool_call_id_vendor (Date_now : nat → Z) (st : Gemini.State)
    (fc : Gemini.FunctionCall) (key : string) :
  Gemini.fc_id fc = Some key → key ≠ "" →
  Gemini.tool_call_id Date_now st fc = (st, key).
Proof.
  intros Hid Hkey. unfold Gemini.tool_call_id. rewrite Hid. simpl.
  by destruct (String.eqb_spec key "").
Qed.

Lemma gemini_merge_args_objects (JSON_parse : string → option json)
    (JSON_stringify : json → string) (existing : string)
    (fc : Gemini.FunctionCall) (o1 o2 : list (string * json)) :
  JSON_parse existing = Some (JObj o1) →
  fragment_object JSON_parse fc o2 →
  Gemini.merge_args JSON_parse JSON_stringify existing (Gemini.function_args fc)
  = Some (JSON_stringify (js_spread (JObj o1) (JObj o2))).
Proof.
  intros Hexisting Hnew. unfold Gemini.merge_args. rewrite Hexisting. simpl.
  destruct Hnew as [->|(s & -> & ->)]; done.
Qed.

(** C4. When a fragment arrives for a call already recorded, and the
    recorded arguments and the fragment's arguments are JSON objects, the
    record keeps its name and index and its arguments become the
    serialisation of the shallow key-wise merge of the two objects in which
    the fragment's value wins on every key they share. *)
Theorem gemini_merge_is_shallow_last_write_wins
    (Date_now : nat → Z) (generateId : nat → string)
    (JSON_parse : string → option json) (JSON_stringify : json → string)
    (model : string) (ts : Z) (st : Gemini.State)
    (fc : Gemini.FunctionCall) (key : string) (d : Gemini.ToolCallData)
    (o1 o2 : list (string * json)) :
  Gemini.fc_id fc = Some key → key ≠ "" →
  Gemini.toolCallMap st !! key = Some d →
  JSON_parse (Gemini.args d) = Some (JObj o1) →
  fragment_object JSON_parse fc o2 →
  NoDup o1.*1 → NoDup o2.*1 →
  ∃ merged,
    Gemini.toolCallMap
      (Gemini.function_call_part Date_now generateId JSON_parse
         JSON_stringify model ts st fc).1 !! key
    = Some {| Gemini.name := Gemini.name d;
              Gemini.args := JSON_stringify (JObj merged);
              Gemini.index := Gemini.index d |}
    ∧ last_write_wins o1 o2 merged.
Proof.
  intros Hid Hkey Hd Ho1 Ho2 Hnd1 Hnd2.
  exists (own_props (js_spread (JObj o1) (JObj o2))). split.
  - unfold Gemini.function_call_part.
    rewrite (gemini_tool_call_id_vendor _ _ _ _ Hid Hkey), Hd. simpl.
    rewrite lookup_insert_eq. unfold Gemini.merged.
    by rewrite (gemini_merge_args_objects _ _ _ _ _ _ Ho1 Ho2).
  - intros k. by apply js_get_spread.
Qed.

Lemma gemini_merge_is_shallow_last_write_wins_witness :
  ∃ merged,
    Gemini.toolCallMap
      (Samples.gemini_step Samples.after_a1
         (Samples.fragment (JObj [("a", JNum 2); ("b", JNum 3)]))).1 !! "call-1"
    = Some {| Gemini.name := "getWeather";
              Gemini.args := SampleJSON.stringify (JObj merged);
              Gemini.index := 0 |}
    ∧ last_write_wins [("a", JNum 1)] [("a", JNum 2); ("b", JNum 3)] merged.
Proof.
  apply (gemini_merge_is_shallow_last_write_wins
           Samples.clock Samples.ids SampleJSON.parse SampleJSON.stringify
           "gemini-2.5-flash" (Samples.clock 0) Samples.after_a1
           (Samples.fragment (JObj [("a", JNum 2); ("b", JNum 3)])) "call-1"
           {| Gemini.name := "getWeather";
              Gemini.args := SampleJSON.stringify (JObj [("a", JNum 1)]);
              Gemini.index := 0 |}).
  - reflexivity.
  - discriminate.
  - reflexivity.
  - reflexivity.
  - left. reflexivity.
  - by apply (bool_decide_unpack _).
  - by apply (bool_decide_unpack _).
Defined.

(** The two merges of the specification: [{a:1}] then [{b:2}] gives
    [{a:1,b:2}], and [{a:1}] then [{a:2}] gives [{a:2}]. *)
Example gemini_merge_disjoint_keys :
  Samples.merged_args (JObj [("b", JNum 2)])
  = Some (SampleJSON.stringify (JObj [("a", JNum 1); ("b", JNum 2)])).
Proof. reflexivity. Qed.

Example gemini_merge_same_key :
  Samples.merged_args (JObj [("a", JNum 2)])
  = Some (SampleJSON.stringify (JObj [("a", JNum 2)])).
Proof. reflexivity. Qed.

(** ** Name and index of a tool-call record *)

Lemma keeps_records_refl (st st' : Gemini.State) :
  Gemini.toolCallMap st' = Gemini.toolCallMap st → keeps_records st st'.
Proof. intros Hmap k d Hd. exists d. by rewrite Hmap. Qed.

Lemma keeps_records_trans (st1 st2 st3 : Gemini.State) :
  keeps_records st1 st2 → keeps_records st2 st3 → keeps_records st1 st3.
Proof.
  intros H12 H23 k d Hd.
  destruct (H12 k d Hd) as (d2 & Hd2 & Hn2 & Hi2).
  destruct (H23 k d2 Hd2) as (d3 & Hd3 & Hn3 & Hi3).
  exists d3. split; [done|]. split; congruence.
Qed.

Lemma keeps_records_run_loop {X : Type} (P : X → Prop)
    (body : Gemini.State → X → Gemini.State * list StreamChunk) :
  (∀ st x, P x → keeps_records st (body st x).1) →
  ∀ xs st, Forall P xs → keeps_records st (run_loop body st xs).1.
Proof.
  intros Hbody xs. induction xs as [|x xs IH]; intros st Hxs; simpl.
  - by apply keeps_records_refl.
  - apply Forall_cons in Hxs as [Hx Hxs].
    specialize (Hbody st x Hx). destruct (body st x) as [st1 o1].
    specialize (IH st1 Hxs). destruct (run_loop body st1 xs) as [st2 o2].
    by eapply keeps_records_trans.
Qed.

Section gemini_records.
Variable Date_now : nat → Z.
Variable generateId : nat → string.
Variable JSON_parse : string → option json.
Variable JSON_stringify : json → string.

(** What a fragment does to the record under its key. *)
Lemma gemini_function_call_part_record (model : string) (ts : Z)
    (st : Gemini.State) (fc : Gemini.FunctionCall) :
  let key := (Gemini.tool_call_id Date_now st fc).2 in
  let st' := (Gemini.function_call_part Date_now generateId JSON_parse
                JSON_stringify model ts st fc).1 in
  (∀ k, k ≠ key → Gemini.toolCallMap st' !! k = Gemini.toolCallMap st !! k)
  ∧ Gemini.toolCallMap st' !! key
    = Some match Gemini.toolCallMap st !! key with
           | None =>
               {| Gemini.name := string_or (Gemini.fc_name fc) "";
                  Gemini.args :=
                    Gemini.args_text JSON_stringify (Gemini.function_args fc);
                  Gemini.index := Gemini.nextToolIndex st |}
           | Some d =>
               Gemini.merged JSON_parse JSON_stringify d
                 (Gemini.function_args fc)
           end.
Proof.
  unfold Gemini.function_call_part.
  pose proof (gemini_tool_call_id_map Date_now st fc) as Hmap.
  assert (Gemini.nextToolIndex (Gemini.tool_call_id Date_now st fc).1
          = Gemini.nextToolIndex st) as Hnext.
  { unfold Gemini.tool_call_id. by destruct (truthy_string _). }
  destruct (Gemini.tool_call_id Date_now st fc) as [st1 key].
  simpl in *. rewrite Hmap.
  destruct (Gemini.toolCallMap st !! key) as [d|]; simpl;
    rewrite ?Hnext, lookup_insert_eq; (split; [|done]);
    intros k Hk; by rewrite lookup_insert_ne.
Qed.

Lemma gemini_function_call_part_keeps (model : string) (ts : Z)
    (st : Gemini.State) (fc : Gemini.FunctionCall) :
  keeps_records st
    (Gemini.function_call_part Date_now generateId JSON_parse JSON_stringify
       model ts st fc).1.
Proof.
  destruct (gemini_function_call_part_record model ts st fc) as [Hother Hkey].
  intros k d Hd.
  destruct (decide (k = (Gemini.tool_call_id Date_now st fc).2)) as [->|Hne].
  - rewrite Hkey, Hd. by eexists.
  - rewrite (Hother k Hne). by exists d.
Qed.

Lemma gemini_process_part_keeps (model : string) (ts : Z)
    (st : Gemini.State) (part : Gemini.Part) :
  keeps_records st
    (Gemini.process_part Date_now generateId JSON_parse JSON_stringify
       model ts st part).1.
Proof.
  unfold Gemini.process_part.
  assert (keeps_records st (Gemini.text_part generateId model ts st part).1)
    as H1.
  { unfold Gemini.text_part. repeat case_match; by apply keeps_records_refl. }
  destruct (Gemini.text_part generateId model ts st part) as [st1 out1].
  destruct (Gemini.part_functionCall part) as [fc|]; [|done].
  pose proof (gemini_function_call_part_keeps model ts st1 fc) as H2.
  destruct (Gemini.function_call_part _ _ _ _ _ _ st1 fc) as [st2 out2].
  by eapply keeps_records_trans.
Qed.

Lemma gemini_process_chunk_keeps (model : string) (ts : Z)
    (st : Gemini.State) (chunk : Gemini.GenerateContentResponse) :
  streaming_chunk chunk →
  keeps_records st
    (Gemini.process_chunk Date_now generateId JSON_parse JSON_stringify
       model ts st chunk).1.
Proof.
  intros Hchunk. unfold Gemini.process_chunk.
  set (r1 := match Gemini.parts0 chunk with Some _ => _ | None => _ end).
  assert (keeps_records st r1.1) as H1.
  { subst r1. destruct (Gemini.parts0 chunk) as [parts|].
    - apply (keeps_records_run_loop (λ _, True)); [|by apply Forall_true].
      intros. apply gemini_process_part_keeps.
    - unfold Gemini.data_part. case_match; by apply keeps_records_refl. }
  destruct r1 as [st1 out1].
  assert (keeps_records st1
            (Gemini.finish_part Date_now generateId JSON_stringify
               model ts st1 chunk).1) as H2.
  { unfold Gemini.finish_part, streaming_chunk in *.
    destruct (Gemini.finishReason0 chunk) as [reason|];
      [|by apply keeps_records_refl].
    rewrite decide_False by congruence.
    case_decide; by apply keeps_records_refl. }
  destruct (Gemini.finish_part _ _ _ _ _ st1 chunk) as [st2 out2].
  by eapply keeps_records_trans.
Qed.
End gemini_records.

(** C8 (as amended). A record takes its name and its index when it is
    created, from the first fragment seen for its key: the name is that
    fragment's name, or the empty string when the fragment carries none, and
    the index is the number of records created before.  A later fragment of
    the same key changes the arguments only, and no part or chunk processed
    afterwards changes the name or the index of a record. *)
Theorem gemini_record_name_and_index_fixed_at_creation
    (Date_now : nat → Z) (generateId : nat → string)
    (JSON_parse : string → option json) (JSON_stringify : json → string)
    (model : string) (ts : Z) (st : Gemini.State) (fc : Gemini.FunctionCall)
    (parts : list Gemini.Part)
    (chunks : list Gemini.GenerateContentResponse) :
  Forall streaming_chunk chunks →
  let key := (Gemini.tool_call_id Date_now st fc).2 in
  let st' := (Gemini.function_call_part Date_now generateId JSON_parse
                JSON_stringify model ts st fc).1 in
  match Gemini.toolCallMap st !! key with
  | None =>
      Gemini.toolCallMap st' !! key
      = Some {| Gemini.name := string_or (Gemini.fc_name fc) "";
                Gemini.args :=
                  Gemini.args_text JSON_stringify (Gemini.function_args fc);
                Gemini.index := Gemini.nextToolIndex st |}
  | Some d =>
      ∃ args', Gemini.toolCallMap st' !! key
               = Some {| Gemini.name := Gemini.name d;
                         Gemini.args := args';
                         Gemini.index := Gemini.index d |}
  end
  ∧ keeps_records st
      (run_loop (Gemini.process_part Date_now generateId JSON_parse
                   JSON_stringify model ts) st parts).1
  ∧ keeps_records st
      (run_loop (Gemini.process_chunk Date_now generateId JSON_parse
                   JSON_stringify model ts) st chunks).1.
Proof.
  intros Hchunks key st'. split; [|split].
  - destruct (gemini_function_call_part_record Date_now generateId JSON_parse
                JSON_stringify model ts st fc) as [_ Hkey].
    fold key st' in Hkey. rewrite Hkey.
    destruct (Gemini.toolCallMap st !! key); [by eexists | done].
  - apply (keeps_records_run_loop (λ _, True)); [|by apply Forall_true].
    intros. apply gemini_process_part_keeps.
  - apply (keeps_records_run_loop streaming_chunk); [|done].
    intros. by apply gemini_process_chunk_keeps.
Qed.

Lemma gemini_record_name_and_index_fixed_at_creation_witness :
  (∃ args', Gemini.toolCallMap
              (Samples.gemini_step Samples.after_a1
                 (Samples.fragment (JObj [("b", JNum 2)]))).1 !! "call-1"
            = Some {| Gemini.name := "getWeather"; Gemini.args := args';
                      Gemini.index := 0 |})
  ∧ keeps_records Samples.after_a1
      (run_loop (Gemini.process_part Samples.clock Samples.ids SampleJSON.parse
                   SampleJSON.stringify "gemini-2.5-flash" (Samples.clock 0))
         Samples.after_a1 [Samples.text_part "Sunny."]).1
  ∧ keeps_records Samples.after_a1
      (run_loop (Gemini.process_chunk Samples.clock Samples.ids SampleJSON.parse
                   SampleJSON.stringify "gemini-2.5-flash" (Samples.clock 0))
         Samples.after_a1 (events Samples.gemini_weather)).1.
Proof.
  apply (gemini_record_name_and_index_fixed_at_creation
           Samples.clock Samples.ids SampleJSON.parse SampleJSON.stringify
           "gemini-2.5-flash" (Samples.clock 0) Samples.after_a1
           (Samples.fragment (JObj [("b", JNum 2)]))
           [Samples.text_part "Sunny."] (events Samples.gemini_weather)).
  repeat constructor. discriminate.
Defined.

(** C8 (as stated) fails: when the first fragment of a call carries no name,
    the record's name stays empty although a later fragment carries one. *)
Lemma gemini_name_not_taken_from_later_fragment :
  Gemini.name <$>
    Gemini.toolCallMap (Samples.gemini_state Samples.gemini_late_name)
      !! "call-1" = Some ""
  ∧ Samples.tool_call_names
      (emitted (Samples.gemini_run (inr Samples.gemini_late_name))) = [""; ""].
Proof. split; reflexivity. Qed.

(** ** Synthesized keys *)

Lemma occurs_append (x : ascii) (s d : string) :
  occurs x (s +:+ String x d).
Proof. induction s as [|c s IH]; simpl; [by left | by right]. Qed.

Lemma append_suffix_inj (x : ascii) (s1 s2 d1 d2 : string) :
  ¬ occurs x d1 → ¬ occurs x d2 →
  s1 +:+ String x d1 = s2 +:+ String x d2 → d1 = d2.
Proof.
  intros H1 H2. revert s2.
  induction s1 as [|c1 s1 IH]; intros [|c2 s2]; simpl; intros Heq.
  - by simplify_eq.
  - simplify_eq. destruct H1. apply occurs_append.
  - simplify_eq. destruct H2. apply occurs_append.
  - simplify_eq. by eapply IH.
Qed.

Lemma pretty_N_go_no_underscore (x : N) (s : string) :
  ¬ occurs "_" s → ¬ occurs "_" (pretty_N_go x s).
Proof.
  revert s. induction (N.lt_wf_0 x) as [x _ IH]; intros s Hs.
  destruct (decide (x = 0)%N) as [->|Hx]; [by rewrite pretty_N_go_0|].
  rewrite pretty_N_go_step by lia. apply IH.
  - apply N.div_lt; lia.
  - simpl. intros [Hc|Hc]; [|done].
    unfold pretty_N_char in Hc. by repeat case_match.
Qed.

Lemma pretty_nat_no_underscore (n : nat) : ¬ occurs "_" (pretty n).
Proof.
  unfold pretty, pretty_nat, pretty, pretty_N.
  case_decide.
  - simpl. by intros [|[]].
  - apply pretty_N_go_no_underscore. simpl. tauto.
Qed.

Lemma synthesized_key_split (name : option string) (now : Z) (counter : nat) :
  Gemini.synthesized_key name now counter
  = (Gemini.template_string name +:+ String "_" (pretty now))
      +:+ String "_" (pretty counter).
Proof. unfold Gemini.synthesized_key. by rewrite append_assoc. Qed.

(** Two synthesized keys with different counters differ. *)
Lemma synthesized_key_counter (name1 name2 : option string) (now1 now2 : Z)
    (counter1 counter2 : nat) :
  Gemini.synthesized_key name1 now1 counter1
  = Gemini.synthesized_key name2 now2 counter2 →
  counter1 = counter2.
Proof.
  rewrite !synthesized_key_split. intros Heq.
  apply append_suffix_inj in Heq; try apply pretty_nat_no_underscore.
  by apply (inj pretty).
Qed.

Lemma synthesized_run_app (Date_now : nat → Z) (lo : nat)
    (keys1 keys2 : list string) :
  synthesized_run Date_now lo keys1 →
  synthesized_run Date_now (lo + length keys1) keys2 →
  synthesized_run Date_now lo (keys1 ++ keys2).
Proof.
  unfold synthesized_run. intros H1 H2.
  rewrite length_app, seq_app. by apply Forall2_app.
Qed.

Lemma synthesized_run_NoDup (Date_now : nat → Z) (lo : nat)
    (keys : list string) :
  synthesized_run Date_now lo keys → NoDup keys.
Proof.
  unfold synthesized_run. intros Hrun. apply NoDup_alt. intros i j key Hi Hj.
  destruct (Forall2_lookup_l _ _ _ _ _ Hrun Hi) as (ci & Hci & n1 & r1 & H1).
  destruct (Forall2_lookup_l _ _ _ _ _ Hrun Hj) as (cj & Hcj & n2 & r2 & H2).
  apply lookup_seq in Hci as [-> _]. apply lookup_seq in Hcj as [-> _].
  rewrite H1 in H2. apply synthesized_key_counter in H2. lia.
Qed.

Lemma tool_call_ids_app (o1 o2 : list StreamChunk) :
  tool_call_ids (o1 ++ o2) = tool_call_ids o1 ++ tool_call_ids o2.
Proof. apply omap_app. Qed.

Lemma numbers_silent (Date_now : nat → Z) (st st' : Gemini.State)
    (out : list StreamChunk) :
  Gemini.toolCallMap st' = Gemini.toolCallMap st →
  Gemini.nextToolIndex st' = Gemini.nextToolIndex st →
  tool_call_ids out = [] →
  numbers Date_now st (st', out).
Proof.
  intros Hmap Hnext Hout Hinv. simpl. rewrite Hout. simpl.
  split; [constructor|]. split; [lia|].
  intros k. rewrite Hmap, Hnext. apply Hinv.
Qed.

Lemma numbers_app (Date_now : nat → Z) (st st1 st2 : Gemini.State)
    (o1 o2 : list StreamChunk) :
  numbers Date_now st (st1, o1) → numbers Date_now st1 (st2, o2) →
  numbers Date_now st (st2, o1 ++ o2).
Proof.
  intros H1 H2 Hinv. destruct (H1 Hinv) as (Hr1 & Hn1 & Hi1).
  destruct (H2 Hi1) as (Hr2 & Hn2 & Hi2). simpl in *.
  rewrite tool_call_ids_app, length_app.
  split; [|split; [lia | done]].
  apply synthesized_run_app; [done|]. by rewrite <- Hn1.
Qed.

Lemma numbers_run_loop {X : Type} (Date_now : nat → Z) (P : X → Prop)
    (body : Gemini.State → X → Gemini.State * list StreamChunk) :
  (∀ st x, P x → numbers Date_now st (body st x)) →
  ∀ xs st, Forall P xs → numbers Date_now st (run_loop body st xs).
Proof.
  intros Hbody xs. induction xs as [|x xs IH]; intros st Hxs; simpl.
  - by apply numbers_silent.
  - apply Forall_cons in Hxs as [Hx Hxs].
    specialize (Hbody st x Hx). destruct (body st x) as [st1 o1].
    specialize (IH st1 Hxs). destruct (run_loop body st1 xs) as [st2 o2].
    by eapply numbers_app.
Qed.

(** Storing a record under a key synthesized with the current counter, and
    advancing the counter. *)
Lemma synthesized_below_insert (st st' : Gemini.State) (name : option string)
    (now : Z) (d : Gemini.ToolCallData) :
  Gemini.toolCallMap st'
  = <[Gemini.synthesized_key name now (Gemini.nextToolIndex st) := d]>
      (Gemini.toolCallMap st) →
  Gemini.nextToolIndex st' = S (Gemini.nextToolIndex st) →
  synthesized_below st → synthesized_below st'.
Proof.
  intros Hmap Hnext Hinv k. rewrite Hmap, Hnext, lookup_insert.
  case_decide as Hk.
  - intros _. subst k. eexists _, _, _. split; [done | lia].
  - intros Hsome. destruct (Hinv k Hsome) as (n & t & c & -> & Hc).
    eexists _, _, _. split; [done | lia].
Qed.

Section gemini_keys.
Variable Date_now : nat → Z.
Variable generateId : nat → string.
Variable JSON_parse : string → option json.
Variable JSON_stringify : json → string.

Lemma gemini_tool_call_id_synthesized (st : Gemini.State)
    (fc : Gemini.FunctionCall) :
  truthy_string (Gemini.fc_id fc) = false →
  Gemini.tool_call_id Date_now st fc
  = (Gemini.tick_clock st,
     Gemini.synthesized_key (Gemini.fc_name fc)
       (Date_now (Gemini.clock_reads st)) (Gemini.nextToolIndex st)).
Proof. intros Hid. unfold Gemini.tool_call_id. by rewrite Hid. Qed.

Lemma gemini_function_call_part_numbers (model : string) (ts : Z)
    (st : Gemini.State) (fc : Gemini.FunctionCall) :
  truthy_string (Gemini.fc_id fc) = false →
  numbers Date_now st
    (Gemini.function_call_part Date_now generateId JSON_parse JSON_stringify
       model ts st fc).
Proof.
  intros Hid Hinv. unfold Gemini.function_call_part.
  rewrite (gemini_tool_call_id_synthesized st fc Hid).
  set (key := Gemini.synthesized_key _ _ _).
  destruct (Gemini.toolCallMap (Gemini.tick_clock st) !! key) as [d|] eqn:Hd.
  { destruct (Hinv key) as (n & t & c & Hkey & Hc); [by eexists|].
    apply synthesized_key_counter in Hkey. lia. }
  simpl. split; [|split; [lia|]].
  - repeat constructor. by eexists _, _.
  - by eapply synthesized_below_insert.
Qed.

Lemma gemini_process_part_numbers (model : string) (ts : Z)
    (st : Gemini.State) (part : Gemini.Part) :
  lacks_vendor_id part = true →
  numbers Date_now st
    (Gemini.process_part Date_now generateId JSON_parse JSON_stringify
       model ts st part).
Proof.
  intros Hpart. unfold Gemini.process_part.
  assert (numbers Date_now st (Gemini.text_part generateId model ts st part))
    as H1.
  { unfold Gemini.text_part. repeat case_match; by apply numbers_silent. }
  destruct (Gemini.text_part generateId model ts st part) as [st1 out1].
  unfold lacks_vendor_id in Hpart.
  destruct (Gemini.part_functionCall part) as [fc|].
  - apply negb_true_iff in Hpart.
    pose proof (gemini_function_call_part_numbers model ts st1 fc Hpart) as H2.
    destruct (Gemini.function_call_part _ _ _ _ _ _ st1 fc) as [st2 out2].
    by eapply numbers_app.
  - eapply numbers_app; [done | by apply numbers_silent].
Qed.

Lemma gemini_unexpected_tool_call_part_numbers (model : string) (ts : Z)
    (st : Gemini.State) (part : Gemini.Part) :
  lacks_vendor_id part = true →
  numbers Date_now st
    (Gemini.unexpected_tool_call_part Date_now generateId JSON_stringify
       model ts st part).
Proof.
  intros Hpart. unfold Gemini.unexpected_tool_call_part.
  unfold lacks_vendor_id in Hpart.
  destruct (Gemini.part_functionCall part) as [fc|];
    [|by apply numbers_silent].
  apply negb_true_iff in Hpart.
  rewrite (gemini_tool_call_id_synthesized st fc Hpart).
  intros Hinv. simpl. split; [|split; [lia|]].
  - repeat constructor. by eexists _, _.
  - by eapply synthesized_below_insert.
Qed.

Lemma gemini_process_chunk_numbers (model : string) (ts : Z)
    (st : Gemini.State) (chunk : Gemini.GenerateContentResponse) :
  no_vendor_ids chunk = true →
  numbers Date_now st
    (Gemini.process_chunk Date_now generateId JSON_parse JSON_stringify
       model ts st chunk).
Proof.
  intros Hchunk. unfold Gemini.process_chunk. unfold no_vendor_ids in Hchunk.
  set (r1 := match Gemini.parts0 chunk with Some _ => _ | None => _ end).
  assert (numbers Date_now st r1) as H1.
  { subst r1. destruct (Gemini.parts0 chunk) as [parts|].
    - apply (numbers_run_loop _ (λ part, lacks_vendor_id part = true)).
      + intros. by apply gemini_process_part_numbers.
      + apply Forall_forall. intros part Hin.
        rewrite forallb_forall in Hchunk. by apply Hchunk, list_elem_of_In.
    - unfold Gemini.data_part. case_match; by apply numbers_silent. }
  destruct r1 as [st1 out1].
  assert (numbers Date_now st1
            (Gemini.finish_part Date_now generateId JSON_stringify
               model ts st1 chunk)) as H2.
  { unfold Gemini.finish_part.
    destruct (Gemini.finishReason0 chunk) as [reason|];
      [|by apply numbers_silent].
    set (r2 := if decide (reason = Gemini.UNEXPECTED_TOOL_CALL) then _ else _).
    assert (numbers Date_now st1 r2) as H2.
    { subst r2. case_decide; [|by apply numbers_silent].
      destruct (Gemini.parts0 chunk) as [parts|]; [|by apply numbers_silent].
      apply (numbers_run_loop _ (λ part, lacks_vendor_id part = true)).
      - intros. by apply gemini_unexpected_tool_call_part_numbers.
      - apply Forall_forall. intros part Hin.
        rewrite forallb_forall in Hchunk. by apply Hchunk, list_elem_of_In. }
    destruct r2 as [st2 out2].
    set (r3 := if decide (reason = Gemini.MAX_TOKENS) then _ else _).
    assert (numbers Date_now st2 r3) as H3.
    { subst r3. case_decide; by apply numbers_silent. }
    destruct r3 as [st3 out3].
    eapply numbers_app; [done|]. eapply numbers_app; [done|].
    by apply numbers_silent. }
  destruct (Gemini.finish_part _ _ _ _ _ st1 chunk) as [st2 out2].
  by eapply numbers_app.
Qed.

Lemma gemini_chatStream_numbers (options_model : string)
    (stream : VendorStream Gemini.GenerateContentResponse) :
  forallb no_vendor_ids (events stream) = true →
  synthesized_run Date_now 0
    (tool_call_ids
       (emitted (Gemini.chatStream Date_now generateId JSON_parse
                   JSON_stringify options_model (inr stream)))).
Proof.
  intros Hstream. unfold Gemini.chatStream, Gemini.processStreamChunks.
  assert (numbers Date_now Gemini.initial_state
            (run_loop (Gemini.process_chunk Date_now generateId JSON_parse
                         JSON_stringify options_model (Date_now 0))
               Gemini.initial_state (events stream))) as H.
  { apply (numbers_run_loop _ (λ chunk, no_vendor_ids chunk = true)).
    - intros. by apply gemini_process_chunk_numbers.
    - apply Forall_forall. intros chunk Hin.
      rewrite forallb_forall in Hstream. by apply Hstream, list_elem_of_In. }
  destruct (run_loop _ Gemini.initial_state (events stream)) as [st out].
  destruct H as (Hrun & _ & _).
  { intros k [d Hd]. simpl in Hd. by rewrite lookup_empty in Hd. }
  simpl in *. destruct (failure stream); simpl; [|done].
  rewrite tool_call_ids_app. simpl. by rewrite app_nil_r.
Qed.
End gemini_keys.

Example gemini_two_calls_keys :
  tool_call_ids (emitted (Samples.gemini_run (inr Samples.gemini_two_calls)))
  = ["getWeather_1700000000001_0"; "getWeather_1700000000002_1"].
Proof. reflexivity. Qed.

(** C5 (as stated) fails: the OpenAI adapter gives two different tool calls
    without vendor ids the same key when the clock does not advance between
    them, and the key names neither the function nor a counter; the Gemini
    adapter puts the current reading of the clock into the key, not the
    start time of the stream that the chunks carry as [timestamp]. *)
Lemma openai_synthesized_keys_collide :
  tool_call_ids
    (emitted (OpenAI.chatStream Samples.frozen_clock Samples.ids None
                (inr Samples.oa_two_calls)))
  = ["call_1700000000000"; "call_1700000000000"]
  ∧ Samples.tool_call_names
      (emitted (OpenAI.chatStream Samples.frozen_clock Samples.ids None
                  (inr Samples.oa_two_calls)))
    = ["getWeather"; "getTime"]
  ∧ tool_call_ids (emitted (Samples.gemini_run (inr Samples.gemini_two_calls)))
    = ["getWeather_1700000000001_0"; "getWeather_1700000000002_1"]
  ∧ Samples.tool_call_timestamps
      (emitted (Samples.gemini_run (inr Samples.gemini_two_calls)))
    = [1700000000000; 1700000000000]%Z.
Proof. repeat split; reflexivity. Qed.

(** ** The response bridge *)

Lemma wire_object_not_sentinel (members : string) :
  wire_record (json_object members) ≠ wire_sentinel.
Proof. unfold wire_sentinel, wire_record, json_object. by simpl. Qed.

Lemma wire_record_inj (payload1 payload2 : string) :
  wire_record payload1 = wire_record payload2 → payload1 = payload2.
Proof.
  unfold wire_record. intros Heq. simplify_eq/=.
  revert payload2 Heq.
  induction payload1 as [|c1 p1 IH]; intros [|c2 p2] Heq; simplify_eq/=;
    try done.
  - destruct p2 as [|? [|? ?]]; simplify_eq/=.
  - destruct p1 as [|? [|? ?]]; simplify_eq/=.
  - f_equal. by apply IH.
Qed.

(** C7 (as amended). On the wire, the bridge writes for each chunk the text
    [data: ], the JSON object of the chunk and two line feeds.  When the
    source completes, the records are followed by the sentinel: the text
    [data: [DONE]] and two line feeds; when the source throws, they are
    followed by the record of the error event and nothing else.  The
    sentinel differs from every event record, and a record determines its
    payload.  The PHP handlers do the same with the chunks converted from
    the vendor events. *)
Theorem bridge_records_and_sentinel
    (chunk_members : StreamChunk → string)
    (error_members : string → option string → string)
    (chunks : list StreamChunk) (error : Thrown)
    (Event Chunk Converter : Type)
    (convertEvent : Converter → Event → Converter * list Chunk)
    (convertError : Converter → Thrown → Chunk)
    (php_members : Chunk → string) (converter : Converter)
    (vendor_events : list Event) :
  let record := λ chunk, wire_record (json_object (chunk_members chunk)) in
  let error_record :=
    wire_record
      (json_object
         (error_members
            (if String.eqb (thrown_message error) ""
             then "Unknown error occurred" else thrown_message error)
            (thrown_code error))) in
  let php_record := λ chunk, wire_record (json_object (php_members chunk)) in
  let handler :=
    Bridge.chat_handler Event Chunk Converter convertEvent convertError
      php_members converter in
  let converted := run_loop convertEvent converter vendor_events in
  Bridge.toReadableStream chunk_members error_members
    {| events := chunks; failure := None |}
  = (record <$> chunks)
    ++ ["data: [DONE]" +:+ line_feed +:+ line_feed]
  ∧ Bridge.toReadableStream chunk_members error_members
      {| events := chunks; failure := Some error |}
    = (record <$> chunks) ++ [error_record]
  ∧ Forall (λ r, r ≠ wire_sentinel) ((record <$> chunks) ++ [error_record])
  ∧ (∀ payload1 payload2,
       wire_record payload1 = wire_record payload2 → payload1 = payload2)
  ∧ handler (inr {| events := vendor_events; failure := None |})
    = (php_record <$> converted.2)
      ++ ["data: [DONE]" +:+ line_feed +:+ line_feed]
  ∧ handler (inr {| events := vendor_events; failure := Some error |})
    = (php_record <$> converted.2)
      ++ [php_record (convertError converted.1 error)]
  ∧ handler (inl error) = [php_record (convertError converter error)]
  ∧ Forall (λ r, r ≠ wire_sentinel)
      ((php_record <$> converted.2)
       ++ [php_record (convertError converted.1 error)]).
Proof.
  intros record error_record php_record handler converted.
  split; [done|]. split; [done|]. split.
  { apply Forall_app. split.
    - apply Forall_fmap, Forall_true. intros chunk.
      apply wire_object_not_sentinel.
    - repeat constructor. apply wire_object_not_sentinel. }
  split; [apply wire_record_inj|].
  subst handler converted. unfold Bridge.chat_handler. simpl.
  destruct (run_loop convertEvent converter vendor_events) as [conv' out].
  split; [done|]. split; [done|]. split; [done|].
  apply Forall_app. split.
  - apply Forall_fmap, Forall_true. intros chunk.
    apply wire_object_not_sentinel.
  - repeat constructor. apply wire_object_not_sentinel.
Qed.

(** The records of a two-chunk answer, as they are written. *)
Example bridge_wire_sample :
  Samples.bridge
    (Samples.completes
       [ChunkContent "id-0" "gpt-4o" 7 "4" "4";
        ChunkDone "id-1" "gpt-4o" 7 "stop" None])
  = [ "data: "
      +:+ SampleJSON.stringify
            (JObj [("type", JStr "content"); ("id", JStr "id-0");
                   ("model", JStr "gpt-4o"); ("timestamp", JNum 7);
                   ("delta", JStr "4"); ("content", JStr "4");
                   ("role", JStr "assistant")])
      +:+ line_feed +:+ line_feed;
      "data: "
      +:+ SampleJSON.stringify
            (JObj [("type", JStr "done"); ("id", JStr "id-1");
                   ("model", JStr "gpt-4o"); ("timestamp", JNum 7);
                   ("finishReason", JStr "stop")])
      +:+ line_feed +:+ line_feed;
      "data: [DONE]" +:+ line_feed +:+ line_feed ].
Proof. reflexivity. Qed.

(** C7 (as stated) fails: when the source throws, the last record is the
    error event and the sentinel is not sent. *)
Lemma bridge_no_sentinel_when_source_throws :
  last (Samples.bridge Samples.severed)
  = Some (wire_record
            (json_object
               (Samples.error_members
                  (thrown_message Samples.network_error)
                  (thrown_code Samples.network_error))))
  ∧ length (Samples.bridge Samples.severed) = 2
  ∧ Forall (λ r, r ≠ "data: [DONE]" +:+ line_feed +:+ line_feed)
      (Samples.bridge Samples.severed).
Proof.
  split; [reflexivity|]. split; [reflexivity|].
  repeat constructor; apply wire_object_not_sentinel.
Qed.

(** ** The tool-calling loop *)

Lemma tool_rounds_app (msgs1 msgs2 : list Demo.Message) :
  Demo.tool_rounds (msgs1 ++ msgs2)
  = Demo.tool_rounds msgs1 + Demo.tool_rounds msgs2.
Proof. unfold Demo.tool_rounds. by rewrite List.filter_app, length_app. Qed.

Section demo_loop.
Variable streamChat : list Demo.Message → Emitted StreamChunk.
Variable JSON_parse : string → option json.
Variable calculate : option json → string.

Lemma execute_tools_rounds (calls : list ToolCall) (msgs : list Demo.Message) :
  Demo.tool_rounds (Demo.execute_tools JSON_parse calculate msgs calls).1
  = Demo.tool_rounds msgs.
Proof.
  revert msgs. induction calls as [|call calls IH]; intros msgs; simpl; [done|].
  destruct (Demo.expression_of JSON_parse (tc_arguments call)); [|done].
  rewrite IH, tool_rounds_app. unfold Demo.tool_rounds. simpl. lia.
Qed.

Lemma execute_tools_executable (calls : list ToolCall)
    (msgs : list Demo.Message) :
  Forall (executable JSON_parse) calls →
  (Demo.execute_tools JSON_parse calculate msgs calls).2 = true.
Proof.
  intros Hcalls. revert msgs.
  induction Hcalls as [|call calls [e He] _ IH]; intros msgs; simpl; [done|].
  by rewrite He.
Qed.

(** The loop begins at most [remaining] tool-execution rounds, whatever the
    model answers. *)
Lemma while_loop_rounds_bound (remaining iteration : nat)
    (msgs : list Demo.Message) :
  Demo.tool_rounds
    (Demo.messages
       (Demo.while_loop streamChat JSON_parse calculate remaining iteration msgs))
  ≤ Demo.tool_rounds msgs + remaining.
Proof.
  revert iteration msgs.
  induction remaining as [|remaining IH]; intros iteration msgs; simpl; [lia|].
  destruct (escaped (streamChat msgs)); simpl; [lia|].
  set (calls := Demo.toolCalls (Demo.stream_round streamChat msgs)).
  match goal with
  | |- context [Demo.execute_tools _ _ ?m calls] =>
      pose proof (execute_tools_rounds calls m) as Hexec;
      destruct (Demo.execute_tools JSON_parse calculate m calls) as [msgs' ok]
  end.
  simpl in Hexec. rewrite tool_rounds_app in Hexec.
  change (Demo.tool_rounds [Demo.AssistantMessage _ _]) with 1 in Hexec.
  destruct calls; simpl; [lia|].
  destruct ok; simpl.
  - etrans; [apply IH|]. lia.
  - lia.
Qed.

Lemma while_loop_complete (remaining iteration : nat)
    (msgs : list Demo.Message) :
  (∀ msgs, requests_tool_call streamChat msgs) →
  (∀ msgs, Forall (executable JSON_parse)
             (Demo.toolCalls (Demo.stream_round streamChat msgs))) →
  let r := Demo.while_loop streamChat JSON_parse calculate
             remaining iteration msgs in
  Demo.outcome r = Demo.Complete
  ∧ Demo.tool_rounds (Demo.messages r) = Demo.tool_rounds msgs + remaining
  ∧ Demo.iteration r = iteration + remaining.
Proof.
  intros Hrequests Hexecutable. revert iteration msgs.
  induction remaining as [|remaining IH]; intros iteration msgs; simpl.
  { split; [done|]. split; lia. }
  destruct (Hrequests msgs) as [-> Hcalls].
  pose proof (Hexecutable msgs) as Hexe.
  set (calls := Demo.toolCalls (Demo.stream_round streamChat msgs)) in *.
  match goal with
  | |- context [Demo.execute_tools _ _ ?m calls] =>
      pose proof (execute_tools_rounds calls m) as Hrounds;
      pose proof (execute_tools_executable calls m Hexe) as Hok;
      destruct (Demo.execute_tools JSON_parse calculate m calls) as [msgs' ok]
  end.
  simpl in Hrounds, Hok. subst ok.
  rewrite tool_rounds_app in Hrounds.
  change (Demo.tool_rounds [Demo.AssistantMessage _ _]) with 1 in Hrounds.
  destruct calls; [done|].
  destruct (IH (S iteration) msgs') as (Ho & Hr & Hi).
  split; [done|]. split; lia.
Qed.
End demo_loop.

(** C6 (as amended). The loop begins at most [maxIterations] tool-execution
    rounds and always terminates.  When the model asks for a tool call in
    every round and the arguments of every call parse to a value other than
    [null], it terminates normally after exactly [maxIterations] rounds:
    exactly one for [maxIterations = 1], two for the [demo]. *)
Theorem demo_loop_bounded_by_maxIterations
    (streamChat : list Demo.Message → Emitted StreamChunk)
    (JSON_parse : string → option json) (calculate : option json → string)
    (maxIterations : nat) :
  let r := Demo.tool_loop streamChat JSON_parse calculate maxIterations in
  Demo.tool_rounds (Demo.messages r) ≤ maxIterations
  ∧ ((∀ msgs, requests_tool_call streamChat msgs) →
     (∀ msgs, Forall (executable JSON_parse)
                (Demo.toolCalls (Demo.stream_round streamChat msgs))) →
     Demo.outcome r = Demo.Complete
     ∧ Demo.tool_rounds (Demo.messages r) = maxIterations
     ∧ Demo.iteration r = maxIterations).
Proof.
  unfold Demo.tool_loop. rewrite Nat.sub_0_r. split.
  - apply (while_loop_rounds_bound streamChat JSON_parse calculate
             maxIterations 0 Demo.initial_messages).
  - intros Hrequests Hexecutable.
    apply (while_loop_complete streamChat JSON_parse calculate
             maxIterations 0 Demo.initial_messages Hrequests Hexecutable).
Qed.

Lemma demo_loop_bounded_by_maxIterations_witness :
  let r := Demo.tool_loop Samples.always_calculates SampleJSON.parse
             Samples.calculate 1 in
  Demo.outcome r = Demo.Complete
  ∧ Demo.tool_rounds (Demo.messages r) = 1
  ∧ Demo.iteration r = 1.
Proof.
  apply (demo_loop_bounded_by_maxIterations Samples.always_calculates
           SampleJSON.parse Samples.calculate 1).
  - intros msgs. split; [reflexivity | discriminate].
  - intros msgs. repeat constructor. by eexists.
Defined.

Example demo_two_rounds :
  let r := Demo.demo Samples.always_calculates SampleJSON.parse
             Samples.calculate in
  Demo.outcome r = Demo.Complete ∧ Demo.tool_rounds (Demo.messages r) = 2.
Proof. split; reflexivity. Qed.

(** C6 (as stated) fails: a model that asks for a tool call in every round,
    with arguments that do not parse, sends the loop to the [catch] clause
    in its first round. *)
Lemma demo_loop_caught_on_unparsable_arguments :
  (∀ msgs, requests_tool_call Samples.always_truncated msgs)
  ∧ Demo.outcome
      (Demo.tool_loop Samples.always_truncated SampleJSON.parse
         Samples.calculate 1)
    = Demo.Caught.
Proof. split; [intros msgs; split; [reflexivity | discriminate] | reflexivity]. Qed.

(** * Further properties *)

(** ** Ids and timestamps of the chunks of a Gemini stream *)

Lemma run_loop_Forall {S X C : Type} (body : S → X → S * list C)
    (P : C → Prop) :
  (∀ s x, Forall P (body s x).2) →
  ∀ xs s, Forall P (run_loop body s xs).2.
Proof.
  intros Hbody xs. induction xs as [|x xs IH]; intros s; simpl; [constructor|].
  specialize (Hbody s x). destruct (body s x) as [s1 o1].
  specialize (IH s1). destruct (run_loop body s1 xs) as [s2 o2].
  by apply Forall_app.
Qed.

Lemma draws_ids_nil (generateId : nat → string) (st st' : Gemini.State) :
  Gemini.ids_made st' = Gemini.ids_made st →
  draws_ids generateId st (st', []).
Proof. intros Hids. split; simpl; [done | lia]. Qed.

Lemma draws_ids_one (generateId : nat → string) (st st' : Gemini.State)
    (c : StreamChunk) :
  chunk_id c = generateId (Gemini.ids_made st) →
  Gemini.ids_made st' = S (Gemini.ids_made st) →
  draws_ids generateId st (st', [c]).
Proof. intros Hc Hids. split; simpl; [by rewrite Hc | lia]. Qed.

Lemma draws_ids_app (generateId : nat → string) (st st1 st2 : Gemini.State)
    (o1 o2 : list StreamChunk) :
  draws_ids generateId st (st1, o1) → draws_ids generateId st1 (st2, o2) →
  draws_ids generateId st (st2, o1 ++ o2).
Proof.
  unfold draws_ids. simpl. intros [H1 Hn1] [H2 Hn2].
  rewrite length_app, seq_app, !fmap_app, H1, H2, Hn1.
  split; [done | lia].
Qed.

Lemma draws_ids_run_loop {X : Type} (generateId : nat → string)
    (body : Gemini.State → X → Gemini.State * list StreamChunk) :
  (∀ st x, draws_ids generateId st (body st x)) →
  ∀ xs st, draws_ids generateId st (run_loop body st xs).
Proof.
  intros Hbody xs. induction xs as [|x xs IH]; intros st; simpl.
  - by apply draws_ids_nil.
  - specialize (Hbody st x). destruct (body st x) as [st1 o1].
    specialize (IH st1). destruct (run_loop body st1 xs) as [st2 o2].
    by eapply draws_ids_app.
Qed.

Section gemini_ids.
Variable Date_now : nat → Z.
Variable generateId : nat → string.
Variable JSON_parse : string → option json.
Variable JSON_stringify : json → string.

Lemma gemini_tool_call_id_ids (st : Gemini.State) (fc : Gemini.FunctionCall) :
  Gemini.ids_made (Gemini.tool_call_id Date_now st fc).1 = Gemini.ids_made st.
Proof. unfold Gemini.tool_call_id. by destruct (truthy_string _). Qed.

Lemma gemini_process_part_draws (model : string) (ts : Z)
    (st : Gemini.State) (part : Gemini.Part) :
  draws_ids generateId st
    (Gemini.process_part Date_now generateId JSON_parse JSON_stringify
       model ts st part).
Proof.
  unfold Gemini.process_part.
  assert (draws_ids generateId st
            (Gemini.text_part generateId model ts st part)) as H1.
  { unfold Gemini.text_part.
    destruct (truthy_string _); [|by apply draws_ids_nil].
    destruct (default false _); by apply draws_ids_one. }
  destruct (Gemini.text_part generateId model ts st part) as [st1 out1].
  destruct (Gemini.part_functionCall part) as [fc|].
  - assert (draws_ids generateId st1
              (Gemini.function_call_part Date_now generateId JSON_parse
                 JSON_stringify model ts st1 fc)) as H2.
    { unfold Gemini.function_call_part.
      pose proof (gemini_tool_call_id_ids st1 fc) as Hids.
      destruct (Gemini.tool_call_id Date_now st1 fc) as [st2 key].
      simpl in Hids.
      destruct (Gemini.toolCallMap st2 !! key);
        apply draws_ids_one; simpl; by rewrite Hids. }
    destruct (Gemini.function_call_part _ _ _ _ _ _ st1 fc) as [st2 out2].
    by eapply draws_ids_app.
  - eapply draws_ids_app; [done | by apply draws_ids_nil].
Qed.

Lemma gemini_finish_part_draws (model : string) (ts : Z)
    (st : Gemini.State) (chunk : Gemini.GenerateContentResponse) :
  draws_ids generateId st
    (Gemini.finish_part Date_now generateId JSON_stringify model ts st chunk).
Proof.
  unfold Gemini.finish_part.
  destruct (Gemini.finishReason0 chunk) as [reason|];
    [|by apply draws_ids_nil].
  set (r1 := if decide (reason = Gemini.UNEXPECTED_TOOL_CALL) then _ else _).
  assert (draws_ids generateId st r1) as H1.
  { subst r1. case_decide; [|by apply draws_ids_nil].
    destruct (Gemini.parts0 chunk); [|by apply draws_ids_nil].
    apply draws_ids_run_loop. intros s part.
    unfold Gemini.unexpected_tool_call_part.
    destruct (Gemini.part_functionCall part) as [fc|];
      [|by apply draws_ids_nil].
    pose proof (gemini_tool_call_id_ids s fc) as Hids.
    destruct (Gemini.tool_call_id Date_now s fc) as [s1 key].
    simpl in Hids. apply draws_ids_one; simpl; by rewrite Hids. }
  destruct r1 as [st1 out1].
  set (r2 := if decide (reason = Gemini.MAX_TOKENS) then _ else _).
  assert (draws_ids generateId st1 r2) as H2.
  { subst r2. case_decide; [by apply draws_ids_one | by apply draws_ids_nil]. }
  destruct r2 as [st2 out2].
  eapply draws_ids_app; [done|]. eapply draws_ids_app; [done|].
  by apply draws_ids_one.
Qed.

Lemma gemini_process_chunk_draws (model : string) (ts : Z)
    (st : Gemini.State) (chunk : Gemini.GenerateContentResponse) :
  draws_ids generateId st
    (Gemini.process_chunk Date_now generateId JSON_parse JSON_stringify
       model ts st chunk).
Proof.
  unfold Gemini.process_chunk.
  set (r1 := match Gemini.parts0 chunk with Some _ => _ | None => _ end).
  assert (draws_ids generateId st r1) as H1.
  { subst r1. destruct (Gemini.parts0 chunk).
    - apply draws_ids_run_loop. intros. apply gemini_process_part_draws.
    - unfold Gemini.data_part.
      destruct (truthy_string _);
        [by apply draws_ids_one | by apply draws_ids_nil]. }
  destruct r1 as [st1 out1].
  pose proof (gemini_finish_part_draws model ts st1 chunk) as H2.
  destruct (Gemini.finish_part _ _ _ _ _ st1 chunk) as [st2 out2].
  by eapply draws_ids_app.
Qed.

Lemma gemini_process_chunk_timestamps (model : string) (ts : Z)
    (st : Gemini.State) (chunk : Gemini.GenerateContentResponse) :
  Forall (λ c, chunk_timestamp c = ts)
    (Gemini.process_chunk Date_now generateId JSON_parse JSON_stringify
       model ts st chunk).2.
Proof.
  unfold Gemini.process_chunk.
  set (r1 := match Gemini.parts0 chunk with Some _ => _ | None => _ end).
  assert (Forall (λ c, chunk_timestamp c = ts) r1.2) as H1.
  { subst r1. destruct (Gemini.parts0 chunk).
    - apply run_loop_Forall. intros s part. unfold Gemini.process_part.
      assert (Forall (λ c, chunk_timestamp c = ts)
                (Gemini.text_part generateId model ts s part).2) as Ht.
      { unfold Gemini.text_part. repeat case_match; by repeat constructor. }
      destruct (Gemini.text_part generateId model ts s part) as [s1 o1].
      destruct (Gemini.part_functionCall part) as [fc|]; simpl.
      + unfold Gemini.function_call_part.
        destruct (Gemini.tool_call_id Date_now s1 fc) as [s2 key].
        destruct (Gemini.toolCallMap s2 !! key); simpl;
          apply Forall_app; split; by repeat constructor.
      + by rewrite app_nil_r.
    - unfold Gemini.data_part. case_match; by repeat constructor. }
  destruct r1 as [st1 out1]. unfold Gemini.finish_part.
  destruct (Gemini.finishReason0 chunk) as [reason|]; simpl;
    [|by rewrite app_nil_r].
  set (r2 := if decide (reason = Gemini.UNEXPECTED_TOOL_CALL) then _ else _).
  assert (Forall (λ c, chunk_timestamp c = ts) r2.2) as H2.
  { subst r2. case_decide; [|constructor].
    destruct (Gemini.parts0 chunk); [|constructor].
    apply run_loop_Forall. intros s part.
    unfold Gemini.unexpected_tool_call_part.
    destruct (Gemini.part_functionCall part) as [fc|]; [|constructor].
    destruct (Gemini.tool_call_id Date_now s fc). by repeat constructor. }
  destruct r2 as [st2 out2].
  case_decide; simpl; repeat (apply Forall_app; split);
    by repeat constructor.
Qed.
End gemini_ids.

(** X1. Every chunk yielded by [processStreamChunks] carries an id of its
    own, the ids being the successive results of [generateId], and all of
    them carry the same [timestamp], the time read when the processing
    started. *)
Theorem gemini_chunks_fresh_ids_one_timestamp
    (Date_now : nat → Z) (generateId : nat → string)
    (JSON_parse : string → option json) (JSON_stringify : json → string)
    (result : VendorStream Gemini.GenerateContentResponse) (model : string) :
  let run := Gemini.processStreamChunks Date_now generateId JSON_parse
               JSON_stringify result model in
  let out := emitted run.2 in
  chunk_id <$> out = generateId <$> seq 0 (length out)
  ∧ Gemini.ids_made run.1 = length out
  ∧ Forall (λ c, chunk_timestamp c = Date_now 0) out.
Proof.
  unfold Gemini.processStreamChunks.
  pose proof (draws_ids_run_loop generateId _
    (gemini_process_chunk_draws Date_now generateId JSON_parse JSON_stringify
       model (Date_now 0)) (events result) Gemini.initial_state) as [Hids Hn].
  pose proof (run_loop_Forall _ _
    (gemini_process_chunk_timestamps Date_now generateId JSON_parse
       JSON_stringify model (Date_now 0)) (events result) Gemini.initial_state)
    as Hts.
  destruct (run_loop _ Gemini.initial_state (events result)) as [st out].
  by simpl in *.
Qed.

(** ** Indices of the tool-call records *)

Lemma run_loop_invariant {S X C : Type} (body : S → X → S * list C)
    (I : S → Prop) (P : X → Prop) :
  (∀ s x, P x → I s → I (body s x).1) →
  ∀ xs s, Forall P xs → I s → I (run_loop body s xs).1.
Proof.
  intros Hbody xs. induction xs as [|x xs IH]; intros s Hxs Hs; simpl; [done|].
  apply Forall_cons in Hxs as [Hx Hxs].
  specialize (Hbody s x Hx Hs). destruct (body s x) as [s1 o1].
  specialize (IH s1 Hxs Hbody). by destruct (run_loop body s1 xs).
Qed.

Lemma dense_indices_same (st st' : Gemini.State) :
  Gemini.toolCallMap st' = Gemini.toolCallMap st →
  Gemini.nextToolIndex st' = Gemini.nextToolIndex st →
  dense_indices st → dense_indices st'.
Proof. unfold dense_indices, record_indices. by intros -> ->. Qed.

Lemma dense_indices_create (st st' : Gemini.State) (key : string)
    (d : Gemini.ToolCallData) :
  Gemini.toolCallMap st !! key = None →
  Gemini.toolCallMap st' = <[key := d]> (Gemini.toolCallMap st) →
  Gemini.index d = Gemini.nextToolIndex st →
  Gemini.nextToolIndex st' = S (Gemini.nextToolIndex st) →
  dense_indices st → dense_indices st'.
Proof.
  unfold dense_indices, record_indices. intros Hnone -> Hd -> Hst.
  rewrite (map_to_list_insert _ _ _ Hnone), seq_S. simpl.
  rewrite Hst, Hd. apply Permutation_cons_append.
Qed.

Lemma dense_indices_update (st st' : Gemini.State) (key : string)
    (d d' : Gemini.ToolCallData) :
  Gemini.toolCallMap st !! key = Some d →
  Gemini.toolCallMap st' = <[key := d']> (Gemini.toolCallMap st) →
  Gemini.index d' = Gemini.index d →
  Gemini.nextToolIndex st' = Gemini.nextToolIndex st →
  dense_indices st → dense_indices st'.
Proof.
  unfold dense_indices, record_indices. intros Hsome -> Hd -> Hst.
  rewrite <- Hst, <- (insert_delete_id (Gemini.toolCallMap st) key d Hsome).
  rewrite insert_insert_eq.
  rewrite !map_to_list_insert by apply lookup_delete_eq.
  simpl. by rewrite Hd.
Qed.

Section gemini_indices.
Variable Date_now : nat → Z.
Variable generateId : nat → string.
Variable JSON_parse : string → option json.
Variable JSON_stringify : json → string.

Lemma gemini_function_call_part_dense (model : string) (ts : Z)
    (st : Gemini.State) (fc : Gemini.FunctionCall) :
  dense_indices st →
  dense_indices
    (Gemini.function_call_part Date_now generateId JSON_parse JSON_stringify
       model ts st fc).1.
Proof.
  intros Hst. unfold Gemini.function_call_part.
  pose proof (gemini_tool_call_id_map Date_now st fc) as Hmap.
  assert (Gemini.nextToolIndex (Gemini.tool_call_id Date_now st fc).1
          = Gemini.nextToolIndex st) as Hnext.
  { unfold Gemini.tool_call_id. by destruct (truthy_string _). }
  destruct (Gemini.tool_call_id Date_now st fc) as [st1 key]. simpl in *.
  destruct (Gemini.toolCallMap st1 !! key) as [d|] eqn:Hd; simpl.
  - eapply (dense_indices_update st _ key d); simpl;
      [by rewrite <- Hmap | by rewrite Hmap | done | done | done].
  - eapply (dense_indices_create st _ key); simpl;
      [by rewrite <- Hmap | by rewrite Hmap | done | by rewrite Hnext | done].
Qed.

Lemma gemini_process_part_dense (model : string) (ts : Z)
    (st : Gemini.State) (part : Gemini.Part) :
  dense_indices st →
  dense_indices
    (Gemini.process_part Date_now generateId JSON_parse JSON_stringify
       model ts st part).1.
Proof.
  intros Hst. unfold Gemini.process_part.
  assert (dense_indices (Gemini.text_part generateId model ts st part).1) as H1.
  { unfold Gemini.text_part.
    repeat case_match; by eapply dense_indices_same. }
  destruct (Gemini.text_part generateId model ts st part) as [st1 out1].
  destruct (Gemini.part_functionCall part) as [fc|]; [|done].
  pose proof (gemini_function_call_part_dense model ts st1 fc H1) as H2.
  by destruct (Gemini.function_call_part _ _ _ _ _ _ st1 fc).
Qed.

Lemma gemini_process_chunk_dense (model : string) (ts : Z)
    (st : Gemini.State) (chunk : Gemini.GenerateContentResponse) :
  streaming_chunk chunk → dense_indices st →
  dense_indices
    (Gemini.process_chunk Date_now generateId JSON_parse JSON_stringify
       model ts st chunk).1.
Proof.
  intros Hchunk Hst. unfold Gemini.process_chunk.
  set (r1 := match Gemini.parts0 chunk with Some _ => _ | None => _ end).
  assert (dense_indices r1.1) as H1.
  { subst r1. destruct (Gemini.parts0 chunk) as [parts|].
    - apply (run_loop_invariant _ dense_indices (λ _, True));
        [|by apply Forall_true|done].
      intros s part _. apply gemini_process_part_dense.
    - unfold Gemini.data_part. case_match; by eapply dense_indices_same. }
  destruct r1 as [st1 out1]. simpl in H1.
  unfold Gemini.finish_part, streaming_chunk in *.
  destruct (Gemini.finishReason0 chunk) as [reason|]; [|done].
  rewrite decide_False by congruence.
  case_decide; simpl; by eapply dense_indices_same.
Qed.
End gemini_indices.

(** X2. As long as no chunk reports the finish reason
    [UNEXPECTED_TOOL_CALL], the records accumulated by [processStreamChunks]
    carry the indices 0, 1, ..., n - 1, each exactly once, where n is both
    the number of records and the next index to be given. *)
Theorem gemini_record_indices_dense
    (Date_now : nat → Z) (generateId : nat → string)
    (JSON_parse : string → option json) (JSON_stringify : json → string)
    (result : VendorStream Gemini.GenerateContentResponse) (model : string) :
  Forall streaming_chunk (events result) →
  let st := (Gemini.processStreamChunks Date_now generateId JSON_parse
               JSON_stringify result model).1 in
  record_indices st ≡ₚ seq 0 (Gemini.nextToolIndex st)
  ∧ size (Gemini.toolCallMap st) = Gemini.nextToolIndex st.
Proof.
  intros Hchunks. unfold Gemini.processStreamChunks.
  pose proof (run_loop_invariant
    (Gemini.process_chunk Date_now generateId JSON_parse JSON_stringify
       model (Date_now 0)) dense_indices streaming_chunk
    (λ s x, gemini_process_chunk_dense Date_now generateId JSON_parse
              JSON_stringify model (Date_now 0) s x)
    (events result) Gemini.initial_state Hchunks) as Hdense.
  destruct (run_loop _ Gemini.initial_state (events result)) as [st out].
  simpl in *. assert (dense_indices st) as Hst.
  { apply Hdense. unfold dense_indices, record_indices. simpl.
    by rewrite map_to_list_empty. }
  split; [done|].
  apply Permutation_length in Hst. unfold record_indices in Hst.
  rewrite length_fmap, length_seq, length_map_to_list in Hst. done.
Qed.

Lemma gemini_record_indices_dense_witness :
  let st := Samples.gemini_state Samples.gemini_two_calls in
  record_indices st ≡ₚ seq 0 (Gemini.nextToolIndex st)
  ∧ size (Gemini.toolCallMap st) = Gemini.nextToolIndex st.
Proof.
  apply (gemini_record_indices_dense Samples.clock Samples.ids SampleJSON.parse
           SampleJSON.stringify Samples.gemini_two_calls "gemini-2.5-flash").
  repeat constructor; discriminate.
Defined.

(** ** The text of a Gemini response *)

Lemma text_fields_app (o1 o2 : list StreamChunk) :
  text_fields (o1 ++ o2) = text_fields o1 ++ text_fields o2.
Proof. apply omap_app. Qed.

Lemma text_fields_run_loop {S X : Type}
    (body : S → X → S * list StreamChunk) (texts : X → list string) :
  (∀ s x, text_fields (body s x).2 = texts x) →
  ∀ xs s, text_fields (run_loop body s xs).2 = xs ≫= texts.
Proof.
  intros Hbody xs. induction xs as [|x xs IH]; intros s; simpl; [done|].
  specialize (Hbody s x). destruct (body s x) as [s1 o1].
  specialize (IH s1). destruct (run_loop body s1 xs) as [s2 o2].
  simpl in *. by rewrite text_fields_app, Hbody, IH.
Qed.

Lemma extract_text_fold (acc : string) (parts : list Gemini.Part) :
  foldl (λ textContent part,
           if truthy_string (Gemini.part_text part)
           then textContent +:+ default "" (Gemini.part_text part)
           else textContent) acc parts
  = acc +:+ concat_strings (parts ≫= part_texts).
Proof.
  revert acc. induction parts as [|part parts IH]; intros acc; simpl.
  - by rewrite append_empty_r.
  - rewrite IH, concat_strings_app. unfold part_texts.
    destruct (truthy_string _); simpl.
    + by rewrite append_empty_r, append_assoc.
    + done.
Qed.

Section gemini_text.
Variable Date_now : nat → Z.
Variable generateId : nat → string.
Variable JSON_parse : string → option json.
Variable JSON_stringify : json → string.

Lemma gemini_process_part_texts (model : string) (ts : Z)
    (st : Gemini.State) (part : Gemini.Part) :
  text_fields
    (Gemini.process_part Date_now generateId JSON_parse JSON_stringify
       model ts st part).2 = part_texts part.
Proof.
  unfold Gemini.process_part, part_texts.
  assert (text_fields (Gemini.text_part generateId model ts st part).2
          = if truthy_string (Gemini.part_text part)
            then [default "" (Gemini.part_text part)] else []) as H1.
  { unfold Gemini.text_part. destruct (truthy_string _); [|done].
    by destruct (default false _). }
  destruct (Gemini.text_part generateId model ts st part) as [st1 out1].
  simpl in H1.
  destruct (Gemini.part_functionCall part) as [fc|]; simpl.
  - unfold Gemini.function_call_part.
    destruct (Gemini.tool_call_id Date_now st1 fc) as [st2 key].
    destruct (Gemini.toolCallMap st2 !! key); simpl;
      by rewrite text_fields_app, H1, app_nil_r.
  - by rewrite app_nil_r.
Qed.

Lemma gemini_finish_part_texts (model : string) (ts : Z)
    (st : Gemini.State) (chunk : Gemini.GenerateContentResponse) :
  text_fields
    (Gemini.finish_part Date_now generateId JSON_stringify model ts st chunk).2
  = [].
Proof.
  unfold Gemini.finish_part.
  destruct (Gemini.finishReason0 chunk) as [reason|]; [|done].
  set (r1 := if decide (reason = Gemini.UNEXPECTED_TOOL_CALL) then _ else _).
  assert (text_fields r1.2 = []) as H1.
  { subst r1. case_decide; [|done].
    destruct (Gemini.parts0 chunk) as [parts|]; [|done].
    rewrite (text_fields_run_loop _ (λ _, [])).
    - by induction parts.
    - intros s part. unfold Gemini.unexpected_tool_call_part.
      destruct (Gemini.part_functionCall part) as [fc|]; [|done].
      by destruct (Gemini.tool_call_id Date_now s fc). }
  destruct r1 as [st1 out1]. simpl in *.
  case_decide; simpl; by rewrite text_fields_app, H1.
Qed.
End gemini_text.

(** X3. For a response that has parts, the texts that the streaming path
    yields for it -- content deltas and thinking contents, in order -- add up
    to the text that [extractTextFromResponse] returns for the same response:
    the structured-output path keeps the thoughts that the stream sets
    apart. *)
Theorem gemini_extracted_text_is_streamed_text
    (Date_now : nat → Z) (generateId : nat → string)
    (JSON_parse : string → option json) (JSON_stringify : json → string)
    (model : string) (ts : Z) (st : Gemini.State)
    (response : Gemini.GenerateContentResponse) :
  is_Some (Gemini.parts0 response) →
  concat_strings
    (text_fields
       (Gemini.process_chunk Date_now generateId JSON_parse JSON_stringify
          model ts st response).2)
  = GeminiText.extractTextFromResponse response.
Proof.
  intros [parts Hparts].
  unfold Gemini.process_chunk, GeminiText.extractTextFromResponse.
  rewrite Hparts.
  pose proof (text_fields_run_loop _ _
    (gemini_process_part_texts Date_now generateId JSON_parse JSON_stringify
       model ts) parts st) as H1.
  destruct (run_loop _ st parts) as [st1 out1].
  pose proof (gemini_finish_part_texts Date_now generateId JSON_stringify
                model ts st1 response) as H2.
  destruct (Gemini.finish_part _ _ _ _ _ st1 response) as [st2 out2].
  simpl in *. rewrite text_fields_app, H1, H2, app_nil_r.
  by rewrite extract_text_fold.
Qed.

Lemma gemini_extracted_text_is_streamed_text_witness :
  concat_strings
    (text_fields
       (Gemini.process_chunk Samples.clock Samples.ids SampleJSON.parse
          SampleJSON.stringify "gemini-2.5-flash" (Samples.clock 0)
          Gemini.initial_state Samples.gemini_thoughtful).2)
  = GeminiText.extractTextFromResponse Samples.gemini_thoughtful.
Proof.
  apply (gemini_extracted_text_is_streamed_text Samples.clock Samples.ids
           SampleJSON.parse SampleJSON.stringify "gemini-2.5-flash"
           (Samples.clock 0) Gemini.initial_state Samples.gemini_thoughtful).
  by eexists.
Defined.

Example gemini_thoughtful_text :
  GeminiText.extractTextFromResponse Samples.gemini_thoughtful
  = "Let me think. 42".
Proof. reflexivity. Qed.

(** ** The requests of the Gemini adapter *)

Lemma map_throwing_inr {A B : Type} (f : A → Thrown + B) (P : A → Prop)
    (Q : A → B → Prop) (l : list A) :
  (∀ x, P x → ∃ y, f x = inr y ∧ Q x y) →
  Forall P l →
  ∃ ys, GeminiText.map_throwing f l = inr ys ∧ Forall2 Q l ys.
Proof.
  intros Hf Hl. induction Hl as [|x l Hx _ (ys & IH & HQ)]; simpl.
  - by eexists.
  - destruct (Hf x Hx) as (y & -> & Hy). rewrite IH.
    eexists. split; [done|]. by constructor.
Qed.

Lemma map_throwing_inl {A B : Type} (f : A → Thrown + B) (l : list A)
    (error : Thrown) :
  GeminiText.map_throwing f l = inl error →
  ∃ x, x ∈ l ∧ f x = inl error.
Proof.
  induction l as [|x l IH]; simpl; [done|].
  destruct (f x) as [e|y] eqn:Hfx.
  - intros [= ->]. exists x. split; [left | done].
  - destruct (GeminiText.map_throwing f l) as [e|ys]; [|done].
    intros [= ->]. destruct IH as (x' & Hin & Hx'); [done|].
    exists x'. split; [by right | done].
Qed.

Lemma convert_supported_part (part : GeminiText.ContentPart) :
  supported_part part = true →
  ∃ p, GeminiText.convertContentPartToGemini part = inr p
       ∧ function_call_names [p] = [].
Proof.
  destruct part as [content|kind [] value mime|type]; simpl; intros Hs;
    try done; by eexists.
Qed.

Lemma converted_parts_no_function_call (parts : list GeminiText.ContentPart)
    (converted : list GeminiText.RequestPart) :
  GeminiText.map_throwing GeminiText.convertContentPartToGemini parts
  = inr converted →
  function_call_names converted = [].
Proof.
  revert converted. induction parts as [|part parts IH]; simpl;
    intros converted.
  - by intros [= <-].
  - destruct (GeminiText.convertContentPartToGemini part) as [e|p] eqn:Hp;
      [done|].
    destruct (GeminiText.map_throwing _ parts) as [e|ps]; [done|].
    intros [= <-]. specialize (IH ps eq_refl).
    destruct part as [c|k [] v m|t]; simplify_eq/=; exact IH.
Qed.

Section gemini_requests.
Variable JSON_parse : string → option json.

Lemma format_message_supported (msg : GeminiText.ModelMessage) :
  supported_message msg = true →
  ∃ c, GeminiText.format_message JSON_parse msg = inr c
       ∧ GeminiText.rc_parts c ≠ []
       ∧ GeminiText.rc_role c
         = if decide (GeminiText.msg_role msg = GeminiText.assistant)
           then GeminiText.role_model else GeminiText.role_user.
Proof.
  intros Hmsg. unfold GeminiText.format_message.
  assert (∃ ps, GeminiText.content_request_parts (GeminiText.msg_content msg)
                = inr ps) as [ps ->].
  { unfold supported_message in Hmsg. unfold GeminiText.content_request_parts.
    destruct (GeminiText.msg_content msg) as [|text|parts]; [by eexists..|].
    destruct (map_throwing_inr GeminiText.convertContentPartToGemini
                (λ p, supported_part p = true) (λ _ _, True) parts)
      as (ys & Hys & _).
    - intros p Hp. destruct (convert_supported_part p Hp) as (y & Hy & _).
      by exists y.
    - apply Forall_forall. intros p Hp.
      rewrite forallb_forall in Hmsg. by apply Hmsg, list_elem_of_In.
    - by exists ys. }
  eexists. split; [done|]. simpl. split.
  - by destruct (ps ++ _).
  - by destruct (GeminiText.msg_role msg).
Qed.

Lemma format_message_function_calls (msg : GeminiText.ModelMessage)
    (c : GeminiText.RequestContent) :
  GeminiText.format_message JSON_parse msg = inr c →
  function_call_names (GeminiText.rc_parts c)
  = match GeminiText.msg_role msg with
    | GeminiText.assistant =>
        tc_name <$> default [] (GeminiText.msg_toolCalls msg)
    | _ => []
    end.
Proof.
  unfold GeminiText.format_message.
  destruct (GeminiText.content_request_parts (GeminiText.msg_content msg))
    as [e|ps] eqn:Hps; [done|].
  intros [= <-]. simpl.
  assert (function_call_names ps = []) as Hnone.
  { unfold GeminiText.content_request_parts in Hps.
    destruct (GeminiText.msg_content msg) as [|text|parts].
    - by simplify_eq.
    - simplify_eq. by destruct (String.eqb text "").
    - by eapply converted_parts_no_function_call. }
  assert (function_call_names (GeminiText.tool_response_request_parts msg) = [])
    as Hresp.
  { unfold GeminiText.tool_response_request_parts.
    destruct (GeminiText.msg_role msg); try done.
    by destruct (truthy_string _). }
  assert (function_call_names (GeminiText.tool_call_request_parts JSON_parse msg)
          = match GeminiText.msg_role msg with
            | GeminiText.assistant =>
                tc_name <$> default [] (GeminiText.msg_toolCalls msg)
            | _ => []
            end) as Hcalls.
  { unfold GeminiText.tool_call_request_parts.
    destruct (GeminiText.msg_role msg); try done.
    destruct (GeminiText.msg_toolCalls msg) as [calls|]; [|done]. simpl.
    induction calls as [|call calls IH]; [done|].
    simpl. f_equal. exact IH. }
  assert (function_call_names
            (ps ++ GeminiText.tool_call_request_parts JSON_parse msg
             ++ GeminiText.tool_response_request_parts msg)
          = match GeminiText.msg_role msg with
            | GeminiText.assistant =>
                tc_name <$> default [] (GeminiText.msg_toolCalls msg)
            | _ => []
            end) as Hall.
  { unfold function_call_names in *.
    by rewrite !omap_app, Hnone, Hresp, Hcalls, app_nil_r. }
  destruct (ps ++ _) as [|p rest] eqn:Hparts; [|done].
  by rewrite <- Hall.
Qed.
End gemini_requests.

(** X4. When every content part of every message is of a known type,
    [formatMessages] returns one content per message, in order; each content
    has at least one part, and its role is [model] for an assistant message
    and [user] for every other role. *)
Theorem gemini_formatMessages_supported
    (JSON_parse : string → option json)
    (messages : list GeminiText.ModelMessage) :
  forallb supported_message messages = true →
  ∃ contents,
    GeminiText.formatMessages JSON_parse messages = inr contents
    ∧ length contents = length messages
    ∧ Forall (λ c, GeminiText.rc_parts c ≠ []) contents
    ∧ GeminiText.rc_role <$> contents
      = (λ msg, if decide (GeminiText.msg_role msg = GeminiText.assistant)
                then GeminiText.role_model else GeminiText.role_user)
        <$> messages.
Proof.
  intros Hall.
  destruct (map_throwing_inr (GeminiText.format_message JSON_parse)
              (λ msg, supported_message msg = true)
              (λ msg c,
                 GeminiText.rc_parts c ≠ []
                 ∧ GeminiText.rc_role c
                   = if decide (GeminiText.msg_role msg = GeminiText.assistant)
                     then GeminiText.role_model else GeminiText.role_user)
              messages) as (contents & Hcontents & Hrel).
  - intros msg Hmsg. apply (format_message_supported JSON_parse msg Hmsg).
  - apply Forall_forall. intros msg Hin.
    rewrite forallb_forall in Hall. by apply Hall, list_elem_of_In.
  - exists contents. split; [done|].
    split; [symmetry; by eapply Forall2_length|].
    clear Hcontents Hall.
    split.
    + induction Hrel as [|msg c ms cs [Hparts Hrole] Hrel IH].
      * constructor.
      * constructor; [exact Hparts | exact IH].
    + induction Hrel as [|msg c ms cs [Hparts Hrole] Hrel IH]; [done|].
      rewrite !fmap_cons. by rewrite Hrole, IH.
Qed.

Lemma gemini_formatMessages_supported_witness :
  ∃ contents,
    GeminiText.formatMessages SampleJSON.parse Samples.conversation
    = inr contents
    ∧ length contents = 3
    ∧ Forall (λ c, GeminiText.rc_parts c ≠ []) contents
    ∧ GeminiText.rc_role <$> contents
      = [GeminiText.role_user; GeminiText.role_model; GeminiText.role_user].
Proof.
  apply (gemini_formatMessages_supported SampleJSON.parse Samples.conversation).
  reflexivity.
Defined.

(** X5. [formatMessages] throws only for a content part of an unknown type,
    and the error names that type. *)
Theorem gemini_formatMessages_unsupported
    (JSON_parse : string → option json)
    (messages : list GeminiText.ModelMessage) (error : Thrown) :
  GeminiText.formatMessages JSON_parse messages = inl error →
  ∃ msg parts type,
    msg ∈ messages
    ∧ GeminiText.msg_content msg = GeminiText.ContentParts parts
    ∧ GeminiText.UnknownPart type ∈ parts
    ∧ thrown_message error = "Unsupported content part type: " +:+ type.
Proof.
  intros Hthrows. apply map_throwing_inl in Hthrows as (msg & Hin & Hmsg).
  unfold GeminiText.format_message in Hmsg.
  destruct (GeminiText.content_request_parts (GeminiText.msg_content msg))
    as [e|ps] eqn:Hps; [|done].
  simplify_eq. unfold GeminiText.content_request_parts in Hps.
  destruct (GeminiText.msg_content msg) as [|text|parts] eqn:Hcontent;
    [done..|].
  apply map_throwing_inl in Hps as (part & Hpart & Hconv).
  destruct part as [c|k [] v m|type]; simplify_eq/=.
  by exists msg, parts, type.
Qed.

Lemma gemini_formatMessages_unsupported_witness :
  ∃ msg parts type,
    msg ∈ Samples.hologram_conversation
    ∧ GeminiText.msg_content msg = GeminiText.ContentParts parts
    ∧ GeminiText.UnknownPart type ∈ parts
    ∧ "Unsupported content part type: hologram"
      = "Unsupported content part type: " +:+ type.
Proof.
  apply (gemini_formatMessages_unsupported SampleJSON.parse
           Samples.hologram_conversation
           (GeminiText.unsupported_part "hologram")).
  reflexivity.
Defined.

(** X6. In the contents that [formatMessages] returns, the function-call
    parts of a message are the tool calls of an assistant message, one part
    per call, in order and under the same names; no other message and no
    content part gives rise to a function call. *)
Theorem gemini_formatMessages_function_calls
    (JSON_parse : string → option json)
    (messages : list GeminiText.ModelMessage)
    (contents : list GeminiText.RequestContent) :
  GeminiText.formatMessages JSON_parse messages = inr contents →
  (λ c, function_call_names (GeminiText.rc_parts c)) <$> contents
  = (λ msg, match GeminiText.msg_role msg with
            | GeminiText.assistant =>
                tc_name <$> default [] (GeminiText.msg_toolCalls msg)
            | _ => []
            end) <$> messages.
Proof.
  unfold GeminiText.formatMessages. revert contents.
  induction messages as [|msg messages IH]; simpl; intros contents.
  - by intros [= <-].
  - destruct (GeminiText.format_message JSON_parse msg) as [e|c] eqn:Hc;
      [done|].
    destruct (GeminiText.map_throwing _ messages) as [e|cs]; [done|].
    intros [= <-]. rewrite !fmap_cons.
    by rewrite (IH cs eq_refl), (format_message_function_calls _ _ _ Hc).
Qed.

Lemma gemini_formatMessages_function_calls_witness :
  (λ c, function_call_names (GeminiText.rc_parts c))
    <$> (default []
           (match GeminiText.formatMessages SampleJSON.parse
                    Samples.conversation with
            | inr contents => Some contents
            | inl _ => None
            end))
  = [[]; ["getWeather"]; []].
Proof.
  apply (gemini_formatMessages_function_calls SampleJSON.parse
           Samples.conversation).
  reflexivity.
Defined.

(** ** Structured output *)

Lemma string_length_append (a b : string) :
  String.length (a +:+ b) = String.length a + String.length b.
Proof. induction a as [|c a IH]; simpl; [done|]. by rewrite IH. Qed.

Lemma string_length_substring (n m : nat) (s : string) :
  String.length (String.substring n m s) = m `min` (String.length s - n).
Proof.
  revert n m. induction s as [|c s IH]; intros [|n] [|m]; simpl;
    try done; try (rewrite IH; simpl; lia).
Qed.

Lemma string_substring_all (s : string) (m : nat) :
  String.length s ≤ m → String.substring 0 m s = s.
Proof.
  revert m. induction s as [|c s IH]; intros [|m]; simpl; try done; try lia.
  intros Hle. f_equal. apply IH. lia.
Qed.

Lemma parse_failure_message_length (rawText : string) :
  String.length (GeminiText.parse_failure_message rawText) ≤ 255.
Proof.
  unfold GeminiText.parse_failure_message.
  rewrite !string_length_append, string_length_substring.
  change (String.length
            "Failed to parse structured output as JSON. Content: ") with 52.
  destruct (200 <? String.length rawText);
    [change (String.length "...") with 3
    |change (String.length EmptyString) with 0]; lia.
Qed.

(** X7. Whatever makes [structuredOutput] fail, the caller sees an [Error]
    instance without a code.  When the request succeeded and the text of
    the response is not JSON, its message is the fixed prefix followed by
    the text, in full when the text has at most 200 characters, and it never
    exceeds 255 characters; when the request failed with a value that is
    not an [Error], the message is the fixed fallback. *)
Theorem gemini_structuredOutput_failure
    (JSON_parse : string → option json)
    (generated : Thrown + Gemini.GenerateContentResponse) (error : Thrown) :
  GeminiText.structuredOutput JSON_parse generated = inl error →
  thrown_is_Error error = true
  ∧ thrown_code error = None
  ∧ match generated with
    | inl cause =>
        thrown_message error
        = if thrown_is_Error cause then thrown_message cause
          else GeminiText.unknown_structured_message
    | inr result =>
        let rawText := GeminiText.extractTextFromResponse result in
        JSON_parse rawText = None
        ∧ String.length (thrown_message error) ≤ 255
        ∧ (String.length rawText ≤ 200 →
           thrown_message error
           = "Failed to parse structured output as JSON. Content: "
             +:+ rawText)
    end.
Proof.
  unfold GeminiText.structuredOutput.
  destruct generated as [cause|result].
  - by intros [= <-].
  - simpl. destruct (JSON_parse _) as [parsed|] eqn:Hparse; [done|].
    intros [= <-]. simpl. repeat split.
    + apply parse_failure_message_length.
    + intros Hshort. unfold GeminiText.parse_failure_message.
      rewrite string_substring_all by done.
      assert ((200 <? String.length
                 (GeminiText.extractTextFromResponse result)) = false) as ->
        by (apply Nat.ltb_ge; lia).
      by rewrite append_empty_r.
Qed.

Lemma gemini_structuredOutput_failure_witness :
  ∃ error,
    GeminiText.structuredOutput SampleJSON.parse (inr Samples.gemini_prose)
    = inl error
    ∧ thrown_is_Error error = true
    ∧ String.length (thrown_message error) ≤ 255.
Proof.
  eexists. split; [reflexivity|].
  destruct (gemini_structuredOutput_failure SampleJSON.parse
              (inr Samples.gemini_prose) _ eq_refl) as (His & _ & _ & Hlen & _).
  split; [exact His | exact Hlen].
Defined.

(** ** The streaming methods of the OpenAI adapter *)

Lemma omap_run_loop {S X C D : Type} (body : S → X → S * list C)
    (f : C → option D) (g : X → list D) :
  (∀ s x, omap f (body s x).2 = g x) →
  ∀ xs s, omap f (run_loop body s xs).2 = xs ≫= g.
Proof.
  intros Hbody xs. induction xs as [|x xs IH]; intros s; simpl; [done|].
  specialize (Hbody s x). destruct (body s x) as [s1 o1].
  specialize (IH s1). destruct (run_loop body s1 xs) as [s2 o2].
  simpl in *. by rewrite omap_app, Hbody, IH.
Qed.

Section openai_streams.
Variable Date_now : nat → Z.
Variable generateId : nat → string.
Variable options_model : option string.

Lemma openai_tool_calls_part_no_delta (ts : Z) (st : OpenAI.State)
    (chunk : OpenAI.VendorChunk) :
  delta_fields (OpenAI.tool_calls_part Date_now ts st chunk).2 = [].
Proof.
  unfold OpenAI.tool_calls_part.
  destruct (OpenAI.delta0 chunk ≫= OpenAI.delta_tool_calls) as [calls|];
    [|done].
  revert st. induction calls as [|call calls IH]; intros st; [done|].
  simpl. destruct (OpenAI.tool_call_fragment Date_now ts chunk st call)
    as [st1 o1] eqn:Hfrag.
  specialize (IH st1). destruct (run_loop _ st1 calls) as [st2 o2].
  simpl in *. rewrite delta_fields_app, IH, app_nil_r.
  unfold OpenAI.tool_call_fragment in Hfrag.
  destruct (truthy_string (OpenAI.tcd_id call)); by simplify_eq.
Qed.

Lemma openai_process_chunk_deltas (ts : Z) (st : OpenAI.State)
    (chunk : OpenAI.VendorChunk) :
  delta_fields (OpenAI.process_chunk Date_now ts st chunk).2
  = OpenAI.ccc_content <$> OpenAI.completion_chunk chunk.
Proof.
  unfold OpenAI.process_chunk.
  destruct (OpenAI.content_part ts st chunk) as [st1 o1] eqn:Hcontent.
  pose proof (openai_tool_calls_part_no_delta ts st1 chunk) as Htools.
  destruct (OpenAI.tool_calls_part Date_now ts st1 chunk) as [st2 o2].
  simpl in *. rewrite !delta_fields_app, Htools.
  assert (delta_fields (OpenAI.completion_part ts chunk) = []) as ->.
  { unfold OpenAI.completion_part. by destruct (truthy_string _). }
  rewrite !app_nil_r.
  unfold OpenAI.content_part, OpenAI.delta0_content in Hcontent.
  unfold OpenAI.completion_chunk.
  destruct (OpenAI.delta0 chunk) as [delta|]; simpl in *; [|by simplify_eq].
  destruct (truthy_string (OpenAI.delta_content delta)); by simplify_eq.
Qed.

Lemma openai_tool_calls_part_timestamps (ts : Z) (st : OpenAI.State)
    (chunk : OpenAI.VendorChunk) :
  Forall (λ c, chunk_timestamp c = ts)
    (OpenAI.tool_calls_part Date_now ts st chunk).2.
Proof.
  unfold OpenAI.tool_calls_part.
  destruct (OpenAI.delta0 chunk ≫= OpenAI.delta_tool_calls) as [calls|];
    [|constructor].
  apply run_loop_Forall. intros s call. unfold OpenAI.tool_call_fragment.
  destruct (truthy_string (OpenAI.tcd_id call)); simpl; by repeat constructor.
Qed.

Lemma openai_process_chunk_timestamps (ts : Z) (st : OpenAI.State)
    (chunk : OpenAI.VendorChunk) :
  Forall (λ c, chunk_timestamp c = ts)
    (OpenAI.process_chunk Date_now ts st chunk).2.
Proof.
  unfold OpenAI.process_chunk.
  destruct (OpenAI.content_part ts st chunk) as [st1 o1] eqn:Hcontent.
  pose proof (openai_tool_calls_part_timestamps ts st1 chunk) as Htools.
  destruct (OpenAI.tool_calls_part Date_now ts st1 chunk) as [st2 o2].
  simpl in *. rewrite !Forall_app. split_and!; [|done|].
  - unfold OpenAI.content_part in Hcontent.
    destruct (truthy_string _); simplify_eq; by repeat constructor.
  - unfold OpenAI.completion_part.
    destruct (truthy_string _); by repeat constructor.
Qed.
End openai_streams.

(** X8. The two streaming methods of the OpenAI adapter agree on the text:
    over the same vendor stream, the [content] fields yielded by
    [chatCompletionStream] are the [delta] fields of the content chunks
    yielded by [chatStream], in the same order. *)
Theorem openai_streams_agree_on_text (Date_now : nat → Z)
    (generateId : nat → string) (options_model : option string)
    (opened : Thrown + VendorStream OpenAI.VendorChunk) :
  OpenAI.ccc_content <$> emitted (OpenAI.chatCompletionStream opened)
  = delta_fields
      (emitted (OpenAI.chatStream Date_now generateId options_model opened)).
Proof.
  unfold OpenAI.chatCompletionStream, OpenAI.chatStream.
  destruct opened as [e|stream]; [done|].
  set (st0 := OpenAI.Build_State _ _).
  pose proof (omap_run_loop (OpenAI.process_chunk Date_now (Date_now 0)) _ _
                (openai_process_chunk_deltas Date_now (Date_now 0))
                (events stream) st0) as Hloop.
  destruct (run_loop _ st0 (events stream)) as [st out].
  simpl in Hloop.
  assert (delta_fields out = OpenAI.ccc_content <$>
                             (events stream ≫= OpenAI.completion_chunk))
    as Hout.
  { unfold delta_fields. rewrite Hloop. clear.
    induction (events stream) as [|x xs IH]; [done|].
    rewrite !bind_cons, fmap_app. by rewrite IH. }
  destruct (failure stream); simpl; [|by rewrite Hout].
  by rewrite delta_fields_app, Hout, app_nil_r.
Qed.

(** X9. Every chunk that the OpenAI [chatStream] emits, the error chunk of
    a failing iteration included, carries the same timestamp: the first
    reading of the clock, taken before the loop. *)
Theorem openai_chunks_one_timestamp (Date_now : nat → Z)
    (generateId : nat → string) (options_model : option string)
    (opened : Thrown + VendorStream OpenAI.VendorChunk) :
  Forall (λ c, chunk_timestamp c = Date_now 0)
    (emitted (OpenAI.chatStream Date_now generateId options_model opened)).
Proof.
  unfold OpenAI.chatStream. destruct opened as [e|stream]; [constructor|].
  set (st0 := OpenAI.Build_State _ _).
  pose proof (run_loop_Forall (OpenAI.process_chunk Date_now (Date_now 0)) _
                (λ s x, openai_process_chunk_timestamps Date_now (Date_now 0) s x)
                (events stream) st0) as Hloop.
  destruct (run_loop _ st0 (events stream)) as [st out].
  destruct (failure stream); simpl in *; [|done].
  apply Forall_app. split; [done|]. by repeat constructor.
Qed.

(** ** Text completion streaming *)

(** X10. [generateTextStream] never yields an empty string and loses no
    text: the concatenation of what it yields is the concatenation of the
    texts of the first choices of all vendor chunks; a failure of the
    request or of the iteration escapes to the caller. *)
Theorem generateTextStream_texts
    (opened : Thrown + VendorStream OpenAIText.CompletionChunk) :
  let result := OpenAIText.generateTextStream opened in
  Forall (λ text, text ≠ "") (emitted result)
  ∧ match opened with
    | inl error => emitted result = [] ∧ escaped result = Some error
    | inr stream =>
        concat_strings (emitted result)
        = concat_strings
            ((λ chunk, default "" (OpenAIText.text0 chunk)) <$> events stream)
        ∧ escaped result = failure stream
    end.
Proof.
  destruct opened as [error|stream]; simpl.
  - split; [constructor | done].
  - split; [|split; [|done]].
    + apply Forall_forall. intros text Hin.
      apply list_elem_of_omap in Hin as (chunk & _ & Hchunk).
      destruct (OpenAIText.text0 chunk) as [s|]; simpl in *; [|done].
      destruct (String.eqb_spec s ""); simplify_eq/=. done.
    + induction (events stream) as [|chunk chunks IH]; [done|].
      rewrite fmap_cons.
      change (concat_strings (?t :: ?l)) with (t +:+ concat_strings l).
      rewrite <- IH.
      change (omap ?f (chunk :: chunks))
        with (match f chunk with
              | Some text => text :: omap f chunks
              | None => omap f chunks
              end).
      cbv beta. destruct (OpenAIText.text0 chunk) as [s|]; [|reflexivity].
      unfold truthy_string.
      destruct (String.eqb_spec s "") as [->|Hs]; reflexivity.
Qed.

(** X11. Formatting a message for the vendor never changes its role, and
    the formatted message carries a [tool_call_id] exactly when the message
    has the role [tool] and a non-empty [toolCallId], which it then
    carries unchanged. *)
Theorem openai_format_message_role (msg : OpenAIText.ChatMessage) :
  OpenAIText.vendor_role (OpenAIText.format_message msg)
  = OpenAIText.msg_role msg
  ∧ ∀ id,
      OpenAIText.vendor_tool_call_id (OpenAIText.format_message msg) = Some id
      ↔ OpenAIText.msg_role msg = OpenAIText.tool
        ∧ OpenAIText.msg_toolCallId msg = Some id ∧ id ≠ "".
Proof.
  unfold OpenAIText.format_message.
  destruct msg as [role content name toolCalls toolCallId]; simpl.
  destruct toolCallId as [tid|]; simpl.
  - destruct (String.eqb_spec tid "") as [->|Htid]; simpl;
      rewrite ?andb_false_r; simpl.
    + split; [by destruct role, toolCalls|].
      intros id. split; [by destruct role, toolCalls|].
      by intros (_ & [= <-] & ?).
    + rewrite andb_true_r. case_bool_decide as Hrole; simpl.
      * split; [done|]. intros id. split; [by intros [= <-]|].
        by intros (_ & [= <-] & _).
      * split; [by destruct role, toolCalls|].
        intros id. split; [by destruct role, toolCalls|].
        by intros (? & _).
  - rewrite andb_false_r.
    split; [by destruct role, toolCalls|].
    intros id. split; [by destruct role, toolCalls|].
    by intros (_ & ? & _).
Qed.

(** ** The consumers of the canonical stream *)

Lemma demo_map_get_set (index : Z) (call : Demo.Call)
    (m : list (Z * Demo.Call)) :
  Demo.map_get index (Demo.map_set index call m) = Some call.
Proof.
  induction m as [|[i c] m IH]; simpl.
  - by rewrite Z.eqb_refl.
  - destruct (i =? index)%Z eqn:Hi; simpl; by rewrite Hi.
Qed.

Lemma demo_map_get_set_ne (index other : Z) (call : Demo.Call)
    (m : list (Z * Demo.Call)) :
  other ≠ index →
  Demo.map_get index (Demo.map_set other call m) = Demo.map_get index m.
Proof.
  intros Hne. induction m as [|[i c] m IH]; simpl.
  - by apply Z.eqb_neq in Hne as ->.
  - destruct (i =? other)%Z eqn:Hi; simpl.
    + apply Z.eqb_eq in Hi as ->. by apply Z.eqb_neq in Hne as ->.
    + by rewrite IH.
Qed.

Lemma fragments_at_snoc (index : Z) (out : list StreamChunk) (c : StreamChunk) :
  fragments_at index (out ++ [c])
  = fragments_at index out ++ fragments_at index [c].
Proof. apply omap_app. Qed.

Lemma last_name_snoc (fragments : list ToolCall) (toolCall : ToolCall) :
  last_name (fragments ++ [toolCall])
  = string_or (Some (tc_name toolCall)) (last_name fragments).
Proof.
  unfold last_name. rewrite fmap_app, List.filter_app. simpl.
  destruct (String.eqb (tc_name toolCall) ""); simpl.
  - by rewrite app_nil_r.
  - by rewrite last_snoc.
Qed.

Lemma assembled_snoc (fragments : list ToolCall) (toolCall : ToolCall) :
  assembled (fragments ++ [toolCall])
  = let existing :=
      default {| Demo.call_id := tc_id toolCall; Demo.call_name := "";
                 Demo.call_args := "" |} (assembled fragments) in
    Some {| Demo.call_id := Demo.call_id existing;
            Demo.call_name :=
              string_or (Some (tc_name toolCall)) (Demo.call_name existing);
            Demo.call_args :=
              Demo.call_args existing +:+ tc_arguments toolCall |}.
Proof.
  destruct fragments as [|first fragments].
  - simpl. unfold last_name. simpl.
    rewrite append_empty_r.
    by destruct (String.eqb (tc_name toolCall) "").
  - change ((first :: fragments) ++ [toolCall])
      with (first :: (fragments ++ [toolCall])).
    unfold assembled.
    change (first :: (fragments ++ [toolCall]))
      with ((first :: fragments) ++ [toolCall]).
    rewrite last_name_snoc, fmap_app, concat_strings_app. simpl.
    by rewrite append_empty_r.
Qed.

Lemma demo_round_snoc (r : Demo.Round) (out : list StreamChunk)
    (c : StreamChunk) :
  foldl Demo.on_chunk r (out ++ [c]) = Demo.on_chunk (foldl Demo.on_chunk r out) c.
Proof. by rewrite foldl_app. Qed.

(** X12. The demo assembles each tool call from the tool-call chunks that
    carry its index: after any sequence of chunks, the entry of
    [toolCallsMap] for an index has the id of the first such chunk, the
    last non-empty name and the arguments of all of them joined in order;
    there is no entry for an index that no chunk carried. *)
Theorem demo_tool_call_assembled (out : list StreamChunk) (index : Z) :
  Demo.map_get index
    (Demo.toolCallsMap (foldl Demo.on_chunk Demo.new_round out))
  = assembled (fragments_at index out).
Proof.
  induction out as [|c out IH] using rev_ind; [done|].
  rewrite demo_round_snoc, fragments_at_snoc.
  set (r := foldl Demo.on_chunk Demo.new_round out) in *.
  destruct c as [id model ts delta acc|id model ts thought
                |id model ts toolCall i|id model ts reason usage
                |id model ts message code]; simpl;
    try (by rewrite app_nil_r).
  - destruct (i =? index)%Z eqn:Hi.
    + apply Z.eqb_eq in Hi as ->.
      rewrite demo_map_get_set, assembled_snoc. simpl. by rewrite IH.
    + rewrite app_nil_r, <- IH. apply demo_map_get_set_ne.
      by apply Z.eqb_neq.
  - rewrite app_nil_r, <- IH. by destruct (String.eqb reason "tool_calls").
Qed.

Lemma demo_content_last (r : Demo.Round) (out : list StreamChunk) :
  Demo.content (foldl Demo.on_chunk r out)
  = default (Demo.content r) (last (content_fields out)).
Proof.
  induction out as [|c out IH] using rev_ind; [done|].
  rewrite demo_round_snoc, content_fields_app.
  destruct c; simpl; rewrite ?app_nil_r, ?last_snoc; try done.
  by destruct (String.eqb _ "tool_calls").
Qed.

Lemma accumulate_response_deltas (out : list StreamChunk) :
  GroupChat.accumulate_response out = concat_strings (delta_fields out).
Proof.
  unfold GroupChat.accumulate_response.
  induction out as [|c out IH] using rev_ind; [done|].
  rewrite foldl_app, delta_fields_app, concat_strings_app, <- IH. simpl.
  destruct c as [id model ts delta acc| | | |]; simpl;
    rewrite ?append_empty_r; try done.
  by destruct (String.eqb_spec delta "") as [->|_]; rewrite ?append_empty_r.
Qed.

(** X13. The two consumers read the same text off an adapter stream: the
    response that the group chat server accumulates from the deltas, and
    the [content] that the demo keeps from the last content chunk, are
    both the concatenation of all deltas that [chatStream] emitted, for
    the OpenAI adapter and for the Gemini adapter. *)
Theorem consumers_agree_on_text (Date_now : nat → Z)
    (generateId : nat → string) (JSON_parse : string → option json)
    (JSON_stringify : json → string) :
  (∀ options_model opened,
     let out := emitted (OpenAI.chatStream Date_now generateId options_model
                           opened) in
     GroupChat.accumulate_response out = concat_strings (delta_fields out)
     ∧ Demo.content (foldl Demo.on_chunk Demo.new_round out)
       = concat_strings (delta_fields out))
  ∧ (∀ options_model opened,
       let out := emitted (Gemini.chatStream Date_now generateId JSON_parse
                             JSON_stringify options_model opened) in
       GroupChat.accumulate_response out = concat_strings (delta_fields out)
       ∧ Demo.content (foldl Demo.on_chunk Demo.new_round out)
         = concat_strings (delta_fields out)).
Proof.
  split; intros options_model opened out;
    (split; [apply accumulate_response_deltas|]);
    rewrite demo_content_last.
  - by destruct (openai_chatStream_accumulates Date_now generateId
                   options_model opened) as [_ Hlast].
  - by destruct (gemini_chatStream_accumulates Date_now generateId JSON_parse
                   JSON_stringify options_model opened) as [_ Hlast].
Qed.

(** ** The messages of the demo *)

Lemma demo_tool_calls_kept (r : Demo.Round) (out : list StreamChunk) :
  forallb (λ c, negb (asks_for_tools c)) out = true →
  Demo.toolCalls (foldl Demo.on_chunk r out) = Demo.toolCalls r.
Proof.
  revert r. induction out as [|c out IH]; intros r; simpl; [done|].
  intros [Hc Hout]%andb_true_iff. rewrite (IH _ Hout).
  destruct c; simpl in *; try done.
  by apply negb_true_iff in Hc as ->.
Qed.

Section demo_messages.
Variable streamChat : list Demo.Message → Emitted StreamChunk.
Variable JSON_parse : string → option json.
Variable calculate : option json → string.

Lemma execute_tools_answers (calls : list ToolCall) (msgs : list Demo.Message) :
  ∃ results,
    (Demo.execute_tools JSON_parse calculate msgs calls).1 = msgs ++ results
    ∧ Forall2 answers (take (length results) calls) results
    ∧ ((Demo.execute_tools JSON_parse calculate msgs calls).2 = true →
       length results = length calls).
Proof.
  revert msgs. induction calls as [|call calls IH]; intros msgs; simpl.
  - exists []. by rewrite app_nil_r.
  - destruct (Demo.expression_of JSON_parse (tc_arguments call))
      as [expression|].
    + destruct (IH (msgs ++ [Demo.ToolMessage (calculate expression)
                               (tc_id call) (tc_name call)]))
        as (results & Hmsgs & Hanswers & Hlen).
      eexists (_ :: results). rewrite Hmsgs, <- app_assoc.
      split; [done|]. split.
      * simpl. by constructor.
      * intros Hok. simpl. by rewrite Hlen.
    + exists []. by rewrite app_nil_r.
Qed.

Lemma while_loop_answered (remaining iteration : nat)
    (msgs : list Demo.Message) :
  let r := Demo.while_loop streamChat JSON_parse calculate
             remaining iteration msgs in
  ∃ added,
    Demo.messages r = msgs ++ added
    ∧ Forall (λ m, match m with Demo.UserMessage _ => False | _ => True end)
        added
    ∧ (Demo.outcome r = Demo.Complete → answered_rounds added).
Proof.
  revert iteration msgs.
  induction remaining as [|remaining IH]; intros iteration msgs; simpl.
  - exists []. rewrite app_nil_r. repeat split; constructor.
  - destruct (escaped (streamChat msgs)); simpl.
    { exists []. rewrite app_nil_r. by repeat split. }
    set (round := Demo.stream_round streamChat msgs).
    destruct (Demo.toolCalls round) as [|call calls] eqn:Hcalls;
      cbv beta match zeta.
    { exists []. rewrite app_nil_r. repeat split; constructor. }
    set (assistant := Demo.AssistantMessage _ _).
    destruct (execute_tools_answers (call :: calls) (msgs ++ [assistant]))
      as (results & Hmsgs & Hanswers & Hlen).
    assert (Forall (λ m, match m with
                         | Demo.UserMessage _ => False
                         | _ => True
                         end) results) as Hresults.
    { clear -Hanswers. induction Hanswers as [|c m cs ms Hm _ IH'];
        constructor; [by destruct m | done]. }
    destruct (Demo.execute_tools JSON_parse calculate (msgs ++ [assistant])
                (call :: calls)) as [msgs' ok].
    simpl in Hmsgs, Hlen. subst msgs'. destruct ok; simpl.
    + destruct (IH (S iteration) ((msgs ++ [assistant]) ++ results))
        as (added & Hadded & Hno_user & Hrounds).
      exists (assistant :: results ++ added).
      rewrite Hadded, <- !app_assoc. split; [done|]. split.
      * constructor; [done|]. by apply Forall_app.
      * intros Hcomplete. subst assistant.
        apply answered_round;
          [done| |apply Hrounds; by rewrite <- app_assoc].
        by rewrite take_ge in Hanswers by (rewrite Hlen by done; simpl; lia).
    + exists (assistant :: results). rewrite <- app_assoc.
      split; [done|]. split; [by constructor | done].
Qed.
End demo_messages.

(** X14. The demo only ever appends to its messages, and never a user
    message; when the loop is left normally, what it appended is a run of
    tool-execution rounds: an assistant message carrying at least one tool
    call, followed by one tool message per call, in the order of the calls
    and with the id and the name of its call. *)
Theorem demo_messages_are_answered_rounds
    (streamChat : list Demo.Message → Emitted StreamChunk)
    (JSON_parse : string → option json) (calculate : option json → string)
    (maxIterations : nat) :
  Demo.outcome (Demo.tool_loop streamChat JSON_parse calculate maxIterations)
  = Demo.Complete →
  ∃ added,
    Demo.messages (Demo.tool_loop streamChat JSON_parse calculate maxIterations)
    = Demo.initial_messages ++ added
    ∧ Forall (λ m, match m with Demo.UserMessage _ => False | _ => True end)
        added
    ∧ answered_rounds added.
Proof.
  intros Hcomplete. unfold Demo.tool_loop in *.
  destruct (while_loop_answered streamChat JSON_parse calculate
              (maxIterations - 0) 0 Demo.initial_messages)
    as (added & Hadded & Hno_user & Hrounds).
  exists added. auto.
Qed.

Lemma demo_messages_are_answered_rounds_witness :
  ∃ added,
    Demo.messages (Demo.tool_loop Samples.always_calculates SampleJSON.parse
                     Samples.calculate 2)
    = Demo.initial_messages ++ added
    ∧ Forall (λ m, match m with Demo.UserMessage _ => False | _ => True end)
        added
    ∧ answered_rounds added.
Proof.
  apply (demo_messages_are_answered_rounds Samples.always_calculates
           SampleJSON.parse Samples.calculate 2).
  reflexivity.
Defined.

(** X15. When the first response arrives in full and none of its chunks is
    a [done] chunk with the finish reason [tool_calls], the demo stops
    after that one iteration, normally, without executing a tool and with
    its messages as they were, whatever tool-call chunks were streamed. *)
Theorem demo_stops_without_tool_request
    (streamChat : list Demo.Message → Emitted StreamChunk)
    (JSON_parse : string → option json) (calculate : option json → string)
    (maxIterations : nat) :
  0 < maxIterations →
  escaped (streamChat Demo.initial_messages) = None →
  forallb (λ c, negb (asks_for_tools c))
    (emitted (streamChat Demo.initial_messages)) = true →
  Demo.tool_loop streamChat JSON_parse calculate maxIterations
  = {| Demo.outcome := Demo.Complete;
       Demo.messages := Demo.initial_messages;
       Demo.iteration := 1 |}.
Proof.
  intros Hmax Hescaped Hquiet. unfold Demo.tool_loop.
  destruct maxIterations as [|n]; [lia|]. simpl.
  rewrite Hescaped. unfold Demo.stream_round.
  by rewrite (demo_tool_calls_kept _ _ Hquiet).
Qed.

Lemma demo_stops_without_tool_request_witness :
  Demo.tool_loop Samples.plain_answer SampleJSON.parse Samples.calculate 2
  = {| Demo.outcome := Demo.Complete;
       Demo.messages := Demo.initial_messages;
       Demo.iteration := 1 |}.
Proof.
  apply (demo_stops_without_tool_request Samples.plain_answer SampleJSON.parse
           Samples.calculate 2); [lia | reflexivity | reflexivity].
Defined.

(** ** The adapters behind the bridge *)

(** X16. What a client of the bridge reads when [toReadableStream] serves
    the [chatStream] of an adapter.  For the Gemini adapter, when the
    request can be mapped (its messages formatted and its tools converted),
    the response is one record per chunk followed by the sentinel, whether
    the vendor stream completed, failed or could not be opened; when the
    mapping throws, as [formatMessages] does on a content part of an
    unknown type, the generator throws before its [try] and the response
    is the record of that error and no sentinel.  For the OpenAI adapter
    the response ends with the sentinel when the vendor stream was opened,
    and is the record of the error and no sentinel when it could not be
    opened. *)
Theorem adapters_behind_bridge
    (chunk_members : StreamChunk → string)
    (error_members : string → option string → string)
    (Date_now : nat → Z) (generateId : nat → string)
    (JSON_parse : string → option json) (JSON_stringify : json → string) :
  let record := λ chunk, wire_record (json_object (chunk_members chunk)) in
  let error_record := λ error,
    wire_record
      (json_object
         (error_members
            (if String.eqb (thrown_message error) ""
             then "Unknown error occurred" else thrown_message error)
            (thrown_code error))) in
  let serve := λ generator,
    Bridge.toReadableStream chunk_members error_members
      (as_source generator) in
  (∀ tools_failure generateContentStream options_model messages,
     let generator :=
       GeminiRequest.chatStream Date_now generateId JSON_parse JSON_stringify
         tools_failure generateContentStream options_model messages in
     match GeminiRequest.mapCommonOptionsToGemini JSON_parse tools_failure
             messages with
     | inr contents =>
         serve generator = (record <$> emitted generator) ++ [wire_sentinel]
     | inl error =>
         serve generator = [error_record error]
         ∧ error_record error ≠ wire_sentinel
     end)
  ∧ (∀ tools_failure generateContentStream options_model messages,
       forallb supported_message messages = true →
       tools_failure = None →
       last (serve (GeminiRequest.chatStream Date_now generateId JSON_parse
                      JSON_stringify tools_failure generateContentStream
                      options_model messages))
       = Some wire_sentinel)
  ∧ (∀ options_model stream,
       let generator := OpenAI.chatStream Date_now generateId options_model
                          (inr stream) in
       serve generator = (record <$> emitted generator) ++ [wire_sentinel])
  ∧ (∀ options_model error,
       serve (OpenAI.chatStream Date_now generateId options_model (inl error))
       = [error_record error]
       ∧ error_record error ≠ wire_sentinel).
Proof.
  intros record error_record serve.
  assert (∀ tools_failure generateContentStream options_model messages,
            let generator :=
              GeminiRequest.chatStream Date_now generateId JSON_parse
                JSON_stringify tools_failure generateContentStream
                options_model messages in
            match GeminiRequest.mapCommonOptionsToGemini JSON_parse
                    tools_failure messages with
            | inr contents =>
                serve generator
                = (record <$> emitted generator) ++ [wire_sentinel]
            | inl error =>
                serve generator = [error_record error]
                ∧ error_record error ≠ wire_sentinel
            end) as Hgemini.
  { intros tools_failure generateContentStream options_model messages.
    unfold GeminiRequest.chatStream.
    destruct (GeminiRequest.mapCommonOptionsToGemini JSON_parse tools_failure
                messages) as [error|contents]; cbv zeta.
    - split; [done | apply wire_object_not_sentinel].
    - subst serve. cbv beta.
      unfold Bridge.toReadableStream, as_source. simpl.
      by rewrite gemini_chatStream_never_throws. }
  split; [exact Hgemini|]. split; [|split].
  - intros tools_failure generateContentStream options_model messages
      Hsupported ->.
    specialize (Hgemini None generateContentStream options_model messages).
    destruct (map_throwing_inr (GeminiText.format_message JSON_parse)
                (λ msg, supported_message msg = true) (λ _ _, True) messages)
      as (contents & Hcontents & _).
    + intros msg Hmsg.
      destruct (format_message_supported JSON_parse msg Hmsg) as (c & Hc & _).
      by exists c.
    + apply Forall_forall. intros msg Hin.
      rewrite forallb_forall in Hsupported.
      by apply Hsupported, list_elem_of_In.
    + unfold GeminiRequest.mapCommonOptionsToGemini, GeminiText.formatMessages
        in Hgemini.
      rewrite Hcontents in Hgemini. cbv zeta in Hgemini.
      rewrite Hgemini. apply last_snoc.
  - intros options_model stream generator. subst serve. cbv beta.
    unfold Bridge.toReadableStream, as_source. simpl. subst generator.
    by rewrite openai_chatStream_opened_never_throws.
  - intros options_model error.
    split; [done | apply wire_object_not_sentinel].
Qed.

(** A request with a content part of an unknown type, served: one error
    record, no chunk, no sentinel. *)
Example gemini_unmappable_request_served :
  Bridge.toReadableStream Samples.chunk_members Samples.error_members
    (as_source
       (GeminiRequest.chatStream Samples.clock Samples.ids SampleJSON.parse
          SampleJSON.stringify None (λ _, inr (Samples.completes []))
          "gemini-2.5-flash" Samples.hologram_conversation))
  = [wire_record
       (json_object
          (Samples.error_members "Unsupported content part type: hologram"
             None))].
Proof. reflexivity. Qed.

(** A request that can be mapped, served: the sentinel comes last. *)
Example gemini_mapped_request_served :
  last (Bridge.toReadableStream Samples.chunk_members Samples.error_members
          (as_source
             (GeminiRequest.chatStream Samples.clock Samples.ids
                SampleJSON.parse SampleJSON.stringify None
                (λ _, inl Samples.network_error)
                "gemini-2.5-flash" Samples.conversation)))
  = Some ("data: [DONE]" +:+ line_feed +:+ line_feed).
Proof. reflexivity. Qed.

(** ** Masked API keys *)

Lemma stars_length (n : nat) : String.length (PhpServer.stars n) = n.
Proof. induction n as [|n IH]; simpl; [done|]. by rewrite IH. Qed.

Lemma string_substring_append_l (a b : string) :
  String.substring 0 (String.length a) (a +:+ b) = a.
Proof.
  induction a as [|c a IH]; simpl.
  - by destruct b.
  - by rewrite IH.
Qed.

Lemma string_substring_append_r (a b : string) (m : nat) :
  String.substring (String.length a) m (a +:+ b) = String.substring 0 m b.
Proof. induction a as [|c a IH]; simpl; [done|]. exact IH. Qed.

(** X17. A masked key has the length of the key when the key has at most
    11 bytes, and 14 bytes otherwise. *)
Theorem maskApiKey_length (key : string) :
  String.length (PhpServer.maskApiKey key)
  = if String.length key <=? 11 then String.length key else 14.
Proof.
  unfold PhpServer.maskApiKey.
  destruct (Nat.leb_spec (String.length key) 11) as [Hshort|Hlong].
  - apply stars_length.
  - rewrite !string_length_append, !string_length_substring.
    change (String.length "...") with 3. lia.
Qed.

(** X18. Of a key longer than 11 bytes the mask shows the first seven and
    the last four bytes and nothing of what lies between them: two keys
    that differ only there have the same mask. *)
Theorem maskApiKey_hides_middle (first middle last : string) :
  String.length first = 7 →
  String.length last = 4 →
  middle ≠ "" →
  PhpServer.maskApiKey (first +:+ middle +:+ last)
  = first +:+ "..." +:+ last.
Proof.
  intros Hfirst Hlast Hmiddle. unfold PhpServer.maskApiKey.
  assert (0 < String.length middle) as Hlen by (destruct middle; simpl; [done|lia]).
  rewrite !string_length_append.
  destruct (Nat.leb_spec (String.length first + (String.length middle
                            + String.length last)) 11) as [Hshort|_]; [lia|].
  rewrite <- Hfirst at 1. rewrite string_substring_append_l.
  replace (String.length first + (String.length middle + String.length last) - 4)
    with (String.length (first +:+ middle))
    by (rewrite string_length_append; lia).
  rewrite <- (append_assoc first middle last), string_substring_append_r.
  by rewrite string_substring_all by lia.
Qed.

Lemma maskApiKey_hides_middle_witness :
  PhpServer.maskApiKey ("sk-proj" +:+ "-0123456789abcdef-" +:+ "wxyz")
  = "sk-proj" +:+ "..." +:+ "wxyz".
Proof.
  apply (maskApiKey_hides_middle "sk-proj" "-0123456789abcdef-" "wxyz");
    [reflexivity | reflexivity | discriminate].
Defined.

(** ** The message queues of the group chat *)

Lemma last_50_kept (pushed : list GroupChat.Notification) :
  (if 50 <? length pushed then drop (length pushed - 50) pushed else pushed)
  = last_50 pushed.
Proof.
  unfold last_50. destruct (Nat.ltb_spec 50 (length pushed)); [done|].
  by replace (length pushed - 50) with 0 by lia.
Qed.

Lemma last_50_length (queue : list GroupChat.Notification) :
  length (last_50 queue) = length queue `min` 50.
Proof. unfold last_50. rewrite length_drop. lia. Qed.

Lemma last_50_last (queue : list GroupChat.Notification)
    (n : GroupChat.Notification) :
  last (last_50 (queue ++ [n])) = Some n.
Proof.
  unfold last_50. rewrite length_app. simpl.
  destruct (decide (length queue + 1 - 50 ≤ length queue)) as [Hle|]; [|lia].
  rewrite drop_app_le by done. by rewrite last_snoc.
Qed.

Section group_chat.
Variable random_id : nat → string.
Variable date_iso : nat → string.
Variable notification : GroupChat.Notification.
Variable excludeUser : option string.

Lemma enqueue_spec (g : GroupChat.Globals) (username : string) :
  let g' := GroupChat.enqueue random_id date_iso notification g username in
  GroupChat.clients g' = GroupChat.clients g
  ∧ GroupChat.userMessageQueues g'
    = <[username :=
          last_50 (default [] (GroupChat.userMessageQueues g !! username)
                   ++ [delivered random_id date_iso notification
                         (GroupChat.randoms_drawn g)
                         (GroupChat.dates_read g)])]>
        (GroupChat.userMessageQueues g)
  ∧ (∀ k, delivered random_id date_iso notification
            (GroupChat.randoms_drawn g' + k) (GroupChat.dates_read g' + k)
          = delivered random_id date_iso notification
              (GroupChat.randoms_drawn g + S k)
              (GroupChat.dates_read g + S k)).
Proof.
  unfold GroupChat.enqueue, delivered.
  destruct (truthy_string (GroupChat.n_id notification));
    destruct (truthy_string (GroupChat.n_timestamp notification)); simpl;
    rewrite last_50_kept; repeat split; intros k;
    repeat f_equal; lia.
Qed.

Lemma recipients_cons (g : GroupChat.Globals) (u : string) (us : list string) :
  List.filter (λ u, negb (GroupChat.excluded excludeUser u)) (u :: us)
  = if GroupChat.excluded excludeUser u
    then List.filter (λ u, negb (GroupChat.excluded excludeUser u)) us
    else u :: List.filter (λ u, negb (GroupChat.excluded excludeUser u)) us.
Proof. simpl. by destruct (GroupChat.excluded excludeUser u). Qed.

Lemma broadcast_fold (users : list string) (g : GroupChat.Globals)
    (successful : list string) :
  NoDup users →
  let res :=
    foldl (λ acc username,
             if GroupChat.excluded excludeUser username then acc
             else (GroupChat.enqueue random_id date_iso notification
                     acc.1 username, acc.2 ++ [username]))
      (g, successful) users in
  let reached :=
    List.filter (λ u, negb (GroupChat.excluded excludeUser u)) users in
  res.2 = successful ++ reached
  ∧ GroupChat.clients res.1 = GroupChat.clients g
  ∧ (∀ i u, reached !! i = Some u →
       GroupChat.userMessageQueues res.1 !! u
       = Some (last_50
                 (default [] (GroupChat.userMessageQueues g !! u)
                  ++ [delivered random_id date_iso notification
                        (GroupChat.randoms_drawn g + i)
                        (GroupChat.dates_read g + i)])))
  ∧ (∀ u, u ∉ reached →
       GroupChat.userMessageQueues res.1 !! u
       = GroupChat.userMessageQueues g !! u).
Proof.
  revert g successful.
  induction users as [|user users IH]; intros g successful Hnodup.
  - simpl. rewrite app_nil_r. by repeat split.
  - apply NoDup_cons in Hnodup as [Hfresh Hnodup].
    cbv zeta. rewrite (recipients_cons g). simpl foldl.
    destruct (GroupChat.excluded excludeUser user) eqn:Hexcluded.
    { apply (IH g successful Hnodup). }
    destruct (enqueue_spec g user) as (Hclients & Hqueues & Hshift).
    set (g' := GroupChat.enqueue random_id date_iso notification g user) in *.
    destruct (IH g' (successful ++ [user]) Hnodup)
      as (Hsuccessful & Hclients' & Hreached & Hothers).
    simpl in *.
    set (reached := List.filter _ users) in *.
    assert (user ∉ reached) as Hnot_reached.
    { intros Hin. apply Hfresh. apply list_elem_of_In in Hin.
      apply filter_In in Hin as [Hin _]. by apply list_elem_of_In. }
    split; [by rewrite Hsuccessful, <- app_assoc|].
    split; [congruence|]. split.
    + intros [|i] u Hu; simpl in Hu.
      * simplify_eq. rewrite (Hothers u Hnot_reached), Hqueues.
        rewrite lookup_insert_eq. by rewrite !Nat.add_0_r.
      * assert (u ≠ user) as Hne.
        { intros ->. apply Hnot_reached. by eapply list_elem_of_lookup_2. }
        rewrite (Hreached i u Hu), Hshift, Hqueues.
        by rewrite lookup_insert_ne.
    + intros u Hu. apply not_elem_of_cons in Hu as [Hne Hu].
      rewrite (Hothers u Hu), Hqueues. by rewrite lookup_insert_ne.
Qed.
End group_chat.

(** X19. [broadcastToAll] reaches the connected users other than the
    excluded one, in the order of [clients], and reports exactly them as
    successful.  The queue of the recipient at position [i] becomes its
    former queue (empty when it had none) followed by the notification,
    cut to its last fifty entries; the notification queued keeps its own
    timestamp and id when it has them and otherwise gets the date and the
    random id drawn for that recipient.  No other queue changes. *)
Theorem broadcastToAll_queues (random_id date_iso : nat → string)
    (notification : GroupChat.Notification) (excludeUser : option string)
    (g : GroupChat.Globals) :
  NoDup (GroupChat.clients g) →
  let res := GroupChat.broadcastToAll random_id date_iso notification
               excludeUser g in
  res.2 = recipients excludeUser g
  ∧ GroupChat.clients res.1 = GroupChat.clients g
  ∧ (∀ i u, recipients excludeUser g !! i = Some u →
       GroupChat.userMessageQueues res.1 !! u
       = Some (last_50
                 (default [] (GroupChat.userMessageQueues g !! u)
                  ++ [delivered random_id date_iso notification
                        (GroupChat.randoms_drawn g + i)
                        (GroupChat.dates_read g + i)])))
  ∧ (∀ u, u ∉ recipients excludeUser g →
       GroupChat.userMessageQueues res.1 !! u
       = GroupChat.userMessageQueues g !! u).
Proof.
  intros Hnodup.
  apply (broadcast_fold random_id date_iso notification excludeUser
           (GroupChat.clients g) g [] Hnodup).
Qed.

Lemma broadcastToAll_queues_witness :
  let res := GroupChat.broadcastToAll Samples.random_ids Samples.dates
               Samples.claude_responding (Some "ada") Samples.lobby in
  res.2 = ["bob"; "cy"]
  ∧ GroupChat.clients res.1 = ["ada"; "bob"; "cy"]
  ∧ (∀ i u, ["bob"; "cy"] !! i = Some u →
       GroupChat.userMessageQueues res.1 !! u
       = Some (last_50
                 (default [] (GroupChat.userMessageQueues Samples.lobby !! u)
                  ++ [delivered Samples.random_ids Samples.dates
                        Samples.claude_responding (0 + i) (0 + i)])))
  ∧ (∀ u, u ∉ ["bob"; "cy"] →
       GroupChat.userMessageQueues res.1 !! u
       = GroupChat.userMessageQueues Samples.lobby !! u).
Proof.
  apply (broadcastToAll_queues Samples.random_ids Samples.dates
           Samples.claude_responding (Some "ada") Samples.lobby).
  by apply (bool_decide_unpack _).
Defined.

(** X20. After a broadcast, the queue of every user it reached is not
    empty, holds at most fifty notifications, and ends with the
    notification that was broadcast. *)
Theorem broadcastToAll_queue_bounded (random_id date_iso : nat → string)
    (notification : GroupChat.Notification) (excludeUser : option string)
    (g : GroupChat.Globals) (u : string) :
  NoDup (GroupChat.clients g) →
  u ∈ GroupChat.clients g →
  GroupChat.excluded excludeUser u = false →
  ∃ queue newest,
    GroupChat.userMessageQueues
      (GroupChat.broadcastToAll random_id date_iso notification
         excludeUser g).1 !! u = Some queue
    ∧ 1 ≤ length queue ≤ 50
    ∧ last queue = Some newest
    ∧ GroupChat.n_type newest = GroupChat.n_type notification
    ∧ GroupChat.n_message newest = GroupChat.n_message notification
    ∧ GroupChat.n_username newest = GroupChat.n_username notification
    ∧ is_Some (GroupChat.n_timestamp newest)
    ∧ is_Some (GroupChat.n_id newest).
Proof.
  intros Hnodup Hin Hexcluded.
  destruct (broadcast_fold random_id date_iso notification excludeUser
              (GroupChat.clients g) g [] Hnodup) as (_ & _ & Hreached & _).
  assert (u ∈ List.filter (λ u, negb (GroupChat.excluded excludeUser u))
                (GroupChat.clients g)) as Hu.
  { apply list_elem_of_In, filter_In. split; [by apply list_elem_of_In|].
    by rewrite Hexcluded. }
  apply list_elem_of_lookup_1 in Hu as [i Hi].
  specialize (Hreached i u Hi). unfold GroupChat.broadcastToAll.
  eexists _, _. split; [exact Hreached|].
  rewrite last_50_length, last_50_last, length_app. simpl.
  repeat split; try done; lia.
Qed.

Lemma broadcastToAll_queue_bounded_witness :
  ∃ queue newest,
    GroupChat.userMessageQueues
      (GroupChat.broadcastToAll Samples.random_ids Samples.dates
         Samples.claude_responding (Some "ada") Samples.lobby).1 !! "bob"
    = Some queue
    ∧ 1 ≤ length queue ≤ 50
    ∧ last queue = Some newest
    ∧ GroupChat.n_type newest = "claude_responding"
    ∧ GroupChat.n_message newest = Some "Claude is responding to ada..."
    ∧ GroupChat.n_username newest = Some "System"
    ∧ is_Some (GroupChat.n_timestamp newest)
    ∧ is_Some (GroupChat.n_id newest).
Proof.
  apply (broadcastToAll_queue_bounded Samples.random_ids Samples.dates
           Samples.claude_responding (Some "ada") Samples.lobby "bob").
  - by apply (bool_decide_unpack _).
  - by apply (bool_decide_unpack _).
  - reflexivity.
Defined.

(** X21. [pollMessages] hands the queue over once: polling again straight
    away returns nothing, for every user and every state; and a poll
    leaves the queues of the other users and the connected clients as
    they are. *)
Theorem pollMessages_drains (currentUsername : option string)
    (g : GroupChat.Globals) :
  let polled := GroupChat.pollMessages currentUsername g in
  (GroupChat.pollMessages currentUsername polled.1).2 = []
  ∧ GroupChat.clients polled.1 = GroupChat.clients g
  ∧ ∀ u, Some u ≠ currentUsername →
         GroupChat.userMessageQueues polled.1 !! u
         = GroupChat.userMessageQueues g !! u.
Proof.
  unfold GroupChat.pollMessages.
  destruct (truthy_string currentUsername) eqn:Htruthy; simpl.
  - rewrite lookup_insert_eq. repeat split.
    intros u Hu. destruct currentUsername as [name|]; [|done]. simpl.
    rewrite lookup_insert_ne; [done|]. by intros ->.
  - done.
Qed.

(** X22. A user that a broadcast reached, and whose queue was empty or
    absent, polls exactly the one notification, as it was queued. *)
Theorem broadcast_then_poll (random_id date_iso : nat → string)
    (notification : GroupChat.Notification) (excludeUser : option string)
    (g : GroupChat.Globals) (i : nat) (u : string) :
  NoDup (GroupChat.clients g) →
  recipients excludeUser g !! i = Some u →
  u ≠ "" →
  default [] (GroupChat.userMessageQueues g !! u) = [] →
  (GroupChat.pollMessages (Some u)
     (GroupChat.broadcastToAll random_id date_iso notification
        excludeUser g).1).2
  = [delivered random_id date_iso notification
       (GroupChat.randoms_drawn g + i) (GroupChat.dates_read g + i)].
Proof.
  intros Hnodup Hi Hname Hempty.
  destruct (broadcast_fold random_id date_iso notification excludeUser
              (GroupChat.clients g) g [] Hnodup) as (_ & _ & Hreached & _).
  specialize (Hreached i u Hi). unfold GroupChat.broadcastToAll.
  unfold GroupChat.pollMessages. simpl.
  destruct (String.eqb_spec u "") as [->|_]; [done|]. simpl.
  rewrite Hreached, Hempty. done.
Qed.

Lemma broadcast_then_poll_witness :
  (GroupChat.pollMessages (Some "cy")
     (GroupChat.broadcastToAll Samples.random_ids Samples.dates
        Samples.claude_responding (Some "ada") Samples.lobby).1).2
  = [delivered Samples.random_ids Samples.dates Samples.claude_responding
       (0 + 1) (0 + 1)].
Proof.
  apply (broadcast_then_poll Samples.random_ids Samples.dates
           Samples.claude_responding (Some "ada") Samples.lobby 1 "cy").
  - by apply (bool_decide_unpack _).
  - reflexivity.
  - discriminate.
  - reflexivity.
Defined.

(** X23. Once a connection is disposed of, its user receives no broadcast:
    the user is not among the successful recipients, and no queue is
    created for it again. *)
Theorem dispose_then_broadcast (random_id date_iso : nat → string)
    (notification : GroupChat.Notification) (excludeUser : option string)
    (g : GroupChat.Globals) (u : string) :
  NoDup (GroupChat.clients g) →
  u ≠ "" →
  let res := GroupChat.broadcastToAll random_id date_iso notification
               excludeUser (GroupChat.dispose (Some u) g) in
  (u ∉ res.2) ∧ GroupChat.userMessageQueues res.1 !! u = None.
Proof.
  intros Hnodup Hname.
  assert (GroupChat.dispose (Some u) g
          = {| GroupChat.clients :=
                 List.filter (λ v, negb (String.eqb v u)) (GroupChat.clients g);
               GroupChat.userMessageQueues :=
                 delete u (GroupChat.userMessageQueues g);
               GroupChat.randoms_drawn := GroupChat.randoms_drawn g;
               GroupChat.dates_read := GroupChat.dates_read g |}) as Hdisposed.
  { unfold GroupChat.dispose. simpl.
    by destruct (String.eqb_spec u "") as [->|_]. }
  rewrite Hdisposed. clear Hdisposed.
  set (g' := GroupChat.Build_Globals _ _ _ _).
  assert (u ∉ GroupChat.clients g') as Hgone.
  { simpl. intros Hin%list_elem_of_In%filter_In.
    destruct Hin as [_ Hne]. by rewrite String.eqb_refl in Hne. }
  assert (NoDup (GroupChat.clients g')) as Hnodup'.
  { simpl. apply NoDup_ListNoDup, List.NoDup_filter.
    by apply NoDup_ListNoDup. }
  destruct (broadcast_fold random_id date_iso notification excludeUser
              (GroupChat.clients g') g' [] Hnodup')
    as (Hsuccessful & _ & _ & Hothers).
  unfold GroupChat.broadcastToAll. cbv zeta.
  assert (u ∉ List.filter (λ v, negb (GroupChat.excluded excludeUser v))
                (GroupChat.clients g')) as Hnot_reached.
  { intros Hin%list_elem_of_In%filter_In. destruct Hin as [Hin _].
    by apply Hgone, list_elem_of_In. }
  split.
  - by rewrite Hsuccessful.
  - rewrite (Hothers u Hnot_reached). simpl. apply lookup_delete_eq.
Qed.

Lemma dispose_then_broadcast_witness :
  let res := GroupChat.broadcastToAll Samples.random_ids Samples.dates
               Samples.claude_responding None
               (GroupChat.dispose (Some "bob") Samples.lobby) in
  ("bob" ∉ res.2) ∧ GroupChat.userMessageQueues res.1 !! "bob" = None.
Proof.
  apply (dispose_then_broadcast Samples.random_ids Samples.dates
           Samples.claude_responding None Samples.lobby "bob").
  - by apply (bool_decide_unpack _).
  - discriminate.
Defined.

(** ** Unexpected tool calls *)

Lemma omap_run_loop_Forall {S X C D : Type} (body : S → X → S * list C)
    (f : C → option D) (g : X → list D) (P : X → Prop) :
  (∀ s x, P x → omap f (body s x).2 = g x) →
  ∀ xs s, Forall P xs → omap f (run_loop body s xs).2 = xs ≫= g.
Proof.
  intros Hbody xs. induction xs as [|x xs IH]; intros s Hxs; simpl; [done|].
  apply Forall_cons in Hxs as [Hx Hxs].
  specialize (Hbody s x Hx). destruct (body s x) as [s1 o1].
  specialize (IH s1 Hxs). destruct (run_loop body s1 xs) as [s2 o2].
  simpl in *. by rewrite omap_app, Hbody, IH.
Qed.

Section gemini_unexpected.
Variable Date_now : nat → Z.
Variable generateId : nat → string.
Variable JSON_parse : string → option json.
Variable JSON_stringify : json → string.
Variable model : string.
Variable timestamp : Z.

Lemma gemini_process_part_vendor_ids (st : Gemini.State) (part : Gemini.Part) :
  carries_vendor_id part = true →
  tool_call_ids
    (Gemini.process_part Date_now generateId JSON_parse JSON_stringify
       model timestamp st part).2
  = vendor_call_ids [part].
Proof.
  unfold carries_vendor_id, vendor_call_ids, Gemini.process_part.
  intros Hid.
  destruct (Gemini.text_part generateId model timestamp st part)
    as [st1 out1] eqn:Htext.
  assert (tool_call_ids out1 = []) as Hout1.
  { unfold Gemini.text_part in Htext.
    destruct (truthy_string (Gemini.part_text part)); [|by simplify_eq].
    destruct (default false (Gemini.part_thought part)); by simplify_eq. }
  destruct (Gemini.part_functionCall part) as [functionCall|] eqn:Hcall;
    simpl; rewrite Hcall.
  - unfold Gemini.function_call_part, Gemini.tool_call_id. rewrite Hid.
    destruct (Gemini.toolCallMap st1 !! _); simpl;
      by rewrite tool_call_ids_app, Hout1.
  - by rewrite app_nil_r.
Qed.

Lemma gemini_unexpected_part_vendor_ids (st : Gemini.State)
    (part : Gemini.Part) :
  carries_vendor_id part = true →
  tool_call_ids
    (Gemini.unexpected_tool_call_part Date_now generateId JSON_stringify
       model timestamp st part).2
  = vendor_call_ids [part].
Proof.
  unfold carries_vendor_id, vendor_call_ids, Gemini.unexpected_tool_call_part.
  intros Hid.
  destruct (Gemini.part_functionCall part) as [functionCall|] eqn:Hcall;
    simpl; rewrite Hcall; [|done].
  unfold Gemini.tool_call_id. by rewrite Hid.
Qed.
End gemini_unexpected.

(** X24. A chunk that ends with the finish reason [UNEXPECTED_TOOL_CALL]
    has its function calls reported twice: once by the loop over the parts
    and once more by the block for that finish reason.  When the calls
    carry ids of the vendor, the tool-call chunks emitted for the chunk
    carry those ids in order, and then the same ids once again. *)
Theorem gemini_unexpected_tool_call_reported_twice
    (Date_now : nat → Z) (generateId : nat → string)
    (JSON_parse : string → option json) (JSON_stringify : json → string)
    (model : string) (timestamp : Z) (st : Gemini.State)
    (chunk : Gemini.GenerateContentResponse) (parts : list Gemini.Part) :
  Gemini.finishReason0 chunk = Some Gemini.UNEXPECTED_TOOL_CALL →
  Gemini.parts0 chunk = Some parts →
  forallb carries_vendor_id parts = true →
  tool_call_ids
    (Gemini.process_chunk Date_now generateId JSON_parse JSON_stringify
       model timestamp st chunk).2
  = vendor_call_ids parts ++ vendor_call_ids parts.
Proof.
  intros Hfinish Hparts Hids.
  assert (Forall (λ part, carries_vendor_id part = true) parts) as Hall.
  { apply Forall_forall. intros part Hin. rewrite forallb_forall in Hids.
    by apply Hids, list_elem_of_In. }
  unfold Gemini.process_chunk. rewrite Hparts.
  pose proof (omap_run_loop_Forall
                (Gemini.process_part Date_now generateId JSON_parse
                   JSON_stringify model timestamp) _ _ _
                (λ s part Hpart,
                   eq_trans
                     (gemini_process_part_vendor_ids Date_now generateId
                        JSON_parse JSON_stringify model timestamp s part Hpart)
                     (app_nil_r _))
                parts st Hall) as Hloop.
  destruct (run_loop _ st parts) as [st1 out1]. simpl in Hloop.
  unfold Gemini.finish_part. rewrite Hfinish, Hparts. simpl.
  pose proof (omap_run_loop_Forall
                (Gemini.unexpected_tool_call_part Date_now generateId
                   JSON_stringify model timestamp) _ _ _
                (λ s part Hpart,
                   eq_trans
                     (gemini_unexpected_part_vendor_ids Date_now generateId
                        JSON_stringify model timestamp s part Hpart)
                     (app_nil_r _))
                parts st1 Hall) as Hblock.
  destruct (run_loop _ st1 parts) as [st2 out2]. simpl in *.
  rewrite !tool_call_ids_app. unfold tool_call_ids at 1 2.
  rewrite Hloop, Hblock. simpl. by rewrite app_nil_r.
Qed.

Lemma gemini_unexpected_tool_call_reported_twice_witness :
  tool_call_ids
    (Gemini.process_chunk Samples.clock Samples.ids SampleJSON.parse
       SampleJSON.stringify "gemini-2.5-flash" (Samples.clock 0)
       Gemini.initial_state Samples.gemini_unexpected).2
  = ["call-7"; "call-7"].
Proof.
  apply (gemini_unexpected_tool_call_reported_twice Samples.clock Samples.ids
           SampleJSON.parse SampleJSON.stringify "gemini-2.5-flash"
           (Samples.clock 0) Gemini.initial_state Samples.gemini_unexpected
           [Samples.text_part "Calling. ";
            Samples.call_part (Some "call-7") (Some "getWeather")
              (Some (JObj [("city", JStr "Paris")]))]);
    reflexivity.
Defined.

(** ** The synthesized keys of a whole stream *)

Lemma synthesized_keys_app (Date_now : nat → Z) (reads counter : nat)
    (calls1 calls2 : list Gemini.FunctionCall) :
  synthesized_keys Date_now reads counter (calls1 ++ calls2)
  = synthesized_keys Date_now reads counter calls1
    ++ synthesized_keys Date_now (reads + length calls1)
         (counter + length calls1) calls2.
Proof.
  revert reads counter.
  induction calls1 as [|call calls1 IH]; intros reads counter; simpl.
  - by rewrite !Nat.add_0_r.
  - rewrite IH. by rewrite !Nat.add_succ_comm.
Qed.

Lemma synthesized_keys_lookup (Date_now : nat → Z) (reads counter : nat)
    (calls : list Gemini.FunctionCall) (k : nat)
    (functionCall : Gemini.FunctionCall) :
  calls !! k = Some functionCall →
  synthesized_keys Date_now reads counter calls !! k
  = Some (Gemini.synthesized_key (Gemini.fc_name functionCall)
            (Date_now (reads + k)) (counter + k)).
Proof.
  revert reads counter k.
  induction calls as [|call calls IH]; intros reads counter [|k] Hk;
    simplify_eq/=.
  - by rewrite !Nat.add_0_r.
  - rewrite (IH _ _ _ Hk). by rewrite !Nat.add_succ_comm.
Qed.

Lemma synthesized_keys_length (Date_now : nat → Z) (reads counter : nat)
    (calls : list Gemini.FunctionCall) :
  length (synthesized_keys Date_now reads counter calls) = length calls.
Proof.
  revert reads counter. induction calls as [|call calls IH];
    intros reads counter; simpl; [done|]. by rewrite IH.
Qed.

Lemma tool_call_indices_app (o1 o2 : list StreamChunk) :
  tool_call_indices (o1 ++ o2) = tool_call_indices o1 ++ tool_call_indices o2.
Proof. apply omap_app. Qed.

Lemma keyed_silent (Date_now : nat → Z) (st st' : Gemini.State)
    (out : list StreamChunk) :
  Gemini.toolCallMap st' = Gemini.toolCallMap st →
  Gemini.nextToolIndex st' = Gemini.nextToolIndex st →
  Gemini.clock_reads st' = Gemini.clock_reads st →
  tool_call_ids out = [] →
  tool_call_indices out = [] →
  keyed Date_now [] st (st', out).
Proof.
  intros Hmap Hnext Hreads Hids Hindices Hinv. simpl.
  rewrite Hids, Hindices, Hnext, Hreads.
  repeat split; try done; try lia.
  intros k. rewrite Hmap, Hnext. apply Hinv.
Qed.

Lemma keyed_app (Date_now : nat → Z) (calls1 calls2 : list Gemini.FunctionCall)
    (st st1 st2 : Gemini.State) (o1 o2 : list StreamChunk) :
  keyed Date_now calls1 st (st1, o1) →
  keyed Date_now calls2 st1 (st2, o2) →
  keyed Date_now (calls1 ++ calls2) st (st2, o1 ++ o2).
Proof.
  intros H1 H2 Hinv.
  destruct (H1 Hinv) as (Hk1 & Hi1 & Hr1 & Hn1 & Hinv1).
  destruct (H2 Hinv1) as (Hk2 & Hi2 & Hr2 & Hn2 & Hinv2). simpl in *.
  rewrite tool_call_ids_app, tool_call_indices_app, synthesized_keys_app.
  rewrite length_app, seq_app, fmap_app, Hk1, Hk2, Hi1, Hi2, Hr1, Hn1.
  repeat split; try done; lia.
Qed.

Lemma keyed_run_loop {X : Type} (Date_now : nat → Z) (P : X → Prop)
    (calls_of : X → list Gemini.FunctionCall)
    (body : Gemini.State → X → Gemini.State * list StreamChunk) :
  (∀ st x, P x → keyed Date_now (calls_of x) st (body st x)) →
  ∀ xs st, Forall P xs →
    keyed Date_now (xs ≫= calls_of) st (run_loop body st xs).
Proof.
  intros Hbody xs. induction xs as [|x xs IH]; intros st Hxs.
  - by apply keyed_silent.
  - apply Forall_cons in Hxs as [Hx Hxs]. rewrite bind_cons. simpl.
    specialize (Hbody st x Hx). destruct (body st x) as [st1 o1].
    specialize (IH st1 Hxs). destruct (run_loop body st1 xs) as [st2 o2].
    by eapply keyed_app.
Qed.

Lemma omap_option_list {A B : Type} (f : A → option B) (l : list A) :
  l ≫= (λ x, option_list (f x)) = omap f l.
Proof.
  induction l as [|x l IH]; [done|].
  rewrite bind_cons, IH. simpl. by destruct (f x).
Qed.

Section gemini_exact_keys.
Variable Date_now : nat → Z.
Variable generateId : nat → string.
Variable JSON_parse : string → option json.
Variable JSON_stringify : json → string.
Variable model : string.
Variable timestamp : Z.

Lemma gemini_function_call_part_keyed (st : Gemini.State)
    (functionCall : Gemini.FunctionCall) :
  truthy_string (Gemini.fc_id functionCall) = false →
  keyed Date_now [functionCall] st
    (Gemini.function_call_part Date_now generateId JSON_parse JSON_stringify
       model timestamp st functionCall).
Proof.
  intros Hid Hinv. unfold Gemini.function_call_part.
  rewrite (gemini_tool_call_id_synthesized Date_now st functionCall Hid).
  set (key := Gemini.synthesized_key _ _ _).
  destruct (Gemini.toolCallMap (Gemini.tick_clock st) !! key) as [d|] eqn:Hd.
  { destruct (Hinv key) as (n & t & c & Hkey & Hc); [by eexists|].
    apply synthesized_key_counter in Hkey. lia. }
  simpl. repeat split; try done; try lia.
  by eapply synthesized_below_insert.
Qed.

Lemma gemini_process_part_keyed (st : Gemini.State) (part : Gemini.Part) :
  lacks_vendor_id part = true →
  keyed Date_now (option_list (Gemini.part_functionCall part)) st
    (Gemini.process_part Date_now generateId JSON_parse JSON_stringify
       model timestamp st part).
Proof.
  intros Hpart. unfold Gemini.process_part.
  assert (keyed Date_now [] st
            (Gemini.text_part generateId model timestamp st part)) as H1.
  { unfold Gemini.text_part. repeat case_match; by apply keyed_silent. }
  destruct (Gemini.text_part generateId model timestamp st part)
    as [st1 out1].
  unfold lacks_vendor_id in Hpart.
  destruct (Gemini.part_functionCall part) as [functionCall|]; simpl.
  - apply negb_true_iff in Hpart.
    pose proof (gemini_function_call_part_keyed st1 functionCall Hpart) as H2.
    destruct (Gemini.function_call_part _ _ _ _ _ _ st1 functionCall)
      as [st2 out2].
    by apply (keyed_app Date_now [] [functionCall] st st1 st2).
  - apply (keyed_app Date_now [] [] st st1 st1); [done|].
    by apply keyed_silent.
Qed.

Lemma gemini_unexpected_part_keyed (st : Gemini.State) (part : Gemini.Part) :
  lacks_vendor_id part = true →
  keyed Date_now (option_list (Gemini.part_functionCall part)) st
    (Gemini.unexpected_tool_call_part Date_now generateId JSON_stringify
       model timestamp st part).
Proof.
  intros Hpart. unfold Gemini.unexpected_tool_call_part.
  unfold lacks_vendor_id in Hpart.
  destruct (Gemini.part_functionCall part) as [functionCall|]; simpl;
    [|by apply keyed_silent].
  apply negb_true_iff in Hpart.
  rewrite (gemini_tool_call_id_synthesized Date_now st functionCall Hpart).
  intros Hinv. simpl. repeat split; try done; try lia.
  - do 2 f_equal. lia.
  - by eapply synthesized_below_insert.
Qed.

Lemma gemini_process_chunk_keyed (st : Gemini.State)
    (chunk : Gemini.GenerateContentResponse) :
  no_vendor_ids chunk = true →
  keyed Date_now (processed_calls chunk) st
    (Gemini.process_chunk Date_now generateId JSON_parse JSON_stringify
       model timestamp st chunk).
Proof.
  intros Hchunk. unfold Gemini.process_chunk, processed_calls.
  unfold no_vendor_ids in Hchunk.
  assert (Forall (λ part, lacks_vendor_id part = true)
            (default [] (Gemini.parts0 chunk))) as Hparts.
  { apply Forall_forall. intros part Hin.
    rewrite forallb_forall in Hchunk. by apply Hchunk, list_elem_of_In. }
  set (calls := omap Gemini.part_functionCall
                  (default [] (Gemini.parts0 chunk))).
  set (r1 := match Gemini.parts0 chunk with Some _ => _ | None => _ end).
  assert (keyed Date_now calls st r1) as H1.
  { subst r1 calls. destruct (Gemini.parts0 chunk) as [parts|]; simpl in *.
    - rewrite <- omap_option_list.
      apply (keyed_run_loop _ (λ part, lacks_vendor_id part = true));
        [|done].
      intros. by apply gemini_process_part_keyed.
    - unfold Gemini.data_part. case_match; by apply keyed_silent. }
  destruct r1 as [st1 out1].
  assert (keyed Date_now
            (if bool_decide (Gemini.finishReason0 chunk
                             = Some Gemini.UNEXPECTED_TOOL_CALL)
             then calls else [])
            st1
            (Gemini.finish_part Date_now generateId JSON_stringify
               model timestamp st1 chunk)) as H2.
  { unfold Gemini.finish_part.
    destruct (Gemini.finishReason0 chunk) as [reason|];
      [|by apply keyed_silent].
    set (r2 := if decide (reason = Gemini.UNEXPECTED_TOOL_CALL) then _ else _).
    assert (keyed Date_now
              (if bool_decide (Some reason = Some Gemini.UNEXPECTED_TOOL_CALL)
               then calls else []) st1 r2) as H2.
    { subst r2 calls.
      destruct (decide (reason = Gemini.UNEXPECTED_TOOL_CALL)) as [->|Hreason].
      -  rewrite bool_decide_eq_true_2 by done.
        destruct (Gemini.parts0 chunk) as [parts|]; simpl in *;
          [|by apply keyed_silent].
        rewrite <- omap_option_list.
        apply (keyed_run_loop _ (λ part, lacks_vendor_id part = true));
          [|done].
        intros. by apply gemini_unexpected_part_keyed.
      - rewrite bool_decide_eq_false_2 by congruence.
        by apply keyed_silent. }
    destruct r2 as [st2 out2].
    set (r3 := if decide (reason = Gemini.MAX_TOKENS) then _ else _).
    assert (keyed Date_now [] st2 r3) as H3.
    { subst r3. destruct (decide (reason = Gemini.MAX_TOKENS));
        by apply keyed_silent. }
    destruct r3 as [st3 out3].
    rewrite <- (app_nil_r (if bool_decide _ then _ else _)).
    eapply keyed_app; [done|].
    apply (keyed_app Date_now [] [] st2 st3); [done|].
    by apply keyed_silent. }
  destruct (Gemini.finish_part _ _ _ _ _ st1 chunk) as [st2 out2].
  by eapply keyed_app.
Qed.
End gemini_exact_keys.

(** C5 (as amended). A fragment without a vendor id is keyed, in the Gemini
    adapter, by its function name, the reading of the clock taken when the
    fragment is processed, and the counter of the records created so far.
    In a stream none of whose fragments carries a vendor id, the tool-call
    chunk of the fragment processed after [k] others carries the key made
    of that fragment's name, of the reading of the clock that follows the
    [k] readings taken for the fragments before it and the one taken at the
    start of the stream, and of the counter [k]; its index is [k], that of
    a record of its own; and its [timestamp] is the reading taken at the
    start.  The counters run 0, 1, 2, ... in order, so the keys are pairwise
    distinct.  The OpenAI adapter falls back to [call_] followed by the
    reading of the clock. *)
Theorem gemini_synthesized_keys_distinct
    (Date_now : nat → Z) (generateId : nat → string)
    (JSON_parse : string → option json) (JSON_stringify : json → string)
    (options_model : string)
    (stream : VendorStream Gemini.GenerateContentResponse)
    (ts : Z) (chunk : OpenAI.VendorChunk) (st : OpenAI.State)
    (toolCall : OpenAI.ToolCallDelta) :
  forallb no_vendor_ids (events stream) = true →
  truthy_string (OpenAI.tcd_id toolCall) = false →
  let out :=
    emitted (Gemini.chatStream Date_now generateId JSON_parse
               JSON_stringify options_model (inr stream)) in
  let keys := tool_call_ids out in
  let calls := events stream ≫= processed_calls in
  length keys = length calls
  ∧ (∀ k functionCall,
       calls !! k = Some functionCall →
       keys !! k
       = Some (Gemini.synthesized_key (Gemini.fc_name functionCall)
                 (Date_now (S k)) k))
  ∧ tool_call_indices out = Z.of_nat <$> seq 0 (length calls)
  ∧ Forall (λ c, is_tool_call c = true → chunk_timestamp c = Date_now 0) out
  ∧ synthesized_run Date_now 0 keys
  ∧ NoDup keys
  ∧ tool_call_ids (OpenAI.tool_call_fragment Date_now ts chunk st toolCall).2
    = ["call_" +:+ pretty (Date_now (OpenAI.clock_reads st))].
Proof.
  intros Hstream Hid out keys calls.
  pose proof (gemini_chatStream_numbers Date_now generateId JSON_parse
                JSON_stringify options_model stream Hstream) as Hrun.
  assert (Forall (λ chunk, no_vendor_ids chunk = true) (events stream))
    as Hchunks.
  { apply Forall_forall. intros c Hin.
    rewrite forallb_forall in Hstream. by apply Hstream, list_elem_of_In. }
  pose proof (keyed_run_loop Date_now _ processed_calls _
                (λ s c Hc,
                   gemini_process_chunk_keyed Date_now generateId JSON_parse
                     JSON_stringify options_model (Date_now 0) s c Hc)
                (events stream) Gemini.initial_state Hchunks) as Hkeyed.
  pose proof (run_loop_Forall _ _
                (gemini_process_chunk_timestamps Date_now generateId
                   JSON_parse JSON_stringify options_model (Date_now 0))
                (events stream) Gemini.initial_state) as Htimestamps.
  assert (tool_call_ids out
          = synthesized_keys Date_now 1 0 calls
          ∧ tool_call_indices out = Z.of_nat <$> seq 0 (length calls)
          ∧ Forall (λ c, is_tool_call c = true → chunk_timestamp c = Date_now 0)
              out) as (Hkeys & Hindices & Hstart).
  { subst out keys calls.
    unfold Gemini.chatStream, Gemini.processStreamChunks.
    destruct (run_loop _ Gemini.initial_state (events stream)) as [st' o].
    destruct Hkeyed as (Hk & Hi & _).
    { intros k [d Hd]. simpl in Hd. by rewrite lookup_empty in Hd. }
    simpl in *.
    assert (Forall (λ c, is_tool_call c = true → chunk_timestamp c = Date_now 0)
              o) as Ho.
    { eapply Forall_impl; [exact Htimestamps|]. by intros c Hc _. }
    destruct (failure stream); simpl; [|done].
    rewrite tool_call_ids_app, tool_call_indices_app, Hk, Hi. simpl.
    rewrite !app_nil_r. repeat split; try done.
    apply Forall_app. split; [done|]. by repeat constructor. }
  fold keys in Hkeys.
  split; [by rewrite Hkeys, synthesized_keys_length|].
  split.
  { intros k functionCall Hk. rewrite Hkeys.
    by rewrite (synthesized_keys_lookup _ _ _ _ _ _ Hk). }
  split; [done|]. split; [done|]. split; [done|].
  split; [by eapply synthesized_run_NoDup|].
  unfold OpenAI.tool_call_fragment. by rewrite Hid.
Qed.

Lemma gemini_synthesized_keys_distinct_witness :
  let out := emitted (Samples.gemini_run (inr Samples.gemini_two_calls)) in
  let keys := tool_call_ids out in
  let calls := events Samples.gemini_two_calls ≫= processed_calls in
  length keys = length calls
  ∧ (∀ k functionCall,
       calls !! k = Some functionCall →
       keys !! k
       = Some (Gemini.synthesized_key (Gemini.fc_name functionCall)
                 (Samples.clock (S k)) k))
  ∧ tool_call_indices out = Z.of_nat <$> seq 0 (length calls)
  ∧ Forall (λ c, is_tool_call c = true → chunk_timestamp c = Samples.clock 0)
      out
  ∧ synthesized_run Samples.clock 0 keys
  ∧ NoDup keys
  ∧ tool_call_ids
      (OpenAI.tool_call_fragment Samples.clock (Samples.clock 0)
         (Samples.oa_chunk None None None) Samples.oa_state
         (Samples.oa_tool_call 0 "getWeather")).2
    = ["call_" +:+ pretty (Samples.clock 1)].
Proof.
  apply (gemini_synthesized_keys_distinct
           Samples.clock Samples.ids SampleJSON.parse SampleJSON.stringify
           "gemini-2.5-flash" Samples.gemini_two_calls
           (Samples.clock 0) (Samples.oa_chunk None None None) Samples.oa_state
           (Samples.oa_tool_call 0 "getWeather"));
    reflexivity.
Defined.
